(** * The articles service: middleware chain, rate limiter and article store

    A shallow embedding of the gin program whose [main] registers six global
    middleware stages, three public routes and four key-protected routes over
    an in-memory slice of articles.

    Conventions of the embedding:
    - Go's [int] is a [Z] with the 64-bit wrap-around written out ([wrap_int]);
    - [time.Time] is a [Z] (nanoseconds on some fixed time line);
    - [time.Now()] and [uuid.New()] read an environment ([Env]) through two
      counters kept in the process state, so that every call gets the next
      reading;
    - gin's [Context] is a record; a handler receives the continuation that
      [c.Next()] runs;
    - a Go panic is the [Panicked] outcome, carrying the state reached when the
      fault was raised. *)

From Stdlib Require Import ZArith Lia Ascii String.
From stdpp Require Import gmap strings list fin_maps.

Set Warnings "-register-all".

Local Open Scope string_scope.
Local Open Scope list_scope.
Local Open Scope Z_scope.

(** ** Machine integers *)

Definition max_int : Z := 2 ^ 63 - 1.
Definition min_int : Z := - 2 ^ 63.

(** Two's-complement wrap-around of Go's 64-bit [int]. *)
Definition wrap_int (z : Z) : Z := (z + 2 ^ 63) mod 2 ^ 64 - 2 ^ 63.

(** ** strconv.Atoi

    The library function as documented: an optional sign followed by one or
    more decimal digits; a syntax error yields 0, a value outside the 64-bit
    range yields the nearest bound, both with a non-nil error. *)

Definition digit_of (c : ascii) : option Z :=
  let n := Z.of_N (N_of_ascii c) in
  if (48 <=? n) && (n <=? 57) then Some (n - 48) else None.

Fixpoint parse_digits (acc : Z) (s : string) : option Z :=
  match s with
  | EmptyString => Some acc
  | String c rest =>
      match digit_of c with
      | Some d => parse_digits (acc * 10 + d) rest
      | None => None
      end
  end.

(** Strips one leading sign: the flag tells whether it was a minus. *)
Definition strip_sign (s : string) : bool * string :=
  match s with
  | String c rest =>
      if Ascii.eqb c "-"%char then (true, rest)
      else if Ascii.eqb c "+"%char then (false, rest)
      else (false, s)
  | EmptyString => (false, s)
  end.

(** [Atoi s] is the pair of the value and of the error flag. *)
Definition Atoi (s : string) : Z * bool :=
  let (neg, ds) := strip_sign s in
  match ds with
  | EmptyString => (0, true)
  | _ =>
      match parse_digits 0 ds with
      | None => (0, true)
      | Some n =>
          let v := if neg then - n else n in
          if v <? min_int then (min_int, true)
          else if max_int <? v then (max_int, true)
          else (v, false)
      end
  end.


(** ** Models *)

Record Article := mkArticle {
  ID : Z;
  Title : string;
  Content : string;
  Author : string;
  CreatedAt : Z;
  UpdatedAt : Z
}.

(** What a handler puts in the [Data] field of the envelope. *)
Inductive Payload :=
| NoData
| OneArticle (a : Article)
| ManyArticles (l : list Article)
| Stats (total_articles : Z) (uptime : string).

Record Response := mkResponse {
  Success : bool;
  Data : Payload;
  Message : string;
  Error : string;
  RequestID : string
}.

(** JSON values, as far as the envelope needs them. *)
Inductive Json :=
| JBool (b : bool)
| JNum (z : Z)
| JStr (s : string)
| JArr (l : list Json)
| JObj (fields : list (string * Json)).

Definition json_of_article (a : Article) : Json :=
  JObj [("id", JNum (ID a)); ("title", JStr (Title a));
        ("content", JStr (Content a)); ("author", JStr (Author a));
        ("created_at", JNum (CreatedAt a)); ("updated_at", JNum (UpdatedAt a))].

Definition json_of_payload (p : Payload) : option Json :=
  match p with
  | NoData => None
  | OneArticle a => Some (json_of_article a)
  | ManyArticles l => Some (JArr (map json_of_article l))
  | Stats n up => Some (JObj [("total_articles", JNum n); ("uptime", JStr up)])
  end.

(** A field tagged [omitempty] is left out when it holds the zero value. *)
Definition omitempty_string (key : string) (v : string) : list (string * Json) :=
  if String.eqb v "" then [] else [(key, JStr v)].

(** The fields of the marshalled envelope, under the struct tags of
    [Response]: [Success] is tagged ["id"], the other four [omitempty]. *)
Definition marshal (r : Response) : list (string * Json) :=
  [("id", JBool (Success r))]
  ++ match json_of_payload (Data r) with
     | Some j => [("data", j)]
     | None => []
     end
  ++ omitempty_string "message" (Message r)
  ++ omitempty_string "error" (Error r)
  ++ omitempty_string "request_id" (RequestID r).

(** Lookup of a field of a marshalled object: the first binding of the key. *)
Fixpoint json_field (key : string) (fields : list (string * Json)) : option Json :=
  match fields with
  | [] => None
  | (k, v) :: rest => if String.eqb k key then Some v else json_field key rest
  end.

(** ** The process state

    The package-level variables [articles] and [nextId], the [visitors] map
    captured by the rate-limit stage, the lines written by [log.Printf], and
    the two counters of readings taken from the environment. The mutex
    [articleMux] has no component here: in this sequential part every handler
    runs to completion; the interleaved executions are in [Module Interleaved]. *)

(** Modelled from the spec: the token bucket of the rate-limiter dependency
    (golang.org/x/time/rate), which is not part of the sources. The spec gives
    it a capacity, a refill rate, the current tokens and the time of the last
    refill. Tokens are counted exactly, in units of one nanosecond of refill:
    one token is [interval] units, where [interval] is the time between two
    refilled tokens; [last] is [None] until the first check. *)
Record Limiter := mkLimiter {
  interval : Z;
  burst : Z;
  tokens : Z;
  last : option Z
}.

Record LogLine := mkLogLine {
  log_request_id : string;
  log_method : string;
  log_path : string;
  log_status : Z;
  log_duration : Z;
  log_client : string;
  log_agent : string
}.

Record World := mkWorld {
  articles : list Article;
  nextId : Z;
  visitors : gmap string Limiter;
  logs : list LogLine;
  ticks : nat;
  drawn : nat
}.

(** An inbound request. The body is given by what [ShouldBindJSON] makes of
    it: the decoded record and the decoding error, if any. *)
Record Request := mkRequest {
  Method : string;
  Path : string;
  ReqHeader : gmap string string;
  ClientIP : string;
  Body : Article;
  BodyErr : option string
}.

(** The readings the program takes from outside: the clock and the source of
    fresh identifiers. [redirect_location] is the text that gin and net/http
    make of the target of a trailing-slash redirect (the prefix taken from
    [X-Forwarded-Prefix], the escaping of the URL); the program has no part in
    it. *)
Record Env := mkEnv {
  clock : nat -> Z;
  uuids : nat -> string;
  redirect_location : Request -> string
}.

Definition set_articles (l : list Article) (w : World) : World :=
  mkWorld l (nextId w) (visitors w) (logs w) (ticks w) (drawn w).
Definition set_nextId (n : Z) (w : World) : World :=
  mkWorld (articles w) n (visitors w) (logs w) (ticks w) (drawn w).
Definition set_visitors (v : gmap string Limiter) (w : World) : World :=
  mkWorld (articles w) (nextId w) v (logs w) (ticks w) (drawn w).
Definition add_log (l : LogLine) (w : World) : World :=
  mkWorld (articles w) (nextId w) (visitors w) (logs w ++ [l]) (ticks w) (drawn w).

(** [time.Now()]: the next reading of the clock. *)
Definition time_Now (env : Env) (w : World) : Z * World :=
  (clock env (ticks w),
   mkWorld (articles w) (nextId w) (visitors w) (logs w) (S (ticks w)) (drawn w)).

(** [uuid.New().String()]: the next fresh identifier. *)
Definition uuid_New (env : Env) (w : World) : string * World :=
  (uuids env (drawn w),
   mkWorld (articles w) (nextId w) (visitors w) (logs w) (ticks w) (S (drawn w))).

(** The two articles the program starts with; their stamps are the clock
    readings taken when the package is initialised. *)
Definition initial_articles (t1 t2 t3 t4 : Z) : list Article :=
  [mkArticle 1 "Getting Started with Go" "Go is a programming language..." "John Doe" t1 t2;
   mkArticle 2 "Web Development with Gin" "Gin is a web framework..." "Jane Smith" t3 t4].

Definition initial_world (env : Env) : World :=
  mkWorld (initial_articles (clock env 0) (clock env 1) (clock env 2) (clock env 3))
          3 ∅ [] 4 0.

(** ** Requests and gin's Context *)

(** What has been written to the response body. *)
Inductive Written :=
| WJSON (r : Response)
| WText (s : string).

Record Context := mkContext {
  Req : Request;
  Params : gmap string string;
  Keys : gmap string string;
  Header : gmap string string;
  status : Z;
  written : bool;
  body : list Written;
  index : Z
}.

Definition abortIndex : Z := 63.

Definition new_context (req : Request) : Context :=
  mkContext req ∅ ∅ ∅ 200 false [] (-1).

Definition set_index (i : Z) (c : Context) : Context :=
  mkContext (Req c) (Params c) (Keys c) (Header c) (status c) (written c) (body c) i.
Definition set_params (p : gmap string string) (c : Context) : Context :=
  mkContext (Req c) p (Keys c) (Header c) (status c) (written c) (body c) (index c).

(** [c.Set(key, value)] *)
Definition Set_ (key value : string) (c : Context) : Context :=
  mkContext (Req c) (Params c) (<[key := value]> (Keys c)) (Header c)
            (status c) (written c) (body c) (index c).

(** [c.GetString(key)]: the empty string when the key is not set. *)
Definition GetString (key : string) (c : Context) : string :=
  default "" (Keys c !! key).

(** [c.GetHeader(key)]: the empty string when the request has no such header. *)
Definition GetHeader (key : string) (c : Context) : string :=
  default "" (ReqHeader (Req c) !! key).

(** [c.Param(key)] *)
Definition Param (key : string) (c : Context) : string :=
  default "" (Params c !! key).

(** [c.Writer.Header().Set(key, value)] and [c.Header(key, value)] *)
Definition Header_Set (key value : string) (c : Context) : Context :=
  mkContext (Req c) (Params c) (Keys c) (<[key := value]> (Header c))
            (status c) (written c) (body c) (index c).

(** [c.Abort()] *)
Definition Abort (c : Context) : Context := set_index abortIndex c.

Definition IsAborted (c : Context) : bool := abortIndex <=? index c.

(** [c.Status(code)]: once the header is out the status cannot change. *)
Definition Status (code : Z) (c : Context) : Context :=
  mkContext (Req c) (Params c) (Keys c) (Header c)
            (if (0 <? code) && negb (status c =? code) && negb (written c)
             then code else status c)
            (written c) (body c) (index c).

(** [c.Writer.WriteHeaderNow()] *)
Definition WriteHeaderNow (c : Context) : Context :=
  mkContext (Req c) (Params c) (Keys c) (Header c) (status c) true (body c) (index c).

(** [c.Writer.Write(data)] *)
Definition Write (data : Written) (c : Context) : Context :=
  mkContext (Req c) (Params c) (Keys c) (Header c) (status c) true
            (body c ++ [data]) (index c).

(** The content type is set only when the handler has not set one. *)
Definition writeContentType (value : string) (c : Context) : Context :=
  match Header c !! "Content-Type" with
  | Some _ => c
  | None => Header_Set "Content-Type" value c
  end.

(** [c.JSON(code, obj)]; every status the program uses allows a body. *)
Definition JSON (code : Z) (obj : Response) (c : Context) : Context :=
  Write (WJSON obj) (writeContentType "application/json; charset=utf-8" (Status code c)).

(** [c.AbortWithStatusJSON(code, obj)] *)
Definition AbortWithStatusJSON (code : Z) (obj : Response) (c : Context) : Context :=
  JSON code obj (Abort c).

(** [c.AbortWithStatus(code)] *)
Definition AbortWithStatus (code : Z) (c : Context) : Context :=
  Abort (WriteHeaderNow (Status code c)).

(** ** Handlers and the chain *)

Inductive Outcome :=
| Done (c : Context) (w : World)
| Panicked (c : Context) (w : World).

(** A handler gets the continuation that [c.Next()] stands for. *)
Definition Handler : Type := (Context -> World -> Outcome) -> Context -> World -> Outcome.

Definition incr_index (c : Context) : Context := set_index (index c + 1) c.

(** The loop of [c.Next()] once the index has been incremented:
    [for c.index < len(handlers) { handlers[c.index](c); c.index++ }],
    where [hs] are the handlers from position [pos] on. A handler that calls
    [c.Next()] itself runs the same loop over the handlers after it. *)
Fixpoint Next_loop (hs : list Handler) (pos : Z) (c : Context) (w : World) : Outcome :=
  match hs with
  | [] => Done c w
  | h :: rest =>
      if index c =? pos then
        match h (fun c' w' => Next_loop rest (pos + 1) (incr_index c') w') c w with
        | Done c' w' => Next_loop rest (pos + 1) (incr_index c') w'
        | Panicked c' w' => Panicked c' w'
        end
      else Next_loop rest (pos + 1) c w
  end.

(** [c.Next()] on a context whose handlers are [hs], called from outside any
    handler (the index is -1). *)
Definition Next (hs : list Handler) (c : Context) (w : World) : Outcome :=
  Next_loop hs 0 (incr_index c) w.

(** ** The token bucket *)

Definition time_Minute : Z := 60000000000.

(** [rate.Every(d)]: one token every [d] nanoseconds. *)
Definition Every (d : Z) : Z := d.

(** Modelled from the spec: [rate.NewLimiter(r, b)] of the same dependency; a
    bucket starts full, as the burst of the spec's testable property needs. *)
Definition NewLimiter (every b : Z) : Limiter :=
  mkLimiter every b (b * every) None.

(** Modelled from the spec: the tokens at time [now] are those held plus
    those accrued since the last check, [elapsed_time * R], capped at the
    capacity. *)
Definition refill (now : Z) (l : Limiter) : Z :=
  match last l with
  | None => tokens l
  | Some t => Z.min (burst l * interval l) (tokens l + (now - t))
  end.

(** Modelled from the spec: [limiter.Allow()] at time [now]; if at least one
    token is available, consume one and allow the request; otherwise reject. *)
Definition Allow_at (now : Z) (l : Limiter) : bool * Limiter :=
  let tk := refill now l in
  if interval l <=? tk
  then (true, mkLimiter (interval l) (burst l) (tk - interval l) (Some now))
  else (false, mkLimiter (interval l) (burst l) tk (Some now)).

(** ** The article store *)

(** The scan of [findArticleByID] from position [i] on. *)
Fixpoint find_from (i : Z) (l : list Article) (id : Z) : option Article * Z :=
  match l with
  | [] => (None, -1)
  | a :: rest => if ID a =? id then (Some a, i) else find_from (i + 1) rest id
  end.

Definition findArticleByID (arts : list Article) (id : Z) : option Article * Z :=
  find_from 0 arts id.

Definition ErrMissingFile : string := "http: no such file".

Definition validateArticle (article : Article) : option string :=
  if String.eqb (Title article) "" || String.eqb (Content article) ""
     || String.eqb (Author article) ""
  then Some ErrMissingFile
  else None.

Definition set_ID (v : Z) (a : Article) : Article :=
  mkArticle v (Title a) (Content a) (Author a) (CreatedAt a) (UpdatedAt a).
Definition set_Title (v : string) (a : Article) : Article :=
  mkArticle (ID a) v (Content a) (Author a) (CreatedAt a) (UpdatedAt a).
Definition set_Content (v : string) (a : Article) : Article :=
  mkArticle (ID a) (Title a) v (Author a) (CreatedAt a) (UpdatedAt a).
Definition set_Author (v : string) (a : Article) : Article :=
  mkArticle (ID a) (Title a) (Content a) v (CreatedAt a) (UpdatedAt a).
Definition set_CreatedAt (v : Z) (a : Article) : Article :=
  mkArticle (ID a) (Title a) (Content a) (Author a) v (UpdatedAt a).
Definition set_UpdatedAt (v : Z) (a : Article) : Article :=
  mkArticle (ID a) (Title a) (Content a) (Author a) (CreatedAt a) v.

(** [arts[i].field = v]: [None] is the index-out-of-range panic. *)
Definition index_assign (i : Z) (f : Article -> Article) (arts : list Article)
  : option (list Article) :=
  if (0 <=? i) && (i <? Z.of_nat (length arts))
  then Some (alter f (Z.to_nat i) arts)
  else None.

(** [arts[i]] *)
Definition index_read (i : Z) (arts : list Article) : option Article :=
  if 0 <=? i then arts !! Z.to_nat i else None.

(** [append(arts[:i], arts[i+1:]...)]: [None] is the slice-bounds panic. *)
Definition remove_at (i : Z) (arts : list Article) : option (list Article) :=
  if (0 <=? i) && (i + 1 <=? Z.of_nat (length arts))
  then Some (take (Z.to_nat i) arts ++ drop (Z.to_nat (i + 1)) arts)
  else None.


(** ** Middleware *)

Section Program.

Variable env : Env.

(** [gin.CustomRecovery(handle)]: a fault raised further down the chain is
    caught and handed to [handle]. (The library's special case of a broken
    connection, where nothing can be written any more, is left out.) *)
Definition CustomRecovery (handle : Context -> Context) : Handler :=
  fun next c w =>
    match next c w with
    | Done c' w' => Done c' w'
    | Panicked c' w' => Done (handle c') w'
    end.

Definition ErrorHandlerMiddleware : Handler :=
  CustomRecovery (fun c =>
    AbortWithStatusJSON 500
      (mkResponse false NoData "" "interal server error" (GetString "request_id" c)) c).

Definition RequestIDMiddleware : Handler :=
  fun next c w =>
    let (id, w) := uuid_New env w in
    let c := Set_ "request_id" id c in
    let c := Header_Set "X-Request-ID" id c in
    next c w.

Definition LoggingMiddleware : Handler :=
  fun next c w =>
    let (start, w) := time_Now env w in
    match next c w with
    | Done c w =>
        let reqID := GetString "request_id" c in
        let (now, w) := time_Now env w in
        let duration := now - start in
        Done c (add_log (mkLogLine reqID (Method (Req c)) (Path (Req c)) (status c)
                                   duration (ClientIP (Req c))
                                   (GetHeader "User-Agent" c)) w)
    | Panicked c w => Panicked c w
    end.

Definition apiKeys : gmap string string :=
  <["admin-key" := "admin"]> (<["user-key-456" := "user"]> ∅).

Definition AuthMiddleware : Handler :=
  fun next c w =>
    let key := GetHeader "X-API-Key" c in
    let role := default "" (apiKeys !! key) in
    let ok := bool_decide (is_Some (apiKeys !! key)) in
    let c :=
      if negb ok
      then AbortWithStatusJSON 401
             (mkResponse false NoData "" "invalid or missing API key"
                         (GetString "request_id" c)) c
      else c in
    let c := Set_ "role" role c in
    next c w.

Definition allowedOrigins : gmap string bool :=
  <["http://localhost:3000" := true]> (<["https://myblog.com" := true]> ∅).

Definition CORSMiddleware : Handler :=
  fun next c w =>
    let origin := GetHeader "Origin" c in
    let c :=
      if default false (allowedOrigins !! origin)
      then Header_Set "Access-Control-Allow-Origin" origin c
      else c in
    let c := Header_Set "Access-Control-Allow-Methods" "GET, POST, PUT, DELETE, OPTIONS" c in
    let c := Header_Set "Access-Control-Allow-Headers" "Content-type, X-API-Key, X-Request-ID" c in
    if String.eqb (Method (Req c)) "OPTIONS"
    then Done (AbortWithStatus 204 c) w
    else next c w.

(** The closure [getLimiter]: locate the client's bucket or create it. *)
Definition getLimiter (ip : string) (w : World) : Limiter * World :=
  match visitors w !! ip with
  | Some limiter => (limiter, w)
  | None =>
      let limiter := NewLimiter (Every (time_Minute / 100)) 100 in
      (limiter, set_visitors (<[ip := limiter]> (visitors w)) w)
  end.

(** [limiter.Allow()] on the bucket that [visitors[ip]] points to: the check
    reads the clock and updates the bucket in place. *)
Definition Allow (ip : string) (limiter : Limiter) (w : World) : bool * World :=
  let (now, w) := time_Now env w in
  let (ok, limiter) := Allow_at now limiter in
  (ok, set_visitors (<[ip := limiter]> (visitors w)) w).

Definition RateLimitMiddleware : Handler :=
  fun next c w =>
    let ip := ClientIP (Req c) in
    let (limiter, w) := getLimiter ip w in
    let c := Header_Set "X-RateLimit-Limit" "100" c in
    let (ok, w) := Allow ip limiter w in
    if negb ok
    then Done (AbortWithStatusJSON 429
                 (mkResponse false NoData "" "too many requests, limit exceeded"
                             (GetString "request_id" c)) c) w
    else next c w.

Definition ContentTypeMiddleware : Handler :=
  fun next c w =>
    if (String.eqb (Method (Req c)) "POST" || String.eqb (Method (Req c)) "PUT")
       && negb (String.prefix "application/json" (GetHeader "Content-Type" c))
    then Done (AbortWithStatusJSON 415
                 (mkResponse false NoData "" "Content type must be application/json"
                             (GetString "request_id" c)) c) w
    else next c w.

(** ** Route handlers *)

Definition ping : Handler :=
  fun _ c w =>
    Done (JSON 200 (mkResponse true NoData "pong" "" (GetString "request_id" c)) c) w.

Definition getArticles : Handler :=
  fun _ c w =>
    Done (JSON 200 (mkResponse true (ManyArticles (articles w)) "" ""
                               (GetString "request_id" c)) c) w.

Definition getArticleById : Handler :=
  fun _ c w =>
    let (id, _) := Atoi (Param "id" c) in
    let (article, _) := findArticleByID (articles w) id in
    match article with
    | None =>
        Done (JSON 404 (mkResponse false NoData "" "article not found"
                                   (GetString "request_id" c)) c) w
    | Some a =>
        Done (JSON 200 (mkResponse true (OneArticle a) "" ""
                                   (GetString "request_id" c)) c) w
    end.

Definition createArticle : Handler :=
  fun _ c w =>
    match BodyErr (Req c) with
    | Some err => Done (JSON 400 (mkResponse false NoData "" err "") c) w
    | None =>
        let input := Body (Req c) in
        match validateArticle input with
        | Some err => Done (JSON 400 (mkResponse false NoData "" err "") c) w
        | None =>
            let input := set_ID (nextId w) input in
            let w := set_nextId (wrap_int (nextId w + 1)) w in
            let (t, w) := time_Now env w in
            let input := set_CreatedAt t input in
            let (t, w) := time_Now env w in
            let input := set_UpdatedAt t input in
            let w := set_articles (articles w ++ [input]) w in
            Done (JSON 201 (mkResponse true (OneArticle input) "" "" "") c) w
        end
    end.

Definition updateArticle : Handler :=
  fun _ c w =>
    let (id, _) := Atoi (Param "id" c) in
    let (article, index) := findArticleByID (articles w) id in
    match article with
    | None => Done (JSON 404 (mkResponse false NoData "" "article not found" "") c) w
    | Some _ =>
        let input := Body (Req c) in
        match index_assign index (set_Title (Title input)) (articles w) with
        | None => Panicked c w
        | Some arts =>
        match index_assign index (set_Content (Content input)) arts with
        | None => Panicked c (set_articles arts w)
        | Some arts =>
        match index_assign index (set_Author (Author input)) arts with
        | None => Panicked c (set_articles arts w)
        | Some arts =>
        let (t, w) := time_Now env w in
        match index_assign index (set_UpdatedAt t) arts with
        | None => Panicked c (set_articles arts w)
        | Some arts =>
        let w := set_articles arts w in
        match index_read index arts with
        | None => Panicked c w
        | Some a => Done (JSON 200 (mkResponse true (OneArticle a) "" "" "") c) w
        end end end end end
    end.

Definition deleteArticle : Handler :=
  fun _ c w =>
    let (id, _) := Atoi (Param "id" c) in
    let (_, index) := findArticleByID (articles w) id in
    if index =? -1
    then Done (JSON 404 (mkResponse false NoData "" "article not found" "") c) w
    else
      match remove_at index (articles w) with
      | None => Panicked c w
      | Some arts =>
          Done (JSON 200 (mkResponse true NoData "article deleted" "" "") c)
               (set_articles arts w)
      end.

Definition getStats : Handler :=
  fun _ c w =>
    if negb (String.eqb (GetString "role" c) "admin")
    then Done (JSON 403 (mkResponse false NoData "" "admin access required" "") c) w
    else Done (JSON 200 (mkResponse true
                           (Stats (Z.of_nat (length (articles w))) "24h") "" "" "") c) w.

End Program.

(** ** Routing *)

(** The segments of a path, split at every slash. *)
Fixpoint split_path (s : string) : list string :=
  match s with
  | EmptyString => [EmptyString]
  | String ch rest =>
      if Ascii.eqb ch "/"%char then EmptyString :: split_path rest
      else
        match split_path rest with
        | seg :: segs => String ch seg :: segs
        | [] => [String ch EmptyString]
        end
  end.

(** A pattern segment [:name] takes any non-empty segment and binds it; any
    other pattern segment takes itself only. *)
Fixpoint match_segments (pat path : list string) : option (gmap string string) :=
  match pat, path with
  | [], [] => Some ∅
  | p :: pat', s :: path' =>
      match p with
      | String ":" name =>
          if String.eqb s "" then None
          else params ← match_segments pat' path'; Some (<[name := s]> params)
      | _ =>
          if String.eqb p s then match_segments pat' path' else None
      end
  | _, _ => None
  end.

Record Route := mkRoute {
  route_method : string;
  route_path : string;
  route_handlers : list Handler
}.

Fixpoint find_route (method path : string) (rs : list Route)
  : option (list Handler * gmap string string) :=
  match rs with
  | [] => None
  | r :: rest =>
      if String.eqb (route_method r) method
      then match match_segments (split_path (route_path r)) (split_path path) with
           | Some params => Some (route_handlers r, params)
           | None => find_route method path rest
           end
      else find_route method path rest
  end.

(** *** Trailing slashes

    [gin.New()] sets [RedirectTrailingSlash]. When the tree of the method has
    no route for the path, the router says whether the path without its final
    slash would have one ("tsr"), and the engine then answers with a
    redirection instead of going through the handlers of [NoRoute]. *)

(** The path without its final slash, when it ends in one. *)
Fixpoint without_trailing_slash (s : string) : option string :=
  match s with
  | EmptyString => None
  | String ch rest =>
      match rest with
      | EmptyString => if Ascii.eqb ch "/"%char then Some EmptyString else None
      | String _ _ => q ← without_trailing_slash rest; Some (String ch q)
      end
  end.

(** A pattern against the segments before the final slash. The walk down the
    tree that ends at that slash has not looked at what a parameter took, so
    here a [:name] segment takes any segment, also the empty one. *)
Fixpoint match_before_slash (pat path : list string) : bool :=
  match pat, path with
  | [], [] => true
  | p :: pat', s :: path' =>
      match p with
      | String ":" _ => match_before_slash pat' path'
      | _ => String.eqb p s && match_before_slash pat' path'
      end
  | _, _ => false
  end.

(** The recommendation of the router for a path that has no route, for
    routes as [main] registers them (no pattern ends in a slash, a parameter
    is the last segment of its pattern). *)
Definition tsr (method path : string) (rs : list Route) : bool :=
  match without_trailing_slash path with
  | Some q =>
      existsb (fun r => String.eqb (route_method r) method
                        && match_before_slash (split_path (route_path r)) (split_path q))
              rs
  | None => false
  end.

Definition quote : string := String (Ascii.ascii_of_nat 34) EmptyString.
Definition newline : string := String (Ascii.ascii_of_nat 10) EmptyString.

(** net/http's [htmlEscape]. *)
Fixpoint htmlEscape (s : string) : string :=
  match s with
  | EmptyString => EmptyString
  | String ch rest =>
      (if Ascii.eqb ch "&"%char then "&amp;"
       else if Ascii.eqb ch "<"%char then "&lt;"
       else if Ascii.eqb ch ">"%char then "&gt;"
       else if Ascii.eqb ch (Ascii.ascii_of_nat 34) then "&#34;"
       else if Ascii.eqb ch "'"%char then "&#39;"
       else String ch EmptyString) ++ htmlEscape rest
  end.

Section Engine.

Variable env : Env.

(** [redirectTrailingSlash], [redirectRequest] and net/http's [Redirect] on
    a fresh response: 301 for a GET and 307 for any other method, the
    [Location] header, and for a GET the content type and the short HTML
    body. No handler is called. *)
Definition redirectTrailingSlash (c : Context) : Context :=
  let location := redirect_location env (Req c) in
  let c := Header_Set "Location" location c in
  if String.eqb (Method (Req c)) "GET"
  then Write (WText ("<a href=" ++ quote ++ htmlEscape location ++ quote ++ ">"
                     ++ "Moved Permanently" ++ "</a>." ++ newline ++ newline))
             (Status 301 (Header_Set "Content-Type" "text/html; charset=utf-8" c))
  else WriteHeaderNow (Status 307 c).

(** [r.Use(...)] in [main]. *)
Definition global_middleware : list Handler :=
  [ErrorHandlerMiddleware; RequestIDMiddleware env; LoggingMiddleware env;
   CORSMiddleware; RateLimitMiddleware env; ContentTypeMiddleware].

(** The routes of [main]: the public group, then the group that uses
    [AuthMiddleware]. *)
Definition public_routes : list Route :=
  [mkRoute "GET" "/ping" [ping];
   mkRoute "GET" "/articles" [getArticles];
   mkRoute "GET" "/articles/:id" [getArticleById]].

Definition protected_routes : list Route :=
  [mkRoute "POST" "/articles" [AuthMiddleware; createArticle env];
   mkRoute "PUT" "/articles/:id" [AuthMiddleware; updateArticle env];
   mkRoute "DELETE" "/article/:id" [AuthMiddleware; deleteArticle];
   mkRoute "GET" "/admin/stats" [AuthMiddleware; getStats]].

Definition routes : list Route := public_routes ++ protected_routes.

Definition default404Body : string := "404 page not found".

(** gin's answer when no route matches: the global middleware runs with the
    status preset to 404, and the plain-text body is written if no stage has
    written anything. *)
Definition serveError (code : Z) (defaultMessage : string) (hs : list Handler)
    (c : Context) (w : World) : Outcome :=
  let c := mkContext (Req c) (Params c) (Keys c) (Header c) code
                     (written c) (body c) (index c) in
  match Next hs c w with
  | Done c w =>
      if written c then Done c w
      else if status c =? code
           then Done (Write (WText defaultMessage)
                            (Header_Set "Content-Type" "text/plain" c)) w
           else Done (WriteHeaderNow c) w
  | Panicked c w => Panicked c w
  end.

(** One request through the engine, [handleHTTPRequest]: the handlers of
    the route found; else, for a path other than [/] that the router
    recommends to redirect, the redirection, before any stage has run; else
    the 404 through the global stages. ([RedirectFixedPath] and
    [HandleMethodNotAllowed] are off in [gin.New()].) *)
Definition ServeHTTP (req : Request) (w : World) : Outcome :=
  let c := new_context req in
  match find_route (Method req) (Path req) routes with
  | Some (hs, params) => Next (global_middleware ++ hs) (set_params params c) w
  | None =>
      if negb (String.eqb (Method req) "CONNECT") && negb (String.eqb (Path req) "/")
         && tsr (Method req) (Path req) routes
      then Done (redirectTrailingSlash c) w
      else serveError 404 default404Body global_middleware c w
  end.

(** The request is answered by a redirection. *)
Definition redirected (req : Request) : bool :=
  match find_route (Method req) (Path req) routes with
  | Some _ => false
  | None =>
      negb (String.eqb (Method req) "CONNECT") && negb (String.eqb (Path req) "/")
      && tsr (Method req) (Path req) routes
  end.

End Engine.

Definition outcome_context (o : Outcome) : Context :=
  match o with Done c _ | Panicked c _ => c end.
Definition outcome_world (o : Outcome) : World :=
  match o with Done _ w | Panicked _ w => w end.

(** The envelopes found in a response body. *)
Definition envelopes (c : Context) : list Response :=
  omap (fun b => match b with WJSON r => Some r | WText _ => None end) (body c).

(** The [request_id] field of a marshalled envelope, when it has one. *)
Definition request_id_field (r : Response) : option Json :=
  json_field "request_id" (marshal r).

(** A small environment for the examples: the clock advances by one
    nanosecond per reading, the identifiers are told apart by their rank. *)
Definition example_env : Env :=
  mkEnv (fun n => 1000 + Z.of_nat n)
        (fun n => if Nat.eqb n 0 then "uuid-0" else "uuid-n")
        (fun req => default (Path req) (without_trailing_slash (Path req))).

Definition get (path : string) : Request :=
  mkRequest "GET" path ∅ "10.0.0.1" (mkArticle 0 "" "" "" 0 0) None.

Definition with_key (key : string) (method path : string) (input : Article) : Request :=
  mkRequest method path
            (<["X-API-Key" := key]> (<["Content-Type" := "application/json"]> ∅))
            "10.0.0.1" input None.

(** ** Requests in sequence *)

(** The process state after a list of requests, served one after the other. *)
Definition serve_all (env : Env) (reqs : list Request) (w : World) : World :=
  fold_left (fun w req => outcome_world (ServeHTTP env req w)) reqs w.

Definition reachable (env : Env) (w : World) : Prop :=
  exists reqs, w = serve_all env reqs (initial_world env).

(** ** Invariants *)

(** A clock whose successive readings differ (nanosecond resolution). *)
Definition increasing (env : Env) : Prop :=
  forall n, clock env n < clock env (S n).

(** Every stored stamp was read from the clock before now. *)
Definition stamps_before (env : Env) (w : World) : Prop :=
  Forall (fun a => UpdatedAt a < clock env (ticks w)) (articles w).

(** The counter is ahead of every stored identifier, the identifiers are
    positive and pairwise distinct. *)
Definition ids_below (w : World) : Prop :=
  1 <= nextId w <= Z.of_nat (ticks w)
  /\ Forall (fun a => 1 <= ID a < nextId w) (articles w)
  /\ NoDup (ID <$> articles w).

(** The invariant of the store. The part on identifiers is stated for as long
    as the counter cannot have wrapped around: each increment of [nextId]
    comes with two readings of the clock, so the number of readings bounds
    the counter. *)
Definition world_inv (env : Env) (w : World) : Prop :=
  stamps_before env w /\ (Z.of_nat (ticks w) <= max_int -> ids_below w).

(** A property of the state reached by a continuation, whether it returns or
    panics. *)
Definition holds (P : Context -> World -> Prop) (o : Outcome) : Prop :=
  match o with Done c w | Panicked c w => P c w end.

Definition stable (P : Context -> World -> Prop)
    (k : Context -> World -> Outcome) : Prop :=
  forall c w, P c w -> holds P (k c w).

(** A handler keeps [P] if it does so whenever what it calls through
    [c.Next()] does; the loop only runs a handler on a context that is not
    aborted. *)
Definition respects (P : Context -> World -> Prop) (h : Handler) : Prop :=
  forall next, stable P next ->
  forall c w, IsAborted c = false -> P c w -> holds P (h next c w).

(** [P] does not look at the index, except that it may rely on the context
    being aborted. *)
Definition index_blind (P : Context -> World -> Prop) : Prop :=
  forall c w i, index c <= i -> P c w -> P (set_index i c) w.

(** The invariant as a property of the state of a chain. *)
Definition inv_state (env : Env) : Context -> World -> Prop :=
  fun _ w => world_inv env w.

(** ** The correlation id in a response *)

(** The statuses of the responses written by a middleware stage that aborts
    with an envelope. *)
Definition error_status (code : Z) : bool :=
  (code =? 401) || (code =? 415) || (code =? 429) || (code =? 500).

(** The identifier [id] has been assigned: it is in the response header and in
    the context, and no envelope carries another one. The bound on the index
    says that the first two stages are behind. *)
Definition correlated (id : string) : Context -> World -> Prop :=
  fun c _ =>
    2 <= index c
    /\ Header c !! "X-Request-ID" = Some id
    /\ Keys c !! "request_id" = Some id
    /\ Forall (fun r => RequestID r = "" \/ RequestID r = id) (envelopes c).

(** Every envelope written so far carries [id]. *)
Definition all_tagged (id : string) : Context -> World -> Prop :=
  fun c w => correlated id c w /\ Forall (fun r => RequestID r = id) (envelopes c).

(** The three states of a response with respect to the error statuses:
    nothing written yet; an aborting stage has written its envelope, which
    carries [id]; or something else has been written, under another status. *)
Definition errors_tagged (id : string) : Context -> World -> Prop :=
  fun c w =>
    correlated id c w
    /\ ((written c = false /\ body c = [] /\ error_status (status c) = false)
        \/ (IsAborted c = true /\ written c = true /\ error_status (status c) = true
            /\ envelopes c <> []
            /\ Forall (fun r => RequestID r = id) (envelopes c))
        \/ (written c = true /\ error_status (status c) = false)).

(** What a DELETE that finds no route leaves: a status other than 200 and
    the articles it started from. *)
Definition delete_unserved (arts : list Article) : Context -> World -> Prop :=
  fun c w => Method (Req c) = "DELETE" /\ status c <> 200 /\ articles w = arts.

(** ** The way of an admitted request through the global stages *)

(** The check of the rate-limit stage: the bucket of the client, found or
    created, is asked for one token. *)
Definition rate_check (env : Env) (ip : string) (w : World) : bool * World :=
  let (limiter, w) := getLimiter ip w in Allow env ip limiter w.

(** Whether the rate-limit stage lets a request pass that enters the chain in
    state [w] (the correlation stage draws an identifier and the logging
    stage reads the clock before the check). *)
Definition admitted (env : Env) (req : Request) (w : World) : bool :=
  fst (rate_check env (ClientIP req) (snd (time_Now env (snd (uuid_New env w))))).

(** The process state in which the stages after it run. *)
Definition entry_world (env : Env) (req : Request) (w : World) : World :=
  snd (rate_check env (ClientIP req) (snd (time_Now env (snd (uuid_New env w))))).

(** The headers set by the CORS stage. *)
Definition cors_headers (c : Context) : Context :=
  let origin := GetHeader "Origin" c in
  let c :=
    if default false (allowedOrigins !! origin)
    then Header_Set "Access-Control-Allow-Origin" origin c
    else c in
  let c := Header_Set "Access-Control-Allow-Methods" "GET, POST, PUT, DELETE, OPTIONS" c in
  Header_Set "Access-Control-Allow-Headers" "Content-type, X-API-Key, X-Request-ID" c.

(** The context that the handlers of the route receive, at index 6, when the
    six global stages have let the request pass. *)
Definition entry_context (env : Env) (c0 : Context) (w : World) : Context :=
  let id := uuids env (drawn w) in
  incr_index (incr_index
    (Header_Set "X-RateLimit-Limit" "100"
       (incr_index
          (cors_headers
             (incr_index (incr_index
                (Header_Set "X-Request-ID" id
                   (Set_ "request_id" id (incr_index (incr_index c0)))))))))).

(** Whether the content-type stage lets the request pass. *)
Definition content_type_ok (req : Request) : bool :=
  negb ((String.eqb (Method req) "POST" || String.eqb (Method req) "PUT")
        && negb (String.prefix "application/json"
                   (default "" (ReqHeader req !! "Content-Type")))).

(** ** Requests against the rate limit *)

(** The rate-limit stage alone, on the fresh context of a request. *)
Definition rate_limit_stage (env : Env) (req : Request) (w : World) : Outcome :=
  RateLimitMiddleware env (fun c w => Done c w) (new_context req) w.

(** A run of requests through the stage, each in the state left by the one
    before: for each, whether it was let through and the status of its
    response so far; and the state at the end. *)
Fixpoint rate_limit_run (env : Env) (reqs : list Request) (w : World)
  : list (bool * Z) * World :=
  match reqs with
  | [] => ([], w)
  | req :: rest =>
      let o := rate_limit_stage env req w in
      let (results, w') := rate_limit_run env rest (outcome_world o) in
      ((negb (IsAborted (outcome_context o)), status (outcome_context o)) :: results, w')
  end.

(** The bucket of a client that has been let through [k] times since a check
    at time [t1], the last check being at time [tk]: it holds what is left of
    the capacity, plus at most what accrued in between. *)
Definition bucket_after (l : Limiter) (t1 tk : Z) (k : Z) : Prop :=
  last l = Some tk
  /\ (burst l - k) * interval l <= tokens l
  /\ tokens l <= (burst l - k) * interval l + (tk - t1).

(** A bucket of the configured kind that is full at time [now]. *)
Definition bucket_full (now : Z) (l : Limiter) : Prop :=
  interval l = time_Minute / 100 /\ burst l = 100
  /\ refill now l = burst l * interval l.

(** A clock that does not go back. *)
Definition monotone (env : Env) : Prop :=
  forall n, clock env n <= clock env (S n).

(** The state of the bucket of the client [ip] after [k] requests of a burst
    that began at time [t1]. *)
Definition in_burst (env : Env) (ip : string) (t1 : Z) (k : Z) (w : World) : Prop :=
  exists l tk,
    visitors w !! ip = Some l
    /\ interval l = time_Minute / 100 /\ burst l = 100
    /\ bucket_after l t1 tk k /\ tk <= clock env (ticks w).

(** An environment for a burst: the clock advances by one nanosecond per
    reading up to the 105th, then jumps by one refill interval. *)
Definition burst_env : Env :=
  mkEnv (fun n => if (n <=? 104)%nat then Z.of_nat n else Z.of_nat n + 600000000)
        (fun _ => "uuid") Path.

(** ** Handlers running at the same time

    The store handlers again, one source statement per step, so that the
    steps of several requests can be interleaved. What the requests share is
    the slice [articles], the counter [nextId] and the mutex [articleMux];
    each request has its own handler state. Of the three writers only
    [createArticle] takes the mutex, as in the source; the readers take
    none. A scan by [findArticleByID] is one step.

    The unit is the source statement. That is enough to show a race: every
    schedule of the model is an execution of the program. It is not every
    execution: inside one statement Go reads the slice header, moves elements
    and stores the header as separate accesses (so in
    [append(articles[:i], articles[i+1:]...)]), and two writers without the
    mutex can interleave there. What is stated of all schedules is therefore
    about the counter, the identifier a create holds and the mutex, which
    are touched under the mutex only, and not about the contents of the
    slice. *)

Module Interleaved.

Record Shared := mkShared {
  sh_articles : list Article;
  sh_nextId : Z;
  sh_locked : bool
}.

(** What a handler has answered when it is done. *)
Inductive Answer :=
| Answered (code : Z) (data : Payload)
| Fault.

(** The handler of a request and the statement it is about to run. The
    clock readings it will take are given with the request. *)
Inductive Thread :=
(* createArticle, once the body is bound and valid *)
| CreateLock (input : Article) (t1 t2 : Z)        (* articleMux.Lock() *)
| CreateReadId (input : Article) (t1 t2 : Z)      (* input.ID = nextId *)
| CreateBump (input : Article) (t1 t2 : Z)        (* nextId++ *)
| CreateStampC (input : Article) (t1 t2 : Z)      (* input.CreatedAt = time.Now() *)
| CreateStampU (input : Article) (t2 : Z)         (* input.UpdatedAt = time.Now() *)
| CreateAppend (input : Article)                  (* articles = append(articles, input) *)
| CreateReply (input : Article)                   (* c.JSON(201, ...), deferred Unlock() *)
(* updateArticle *)
| UpdateFind (id : Z) (input : Article) (t : Z)   (* findArticleByID(id) *)
| UpdateTitle (i : Z) (input : Article) (t : Z)   (* articles[index].Title = ... *)
| UpdateContent (i : Z) (input : Article) (t : Z) (* articles[index].Content = ... *)
| UpdateAuthor (i : Z) (input : Article) (t : Z)  (* articles[index].Author = ... *)
| UpdateStamp (i : Z) (t : Z)                     (* articles[index].UpdatedAt = time.Now() *)
| UpdateReply (i : Z)                             (* c.JSON(200, articles[index]) *)
(* deleteArticle *)
| DeleteFind (id : Z)                             (* findArticleByID(id) *)
| DeleteRemove (i : Z)                            (* articles = append(articles[:i], articles[i+1:]...) *)
(* getArticleById *)
| GetFind (id : Z)                                (* findArticleByID(id) and the reply *)
| Finished (a : Answer).

Definition with_articles (arts : list Article) (s : Shared) : Shared :=
  mkShared arts (sh_nextId s) (sh_locked s).

(** An assignment to a field of [articles[i]]: a fault when out of range. *)
Definition assign (i : Z) (f : Article -> Article) (k : Thread) (s : Shared)
  : Thread * Shared :=
  match index_assign i f (sh_articles s) with
  | Some arts => (k, with_articles arts s)
  | None => (Finished Fault, s)
  end.

(** One statement of a handler; [None] when the handler cannot move (it is
    done, or it waits for the mutex). *)
Definition step (t : Thread) (s : Shared) : option (Thread * Shared) :=
  match t with
  | CreateLock input t1 t2 =>
      if sh_locked s then None
      else Some (CreateReadId input t1 t2, mkShared (sh_articles s) (sh_nextId s) true)
  | CreateReadId input t1 t2 =>
      Some (CreateBump (set_ID (sh_nextId s) input) t1 t2, s)
  | CreateBump input t1 t2 =>
      Some (CreateStampC input t1 t2,
            mkShared (sh_articles s) (wrap_int (sh_nextId s + 1)) (sh_locked s))
  | CreateStampC input t1 t2 => Some (CreateStampU (set_CreatedAt t1 input) t2, s)
  | CreateStampU input t2 => Some (CreateAppend (set_UpdatedAt t2 input), s)
  | CreateAppend input =>
      Some (CreateReply input, with_articles (sh_articles s ++ [input]) s)
  | CreateReply input =>
      Some (Finished (Answered 201 (OneArticle input)),
            mkShared (sh_articles s) (sh_nextId s) false)
  | UpdateFind id input t =>
      match findArticleByID (sh_articles s) id with
      | (None, _) => Some (Finished (Answered 404 NoData), s)
      | (Some _, i) => Some (UpdateTitle i input t, s)
      end
  | UpdateTitle i input t =>
      Some (assign i (set_Title (Title input)) (UpdateContent i input t) s)
  | UpdateContent i input t =>
      Some (assign i (set_Content (Content input)) (UpdateAuthor i input t) s)
  | UpdateAuthor i input t =>
      Some (assign i (set_Author (Author input)) (UpdateStamp i t) s)
  | UpdateStamp i t =>
      Some (assign i (set_UpdatedAt t) (UpdateReply i) s)
  | UpdateReply i =>
      match index_read i (sh_articles s) with
      | Some a => Some (Finished (Answered 200 (OneArticle a)), s)
      | None => Some (Finished Fault, s)
      end
  | DeleteFind id =>
      let (_, i) := findArticleByID (sh_articles s) id in
      if i =? -1 then Some (Finished (Answered 404 NoData), s)
      else Some (DeleteRemove i, s)
  | DeleteRemove i =>
      match remove_at i (sh_articles s) with
      | Some arts => Some (Finished (Answered 200 NoData), with_articles arts s)
      | None => Some (Finished Fault, s)
      end
  | GetFind id =>
      match findArticleByID (sh_articles s) id with
      | (Some a, _) => Some (Finished (Answered 200 (OneArticle a)), s)
      | (None, _) => Some (Finished (Answered 404 NoData), s)
      end
  | Finished _ => None
  end.

(** The requests in flight and what they share. *)
Definition Config : Type := list Thread * Shared.

(** The thread [n] runs one statement. *)
Definition step_thread (n : nat) (cfg : Config) : option Config :=
  t ← fst cfg !! n;
  '(t', s') ← step t (snd cfg);
  Some (<[n := t']> (fst cfg), s').

(** A schedule names the thread that moves at each step. *)
Fixpoint run (schedule : list nat) (cfg : Config) : option Config :=
  match schedule with
  | [] => Some cfg
  | n :: rest => cfg' ← step_thread n cfg; run rest cfg'
  end.

(** A thread is inside the section that [createArticle] guards. *)
Definition in_critical (t : Thread) : bool :=
  match t with
  | CreateReadId _ _ _ | CreateBump _ _ _ | CreateStampC _ _ _
  | CreateStampU _ _ | CreateAppend _ | CreateReply _ => true
  | _ => false
  end.

(** A writer other than [createArticle] is about to write the store. *)
Definition about_to_write (t : Thread) : bool :=
  match t with
  | UpdateTitle _ _ _ | UpdateContent _ _ _ | UpdateAuthor _ _ _
  | UpdateStamp _ _ | DeleteRemove _ => true
  | _ => false
  end.

(** The store the program starts with, at rest. *)
Definition initial_shared : Shared :=
  mkShared (initial_articles 1000 1001 1002 1003) 3 false.

End Interleaved.

(** ** What every request goes through

    The states that a request passes on its way through the six global
    stages, named so that the properties of whole requests can be stated.
    All of them are built from the stages as embedded above. *)

(** The context once the correlation stage has run (up to the index). *)
Definition correlated_context (env : Env) (c0 : Context) (w : World) : Context :=
  Header_Set "X-Request-ID" (uuids env (drawn w))
    (Set_ "request_id" (uuids env (drawn w)) c0).

(** The context once the CORS and the rate-limit stage have set their
    headers (up to the index). *)
Definition checked_context (env : Env) (c0 : Context) (w : World) : Context :=
  Header_Set "X-RateLimit-Limit" "100" (cors_headers (correlated_context env c0 w)).

(** The process state left by the logging stage when what it called returned
    the context [c] in state [w]: the clock is read once more and the line is
    written. [start] is the reading taken before the call. *)
Definition logged (env : Env) (start : Z) (c : Context) (w : World) : World :=
  add_log (mkLogLine (GetString "request_id" c) (Method (Req c)) (Path (Req c))
                     (status c) (clock env (ticks w) - start) (ClientIP (Req c))
                     (GetHeader "User-Agent" c))
          (snd (time_Now env w)).

(** The statuses that the handlers of the routes answer with. *)
Definition handler_statuses : list Z := [200; 201; 400; 403; 404].

(** The statuses of the responses that the stages and the handlers write
    for requests served in turn. *)
Definition all_statuses : list Z := [200; 201; 204; 400; 401; 403; 404; 415; 429].

(** The number of requests of a sequence that the engine passes on to the
    stages, that is, does not answer by a redirection. *)
Definition passed_on (env : Env) (reqs : list Request) : nat :=
  length (List.filter (fun req => negb (redirected env req)) reqs).

(** The methods of the routes that write the store. *)
Definition write_methods : list string := ["POST"; "PUT"; "DELETE"].

Definition store_kept (w w' : World) : Prop :=
  articles w' = articles w /\ nextId w' = nextId w.

(** What a handler of a route leaves alone: it answers with one envelope and
    touches neither the request, the keys, the index, the other headers, the
    buckets, the log nor the source of identifiers; the clock is read at most
    twice and the counter moves by at most one. *)
Definition frame (c : Context) (w : World) (c' : Context) (w' : World) : Prop :=
  Req c' = Req c /\ Params c' = Params c /\ Keys c' = Keys c /\ index c' = index c
  /\ (forall k, k <> "Content-Type" -> Header c' !! k = Header c !! k)
  /\ written c' = true /\ status c' ∈ handler_statuses
  /\ (exists r, body c' = body c ++ [WJSON r])
  /\ visitors w' = visitors w /\ logs w' = logs w /\ drawn w' = drawn w
  /\ (ticks w <= ticks w' <= ticks w + 2)%nat
  /\ (nextId w' = nextId w \/ nextId w' = wrap_int (nextId w + 1)).

(** A handler that never calls [c.Next()] and always returns. *)
Definition terminal (h : Handler) : Prop :=
  forall c w, written c = false ->
  exists c' w', (forall next, h next c w = Done c' w') /\ frame c w c' w'.

(** A handler that does not write the store. *)
Definition reader (h : Handler) : Prop :=
  forall next c w, store_kept w (outcome_world (h next c w)).

(** The same for the handlers of a route together, the authentication stage
    included, which stores the role. *)
Definition tail_frame (c : Context) (w : World) (c' : Context) (w' : World) : Prop :=
  Req c' = Req c
  /\ (forall k, k <> "role" -> Keys c' !! k = Keys c !! k)
  /\ (forall k, k <> "Content-Type" -> Header c' !! k = Header c !! k)
  /\ status c' ∈ all_statuses
  /\ visitors w' = visitors w /\ logs w' = logs w /\ drawn w' = drawn w
  /\ (ticks w <= ticks w' <= ticks w + 2)%nat
  /\ (nextId w' = nextId w \/ nextId w' = wrap_int (nextId w + 1)).

(** The context that the engine starts a request with, and the handlers of
    its route (none when no route matches). *)
Definition start_context (env : Env) (req : Request) : Context :=
  match find_route (Method req) (Path req) (routes env) with
  | Some (_, params) => set_params params (new_context req)
  | None => mkContext req ∅ ∅ ∅ 404 false [] (-1)
  end.

Definition route_chain (env : Env) (req : Request) : list Handler :=
  match find_route (Method req) (Path req) (routes env) with
  | Some (hs, _) => hs
  | None => []
  end.

(** The response headers after the correlation and the CORS stage. *)
Definition base_headers (env : Env) (req : Request) (w : World) : gmap string string :=
  Header (cors_headers (correlated_context env (new_context req) w)).

(** The key a request presents. *)
Definition api_key (req : Request) : string := default "" (ReqHeader req !! "X-API-Key").

(** What holds of every request served on its own: [cR] and [wR] are the
    context and the process state that the logging stage sees when the rest
    of the chain has returned, [cF] is the final context. *)
Definition outline (env : Env) (req : Request) (w : World)
    (cR : Context) (wR : World) (cF : Context) : Prop :=
  Req cR = req
  /\ GetString "request_id" cR = uuids env (drawn w)
  /\ status cF = status cR /\ status cR ∈ all_statuses
  /\ written cF = true
  /\ (forall k, k <> "Content-Type" -> k <> "X-RateLimit-Limit" ->
        Header cF !! k = base_headers env req w !! k)
  /\ (Method req <> "OPTIONS" ->
        Header cF !! "X-RateLimit-Limit" = Some "100"
        /\ is_Some (visitors wR !! ClientIP req))
  /\ drawn wR = S (drawn w) /\ logs wR = logs w
  /\ (S (ticks w) <= ticks wR <= ticks w + 4)%nat
  /\ (forall ip, ip <> ClientIP req -> visitors wR !! ip = visitors w !! ip)
  /\ (forall ip, is_Some (visitors w !! ip) -> is_Some (visitors wR !! ip))
  /\ (Method req ∉ write_methods \/ apiKeys !! api_key req = None -> store_kept w wR)
  /\ (nextId wR = nextId w \/ nextId wR = wrap_int (nextId w + 1)).

(** The context in which the handlers of a route with parameters [ps] run
    (up to the index, and before the authentication stage stores the role). *)
Definition handler_context (env : Env) (req : Request) (ps : gmap string string)
    (w : World) : Context :=
  checked_context env (set_params ps (new_context req)) w.

(** A path segment that a [:name] pattern takes: not empty, no slash. *)
Fixpoint no_slash (s : string) : bool :=
  match s with
  | EmptyString => true
  | String ch rest => negb (Ascii.eqb ch "/"%char) && no_slash rest
  end.

Definition segment (s : string) : bool := negb (String.eqb s "") && no_slash s.

(** A state in which the bucket of the client of the examples is empty and
    was last checked at time 1000. *)
Definition exhausted_world : World :=
  mkWorld (initial_articles 1000 1001 1002 1003) 3
          {["10.0.0.1" := mkLimiter (time_Minute / 100) 100 0 (Some 1000)]} [] 4 0.

(** ** The invariant of interleaved handlers *)

Module Exclusion.
Import Interleaved.

Definition ids (s : Shared) : list Z := ID <$> sh_articles s.

(** What a create knows about the identifier it has read: before the
    increment it is the counter; from the increment to the append it is the
    counter less one, and above every stored identifier. *)
Definition holds_id (s : Shared) (t : Thread) : Prop :=
  match t with
  | CreateBump input _ _ => ID input = sh_nextId s
  | CreateStampC input _ _ | CreateStampU input _ | CreateAppend input =>
      ID input + 1 = sh_nextId s /\ Forall (fun i => i < ID input) (ids s)
  | _ => True
  end.

(** At most one handler is inside the section that the mutex guards, and the
    mutex is held exactly when one is. *)
Definition exclusive (threads : list Thread) (s : Shared) : Prop :=
  (forall i j ti tj, threads !! i = Some ti -> threads !! j = Some tj ->
     in_critical ti = true -> in_critical tj = true -> i = j)
  /\ (sh_locked s = true <-> exists i t, threads !! i = Some t /\ in_critical t = true).

(** The invariant of a configuration; [bound] is a bound on the counter. *)
Definition inv (bound : Z) (cfg : Config) : Prop :=
  exclusive (fst cfg) (snd cfg)
  /\ Forall (holds_id (snd cfg)) (fst cfg)
  /\ NoDup (ids (snd cfg)) /\ Forall (fun i => i < sh_nextId (snd cfg)) (ids (snd cfg))
  /\ min_int <= sh_nextId (snd cfg) <= bound.

Definition finished (t : Thread) : bool :=
  match t with Finished _ => true | _ => false end.

(** The identifier that a create has taken from the counter: from the read
    of [nextId] on it is in [input.ID], and it is in the article that the
    create answers with. *)
Definition taken (t : Thread) : option Z :=
  match t with
  | CreateBump input _ _ | CreateStampC input _ _ | CreateStampU input _
  | CreateAppend input | CreateReply input => Some (ID input)
  | Finished (Answered code (OneArticle a)) => if code =? 201 then Some (ID a) else None
  | _ => None
  end.

(** The create that has read the counter and not yet incremented it. *)
Definition holds_counter (t : Thread) : bool :=
  match t with CreateBump _ _ _ => true | _ => false end.

(** What the mutex gives: the creates exclude each other, and the
    identifiers taken so far are pairwise distinct, at least [low] and below
    the counter, except that the create between the read and the increment
    holds the counter itself. *)
Definition owned (low bound : Z) (cfg : Config) : Prop :=
  exclusive (fst cfg) (snd cfg)
  /\ (forall i t a, fst cfg !! i = Some t -> taken t = Some a ->
        low <= a
        /\ if holds_counter t then a = sh_nextId (snd cfg) else a < sh_nextId (snd cfg))
  /\ (forall i j ti tj a, fst cfg !! i = Some ti -> fst cfg !! j = Some tj ->
        taken ti = Some a -> taken tj = Some a -> i = j)
  /\ low <= sh_nextId (snd cfg) <= bound /\ min_int <= low.

End Exclusion.

(** * Properties *)

(** ** The primitives of the response writer *)

Lemma status_JSON code obj c :
  written c = false -> 0 < code -> status (JSON code obj c) = code.
Proof.
  intros Hw Hc. unfold JSON, writeContentType, Status.
  assert (Hst : forall x, status (Write (WJSON obj) x) = status x) by reflexivity.
  rewrite Hst. clear Hst.
  set (c1 := mkContext _ _ _ _ _ _ _ _).
  assert (status c1 = code) as Hc1.
  { subst c1. simpl. rewrite Hw. simpl. rewrite andb_true_r.
    destruct (0 <? code) eqn:Hp; [|lia]. simpl.
    destruct (status c =? code) eqn:He; simpl; [lia | reflexivity]. }
  destruct (Header c1 !! "Content-Type"); simpl; exact Hc1.
Qed.

Lemma body_JSON code obj c : body (JSON code obj c) = body c ++ [WJSON obj].
Proof.
  unfold JSON, writeContentType.
  destruct (Header (Status code c) !! "Content-Type"); reflexivity.
Qed.

Lemma written_JSON code obj c : written (JSON code obj c) = true.
Proof. reflexivity. Qed.

Lemma Keys_JSON code obj c : Keys (JSON code obj c) = Keys c.
Proof.
  unfold JSON, writeContentType.
  destruct (Header (Status code c) !! "Content-Type"); reflexivity.
Qed.

Lemma index_JSON code obj c : index (JSON code obj c) = index c.
Proof.
  unfold JSON, writeContentType.
  destruct (Header (Status code c) !! "Content-Type"); reflexivity.
Qed.

Lemma Header_JSON code obj c key :
  key <> "Content-Type" -> Header (JSON code obj c) !! key = Header c !! key.
Proof.
  intros Hk. unfold JSON, writeContentType.
  destruct (Header (Status code c) !! "Content-Type"); simpl; [reflexivity|].
  by rewrite lookup_insert_ne.
Qed.

Lemma envelopes_JSON code obj c : envelopes (JSON code obj c) = envelopes c ++ [obj].
Proof. unfold envelopes. rewrite body_JSON, omap_app. reflexivity. Qed.

(** ** The scan of the store *)

Lemma find_from_shape i l id :
  (exists a j, find_from i l id = (Some a, j)) \/ find_from i l id = (None, -1).
Proof.
  revert i. induction l as [|b l IH]; intros i; simpl.
  - by right.
  - destruct (ID b =? id); [left; eauto | apply IH].
Qed.

Lemma find_from_None i l id :
  find_from i l id = (None, -1) <-> Forall (fun a => ID a <> id) l.
Proof.
  revert i. induction l as [|b l IH]; intros i; simpl.
  - split; [constructor | reflexivity].
  - destruct (ID b =? id) eqn:E.
    + apply Z.eqb_eq in E. split; [discriminate|].
      intros H. inversion H; subst. congruence.
    + apply Z.eqb_neq in E. rewrite IH. split.
      * by constructor.
      * intros H. by inversion H.
Qed.

Lemma find_from_Some i l id a j :
  find_from i l id = (Some a, j) ->
  i <= j /\ l !! Z.to_nat (j - i) = Some a /\ ID a = id
  /\ forall k b, (k < Z.to_nat (j - i))%nat -> l !! k = Some b -> ID b <> id.
Proof.
  revert i. induction l as [|b l IH]; intros i; simpl; [discriminate|].
  destruct (ID b =? id) eqn:E.
  - intros [= -> ->]. apply Z.eqb_eq in E.
    rewrite Z.sub_diag. simpl. repeat split; [lia | done | lia].
  - intros H. apply IH in H as (Hle & Hl & Hid & Hfirst).
    apply Z.eqb_neq in E.
    replace (Z.to_nat (j - i)) with (S (Z.to_nat (j - (i + 1)))) by lia.
    repeat split; [lia | done | done |].
    intros [|k] b' Hk; simpl.
    + by intros [= <-].
    + apply Hfirst. lia.
Qed.

Lemma findArticleByID_None arts id :
  findArticleByID arts id = (None, -1) <-> Forall (fun a => ID a <> id) arts.
Proof. apply find_from_None. Qed.

Lemma findArticleByID_Some arts id a j :
  findArticleByID arts id = (Some a, j) ->
  0 <= j < Z.of_nat (length arts) /\ arts !! Z.to_nat j = Some a /\ ID a = id.
Proof.
  intros H. apply find_from_Some in H as (Hle & Hl & Hid & _).
  rewrite Z.sub_0_r in Hl. repeat split; try done.
  apply lookup_lt_Some in Hl. lia.
Qed.

Lemma findArticleByID_index arts id :
  snd (findArticleByID arts id) = -1 <-> fst (findArticleByID arts id) = None.
Proof.
  destruct (find_from_shape 0 arts id) as [(a & j & H)|H];
    unfold findArticleByID; rewrite H; simpl.
  - apply find_from_Some in H. split; [lia | discriminate].
  - done.
Qed.

Lemma index_assign_Some i f arts :
  0 <= i < Z.of_nat (length arts) ->
  index_assign i f arts = Some (alter f (Z.to_nat i) arts).
Proof.
  intros H. unfold index_assign.
  destruct (0 <=? i) eqn:E1; [|lia].
  destruct (i <? Z.of_nat (length arts)) eqn:E2; [done | lia].
Qed.

(** The four field assignments of an update amount to one replacement. *)
Lemma alter_fields (arts : list Article) n a (title content author : string) t :
  arts !! n = Some a ->
  alter (set_UpdatedAt t) n
    (alter (set_Author author) n
       (alter (set_Content content) n (alter (set_Title title) n arts)))
  = <[n := mkArticle (ID a) title content author (CreatedAt a) t]> arts.
Proof.
  intros Ha. rewrite !list_alter_alter_eq.
  apply list_eq. intros k. rewrite list_lookup_alter.
  destruct (decide (n = k)) as [->|Hne].
  - rewrite Ha. rewrite list_lookup_insert_eq; [done|].
    by eapply lookup_lt_Some.
  - by rewrite list_lookup_insert_ne.
Qed.

(** ** The loop of [c.Next()] *)

Lemma Next_loop_skip hs pos c w :
  pos + Z.of_nat (length hs) <= index c -> Next_loop hs pos c w = Done c w.
Proof.
  revert pos. induction hs as [|h hs IH]; intros pos H; simpl in *; [done|].
  destruct (index c =? pos) eqn:E; [lia|]. apply IH. lia.
Qed.

Lemma Next_loop_here h rest pos c w :
  index c = pos ->
  Next_loop (h :: rest) pos c w
  = match h (fun c' w' => Next_loop rest (pos + 1) (incr_index c') w') c w with
    | Done c' w' => Next_loop rest (pos + 1) (incr_index c') w'
    | Panicked c' w' => Panicked c' w'
    end.
Proof. intros H. simpl. rewrite H, Z.eqb_refl. reflexivity. Qed.

Lemma Next_loop_past h rest pos c w :
  index c <> pos -> Next_loop (h :: rest) pos c w = Next_loop rest (pos + 1) c w.
Proof. intros H. simpl. apply Z.eqb_neq in H. by rewrite H. Qed.

(** A property kept by every handler of a chain is kept by the chain. *)
Lemma Next_loop_stable P hs :
  index_blind P -> Forall (respects P) hs ->
  forall pos, pos + Z.of_nat (length hs) <= abortIndex -> stable P (Next_loop hs pos).
Proof.
  intros Hblind Hall. induction Hall as [|h hs Hh Hall IH]; intros pos Hlen c w HP.
  - exact HP.
  - simpl in Hlen. simpl.
    assert (Hk : stable P (fun c' w' => Next_loop hs (pos + 1) (incr_index c') w')).
    { intros c' w' HP'. apply IH; [lia|]. apply Hblind; [simpl; lia | exact HP']. }
    destruct (index c =? pos) eqn:E.
    + apply Z.eqb_eq in E.
      assert (Hna : IsAborted c = false).
      { unfold IsAborted. apply Z.leb_gt. lia. }
      specialize (Hh _ Hk c w Hna HP).
      destruct (h _ c w) as [c' w'|c' w']; simpl in Hh; [|exact Hh].
      by apply Hk.
    + apply IH; [lia | exact HP].
Qed.

Lemma Next_stable P hs c w :
  index_blind P -> Forall (respects P) hs ->
  Z.of_nat (length hs) <= abortIndex ->
  index c = -1 -> P c w -> holds P (Next hs c w).
Proof.
  intros Hblind Hall Hlen Hidx HP. unfold Next.
  apply Next_loop_stable; try done.
  apply Hblind; [simpl; lia | done].
Qed.

(** ** What the store handlers compute *)

Lemma validateArticle_None a :
  validateArticle a = None <-> Title a <> "" /\ Content a <> "" /\ Author a <> "".
Proof.
  unfold validateArticle.
  destruct (String.eqb_spec (Title a) ""), (String.eqb_spec (Content a) ""),
    (String.eqb_spec (Author a) ""); simpl; split; try discriminate; try tauto.
Qed.

Lemma validateArticle_Some a :
  validateArticle a = Some ErrMissingFile <->
  Title a = "" \/ Content a = "" \/ Author a = "".
Proof.
  unfold validateArticle.
  destruct (String.eqb_spec (Title a) ""), (String.eqb_spec (Content a) ""),
    (String.eqb_spec (Author a) ""); simpl; split; try discriminate; tauto.
Qed.

Lemma createArticle_ok env (next : Context -> World -> Outcome) c w :
  BodyErr (Req c) = None -> validateArticle (Body (Req c)) = None ->
  let input := Body (Req c) in
  let stored :=
    mkArticle (nextId w) (Title input) (Content input) (Author input)
              (clock env (ticks w)) (clock env (S (ticks w))) in
  createArticle env next c w
  = Done (JSON 201 (mkResponse true (OneArticle stored) "" "" "") c)
         (mkWorld (articles w ++ [stored]) (wrap_int (nextId w + 1))
                  (visitors w) (logs w) (S (S (ticks w))) (drawn w)).
Proof. intros Hb Hv. unfold createArticle. rewrite Hb, Hv. reflexivity. Qed.

Lemma createArticle_invalid env (next : Context -> World -> Outcome) c w err :
  BodyErr (Req c) = None -> validateArticle (Body (Req c)) = Some err ->
  createArticle env next c w = Done (JSON 400 (mkResponse false NoData "" err "") c) w.
Proof. intros Hb Hv. unfold createArticle. by rewrite Hb, Hv. Qed.

(** A body that does not decode is refused the same way, with the decoder's
    message, and nothing changes. *)
Lemma createArticle_bind_error env (next : Context -> World -> Outcome) c w err :
  BodyErr (Req c) = Some err ->
  createArticle env next c w = Done (JSON 400 (mkResponse false NoData "" err "") c) w.
Proof. intros H. unfold createArticle. by rewrite H. Qed.

Lemma updateArticle_missing env (next : Context -> World -> Outcome) c w :
  findArticleByID (articles w) (fst (Atoi (Param "id" c))) = (None, -1) ->
  updateArticle env next c w
  = Done (JSON 404 (mkResponse false NoData "" "article not found" "") c) w.
Proof.
  intros H. unfold updateArticle.
  destruct (Atoi (Param "id" c)) as [id e]. simpl in H. by rewrite H.
Qed.

Lemma updateArticle_found env (next : Context -> World -> Outcome) c w a j :
  findArticleByID (articles w) (fst (Atoi (Param "id" c))) = (Some a, j) ->
  let input := Body (Req c) in
  let a' := mkArticle (ID a) (Title input) (Content input) (Author input)
                      (CreatedAt a) (clock env (ticks w)) in
  updateArticle env next c w
  = Done (JSON 200 (mkResponse true (OneArticle a') "" "" "") c)
         (mkWorld (<[Z.to_nat j := a']> (articles w)) (nextId w)
                  (visitors w) (logs w) (S (ticks w)) (drawn w)).
Proof.
  intros H input a'. unfold updateArticle.
  destruct (Atoi (Param "id" c)) as [id e]. simpl in H. rewrite H.
  apply findArticleByID_Some in H as (Hj & Hl & Hida).
  fold input.
  rewrite index_assign_Some by done.
  rewrite index_assign_Some by (rewrite length_alter; done).
  rewrite index_assign_Some by (rewrite !length_alter; done).
  simpl.
  rewrite index_assign_Some by (rewrite !length_alter; done).
  rewrite (alter_fields _ _ a) by done.
  unfold index_read. destruct (0 <=? j) eqn:E; [|lia].
  rewrite list_lookup_insert_eq by (by eapply lookup_lt_Some).
  reflexivity.
Qed.

Lemma deleteArticle_missing (next : Context -> World -> Outcome) c w :
  findArticleByID (articles w) (fst (Atoi (Param "id" c))) = (None, -1) ->
  deleteArticle next c w
  = Done (JSON 404 (mkResponse false NoData "" "article not found" "") c) w.
Proof.
  intros H. unfold deleteArticle.
  destruct (Atoi (Param "id" c)) as [id e]. simpl in H. by rewrite H.
Qed.

Lemma deleteArticle_found (next : Context -> World -> Outcome) c w a j :
  findArticleByID (articles w) (fst (Atoi (Param "id" c))) = (Some a, j) ->
  deleteArticle next c w
  = Done (JSON 200 (mkResponse true NoData "article deleted" "" "") c)
         (set_articles (delete (Z.to_nat j) (articles w)) w).
Proof.
  intros H. unfold deleteArticle.
  destruct (Atoi (Param "id" c)) as [id e]. simpl in H. rewrite H.
  apply findArticleByID_Some in H as (Hj & Hl & Hida).
  destruct (j =? -1) eqn:E; [lia|].
  unfold remove_at.
  destruct (0 <=? j) eqn:E1; [|lia].
  destruct (j + 1 <=? Z.of_nat (length (articles w))) eqn:E2; [|lia].
  simpl. rewrite delete_take_drop.
  replace (Z.to_nat (j + 1)) with (S (Z.to_nat j)) by lia.
  reflexivity.
Qed.

(** ** The invariant of the store *)

Lemma wrap_int_small z : min_int <= z <= max_int -> wrap_int z = z.
Proof.
  unfold wrap_int, min_int, max_int. intros H.
  rewrite Z.mod_small; lia.
Qed.

Section Invariant.

Variable env : Env.
Hypothesis clock_increasing : increasing env.

Lemma clock_lt n m : (n < m)%nat -> clock env n < clock env m.
Proof.
  induction 1 as [|m Hle IH].
  - apply clock_increasing.
  - pose proof (clock_increasing m). lia.
Qed.

(** Changes that leave the store alone and let time pass keep the invariant. *)
Lemma world_inv_later w w' :
  articles w' = articles w -> nextId w' = nextId w -> (ticks w <= ticks w')%nat ->
  world_inv env w -> world_inv env w'.
Proof.
  intros Ha Hn Ht [Hs Hi]. split.
  - unfold stamps_before in *. rewrite Ha.
    eapply Forall_impl; [exact Hs|]. intros a Hlt. simpl in Hlt.
    destruct (decide (ticks w = ticks w')) as [<-|Hne]; [done|].
    pose proof (clock_lt (ticks w) (ticks w')). lia.
  - intros Hb. unfold ids_below in *. rewrite Ha, Hn.
    destruct Hi as (? & ? & ?); [lia|]. repeat split; try done; lia.
Qed.

Lemma world_inv_create w stored :
  world_inv env w ->
  ID stored = nextId w -> UpdatedAt stored = clock env (S (ticks w)) ->
  world_inv env (mkWorld (articles w ++ [stored]) (wrap_int (nextId w + 1))
                         (visitors w) (logs w) (S (S (ticks w))) (drawn w)).
Proof.
  intros [Hs Hi] Hid Hup. split.
  - unfold stamps_before in *. simpl. apply Forall_app. split.
    + eapply Forall_impl; [exact Hs|]. intros a Hlt. simpl in Hlt.
      pose proof (clock_lt (ticks w) (S (S (ticks w)))). lia.
    + constructor; [|constructor]. rewrite Hup. apply clock_increasing.
  - simpl. intros Hb. destruct Hi as ((Hn1 & Hn2) & Hall & Hnd); [lia|].
    unfold ids_below. simpl.
    rewrite wrap_int_small by (unfold min_int, max_int in *; lia).
    split; [lia|]. split.
    + apply Forall_app. split.
      * eapply Forall_impl; [exact Hall|]. simpl. lia.
      * constructor; [lia | constructor].
    + rewrite fmap_app. apply NoDup_app. split; [done|]. split.
      * intros x Hx Hx'. apply list_elem_of_fmap in Hx as (a & -> & Ha).
        rewrite Forall_forall in Hall. apply Hall in Ha.
        simpl in Hx'. apply list_elem_of_singleton in Hx'. lia.
      * simpl. apply NoDup_singleton.
Qed.

Lemma world_inv_update w (i : nat) a a' :
  world_inv env w ->
  articles w !! i = Some a -> ID a' = ID a -> UpdatedAt a' = clock env (ticks w) ->
  world_inv env (mkWorld (<[i := a']> (articles w)) (nextId w)
                         (visitors w) (logs w) (S (ticks w)) (drawn w)).
Proof.
  intros [Hs Hi] Hl Hid Hup. split.
  - unfold stamps_before in *. simpl. apply Forall_insert.
    + eapply Forall_impl; [exact Hs|]. intros b Hlt. simpl in Hlt.
      pose proof (clock_increasing (ticks w)). lia.
    + rewrite Hup. apply clock_increasing.
  - simpl. intros Hb. destruct Hi as ((Hn1 & Hn2) & Hall & Hnd); [lia|].
    unfold ids_below. simpl. split; [lia|]. split.
    + apply Forall_insert; [done|]. rewrite Hid.
      rewrite Forall_forall in Hall. apply Hall.
      eapply list_elem_of_lookup_2. exact Hl.
    + rewrite list_fmap_insert, Hid, list_insert_id; [done|].
      by rewrite list_lookup_fmap, Hl.
Qed.

Lemma world_inv_delete w (i : nat) :
  world_inv env w -> world_inv env (set_articles (delete i (articles w)) w).
Proof.
  intros [Hs Hi]. split.
  - unfold stamps_before in *. simpl. by apply Forall_delete.
  - simpl. intros Hb. destruct Hi as ((Hn1 & Hn2) & Hall & Hnd); [lia|].
    unfold ids_below. simpl. split; [lia|]. split.
    + by apply Forall_delete.
    + rewrite list_fmap_delete. eapply sublist_NoDup; [exact Hnd|].
      apply sublist_delete.
Qed.

Lemma world_inv_initial : world_inv env (initial_world env).
Proof.
  split.
  - unfold stamps_before, initial_world, initial_articles. simpl.
    repeat constructor; simpl; apply clock_lt; lia.
  - intros _. unfold ids_below, initial_world, initial_articles. simpl.
    split; [lia|]. split.
    + repeat constructor; simpl; lia.
    + apply NoDup_cons. split; [|apply NoDup_singleton].
      intros H. apply list_elem_of_singleton in H. discriminate.
Qed.

Lemma inv_state_blind : index_blind (inv_state env).
Proof. intros c w i _ H. exact H. Qed.

Ltac later := eapply world_inv_later; [| | |eassumption]; simpl; try done; try lia.

Lemma respects_inv_ErrorHandler : respects (inv_state env) ErrorHandlerMiddleware.
Proof.
  intros next Hnext c w _ HP. unfold ErrorHandlerMiddleware, CustomRecovery.
  specialize (Hnext c w HP). destruct (next c w); exact Hnext.
Qed.

Lemma respects_inv_RequestID : respects (inv_state env) (RequestIDMiddleware env).
Proof.
  intros next Hnext c w _ HP. unfold RequestIDMiddleware. simpl.
  apply Hnext. unfold inv_state in *. later.
Qed.

Lemma respects_inv_Logging : respects (inv_state env) (LoggingMiddleware env).
Proof.
  intros next Hnext c w _ HP. unfold LoggingMiddleware. simpl.
  match goal with |- context [next ?c' ?w'] =>
    assert (H : inv_state env c' w') by (unfold inv_state in *; later);
    specialize (Hnext c' w' H); destruct (next c' w') as [c2 w2|c2 w2]
  end; simpl in *; [|exact Hnext].
  unfold inv_state in *.
  eapply world_inv_later; [| | |exact Hnext]; simpl; try done; lia.
Qed.

Lemma respects_inv_CORS : respects (inv_state env) CORSMiddleware.
Proof.
  intros next Hnext c w _ HP. unfold CORSMiddleware.
  destruct (String.eqb _ "OPTIONS"); [exact HP | by apply Hnext].
Qed.

Lemma respects_inv_RateLimit : respects (inv_state env) (RateLimitMiddleware env).
Proof.
  intros next Hnext c w _ HP. unfold RateLimitMiddleware, getLimiter, Allow.
  destruct (visitors w !! ClientIP (Req c)); cbn -[Allow_at];
    match goal with |- context [Allow_at ?t ?l] =>
      destruct (Allow_at t l) as [[|] l'] end; cbn;
    try (apply Hnext); unfold inv_state in *; later.
Qed.

Lemma respects_inv_ContentType : respects (inv_state env) ContentTypeMiddleware.
Proof.
  intros next Hnext c w _ HP. unfold ContentTypeMiddleware.
  destruct (_ && _); [exact HP | by apply Hnext].
Qed.

Lemma respects_inv_Auth : respects (inv_state env) AuthMiddleware.
Proof. intros next Hnext c w _ HP. unfold AuthMiddleware. by apply Hnext. Qed.

Lemma respects_inv_ping : respects (inv_state env) ping.
Proof. intros next Hnext c w _ HP. exact HP. Qed.

Lemma respects_inv_getArticles : respects (inv_state env) getArticles.
Proof. intros next Hnext c w _ HP. exact HP. Qed.

Lemma respects_inv_getArticleById : respects (inv_state env) getArticleById.
Proof.
  intros next Hnext c w _ HP. unfold getArticleById.
  destruct (Atoi _), (findArticleByID _ _) as [[a|] j]; exact HP.
Qed.

Lemma respects_inv_getStats : respects (inv_state env) getStats.
Proof.
  intros next Hnext c w _ HP. unfold getStats. destruct (negb _); exact HP.
Qed.

Lemma respects_inv_createArticle : respects (inv_state env) (createArticle env).
Proof.
  intros next Hnext c w _ HP.
  destruct (BodyErr (Req c)) as [err|] eqn:Hb.
  { by rewrite (createArticle_bind_error _ _ _ _ err). }
  destruct (validateArticle (Body (Req c))) as [err|] eqn:Hv.
  { by rewrite (createArticle_invalid _ _ _ _ err). }
  rewrite createArticle_ok by done. simpl.
  by apply world_inv_create.
Qed.

Lemma respects_inv_updateArticle : respects (inv_state env) (updateArticle env).
Proof.
  intros next Hnext c w _ HP.
  destruct (find_from_shape 0 (articles w) (fst (Atoi (Param "id" c))))
    as [(a & j & Hf)|Hf].
  - rewrite (updateArticle_found _ _ _ _ a j) by exact Hf. simpl.
    apply findArticleByID_Some in Hf as (Hj & Hl & Hida).
    by eapply world_inv_update.
  - by rewrite updateArticle_missing.
Qed.

Lemma respects_inv_deleteArticle : respects (inv_state env) deleteArticle.
Proof.
  intros next Hnext c w _ HP.
  destruct (find_from_shape 0 (articles w) (fst (Atoi (Param "id" c))))
    as [(a & j & Hf)|Hf].
  - rewrite (deleteArticle_found _ _ _ a j) by exact Hf. simpl.
    by apply world_inv_delete.
  - by rewrite deleteArticle_missing.
Qed.

End Invariant.

(** ** Every request keeps the invariant *)

Lemma find_route_In method path rs hs ps :
  find_route method path rs = Some (hs, ps) ->
  exists r, r ∈ rs /\ hs = route_handlers r.
Proof.
  induction rs as [|r rs IH]; simpl; [discriminate|].
  destruct (String.eqb (route_method r) method).
  - destruct (match_segments _ _) as [ps'|].
    + intros [= <- <-]. exists r. split; [left | done].
    + intros H. apply IH in H as (r' & Hin & ->). exists r'. split; [by right | done].
  - intros H. apply IH in H as (r' & Hin & ->). exists r'. split; [by right | done].
Qed.

Lemma length_route_handlers env r :
  r ∈ routes env -> (length (route_handlers r) <= 2)%nat.
Proof.
  unfold routes, public_routes, protected_routes. simpl. intros H.
  repeat (apply elem_of_cons in H as [->|H]; [simpl; lia|]).
  by apply elem_of_nil in H.
Qed.

(** The two ways of a request through the engine. *)
Lemma ServeHTTP_not_redirected env req w :
  redirected env req = false ->
  ServeHTTP env req w
  = match find_route (Method req) (Path req) (routes env) with
    | Some (hs, params) =>
        Next (global_middleware env ++ hs) (set_params params (new_context req)) w
    | None => serveError 404 default404Body (global_middleware env) (new_context req) w
    end.
Proof.
  unfold redirected, ServeHTTP.
  destruct (find_route _ _ _) as [[hs ps]|]; [done|]. by intros ->.
Qed.

Lemma ServeHTTP_redirected env req w :
  redirected env req = true ->
  ServeHTTP env req w = Done (redirectTrailingSlash env (new_context req)) w.
Proof.
  unfold redirected, ServeHTTP.
  destruct (find_route _ _ _) as [[hs ps]|]; [done|]. by intros ->.
Qed.

Lemma redirected_routed env req :
  is_Some (find_route (Method req) (Path req) (routes env)) -> redirected env req = false.
Proof. unfold redirected. by intros [[hs ps] ->]. Qed.

(** What is kept by the global stages, by the handlers of the route found and
    by the last writes of an unmatched request, and holds of a redirection,
    is kept by the engine. *)
Lemma ServeHTTP_holds (P : Context -> World -> Prop) env req w :
  index_blind P ->
  Forall (respects P) (global_middleware env) ->
  (forall hs ps, find_route (Method req) (Path req) (routes env) = Some (hs, ps) ->
                 Forall (respects P) hs /\ P (set_params ps (new_context req)) w) ->
  (find_route (Method req) (Path req) (routes env) = None ->
   P (mkContext req ∅ ∅ ∅ 404 false [] (-1)) w
   /\ (forall c w, P c w -> written c = false -> status c = 404 ->
         P (Write (WText default404Body) (Header_Set "Content-Type" "text/plain" c)) w)
   /\ (forall c w, P c w -> P (WriteHeaderNow c) w)
   /\ P (redirectTrailingSlash env (new_context req)) w) ->
  holds P (ServeHTTP env req w).
Proof.
  intros Hblind Hglobal Hroute Hnone. unfold ServeHTTP.
  destruct (find_route _ _ _) as [[hs ps]|] eqn:Hf.
  - destruct (Hroute hs ps eq_refl) as [Hhs HP].
    apply find_route_In in Hf as (r & Hr & ->).
    apply length_route_handlers in Hr.
    apply Next_stable; try done.
    + by apply Forall_app.
    + rewrite length_app. unfold abortIndex. simpl. lia.
  - destruct (Hnone eq_refl) as (HP & Htext & Hnow & Hred).
    destruct (negb _ && negb _ && tsr _ _ _); [exact Hred|].
    unfold serveError.
    assert (Hn : holds P (Next (global_middleware env)
                            (mkContext req ∅ ∅ ∅ 404 false [] (-1)) w)).
    { apply Next_stable; done. }
    simpl.
    destruct (Next _ _ _) as [c' w'|c' w']; simpl in *; [|done].
    destruct (written c') eqn:Hw; [done|].
    destruct (status c' =? 404) eqn:Hs; simpl.
    + apply Htext; try done. by apply Z.eqb_eq.
    + by apply Hnow.
Qed.

Lemma ServeHTTP_world_inv env req w :
  increasing env -> world_inv env w ->
  world_inv env (outcome_world (ServeHTTP env req w)).
Proof.
  intros Hinc Hw.
  assert (H : holds (inv_state env) (ServeHTTP env req w)).
  { apply ServeHTTP_holds.
    - apply inv_state_blind.
    - unfold global_middleware.
      repeat apply List.Forall_cons; try apply List.Forall_nil;
        auto using respects_inv_ErrorHandler,
        respects_inv_RequestID, respects_inv_Logging, respects_inv_CORS,
        respects_inv_RateLimit, respects_inv_ContentType.
    - intros hs ps Hf. split; [|exact Hw].
      apply find_route_In in Hf as (r & Hr & ->).
      unfold routes, public_routes, protected_routes in Hr. simpl in Hr.
      repeat (apply elem_of_cons in Hr as [->|Hr];
        [simpl; repeat apply List.Forall_cons; try apply List.Forall_nil;
         auto using respects_inv_Auth,
           respects_inv_ping, respects_inv_getArticles, respects_inv_getArticleById,
           respects_inv_createArticle, respects_inv_updateArticle,
           respects_inv_deleteArticle, respects_inv_getStats|]).
      by apply elem_of_nil in Hr.
    - intros _. unfold inv_state. auto. }
  destruct (ServeHTTP env req w); exact H.
Qed.

Lemma serve_all_world_inv env reqs w :
  increasing env -> world_inv env w -> world_inv env (serve_all env reqs w).
Proof.
  intros Hinc. revert w. induction reqs as [|req reqs IH]; intros w Hw; simpl.
  - exact Hw.
  - apply IH. by apply ServeHTTP_world_inv.
Qed.

(** In every state the service reaches, the stored stamps are earlier than
    the next clock reading and, as long as the clock was read at most
    [max_int] times, the identifiers are positive, distinct and below
    [nextId]. *)
Lemma reachable_world_inv env w :
  increasing env -> reachable env w -> world_inv env w.
Proof.
  intros Hinc [reqs ->]. apply serve_all_world_inv; [done|].
  by apply world_inv_initial.
Qed.

(** ** create and update *)

(** C4. [createArticle] on a decoded record: if one of title, content, author
    is empty, the handler answers 400 and the whole process state is the one it
    started from (same articles, same [nextId]); otherwise the record gets the
    identifier [nextId], [created_at] and [updated_at] are the two clock
    readings taken by the call, the record is appended to [articles], [nextId]
    is incremented, and the answer is 201 with the stored record as data. *)
Theorem createArticle_spec env (next : Context -> World -> Outcome) c w :
  BodyErr (Req c) = None ->
  let input := Body (Req c) in
  (Title input = "" \/ Content input = "" \/ Author input = "" ->
   createArticle env next c w
   = Done (JSON 400 (mkResponse false NoData "" ErrMissingFile "") c) w)
  /\
  (Title input <> "" /\ Content input <> "" /\ Author input <> "" ->
   let stored :=
     mkArticle (nextId w) (Title input) (Content input) (Author input)
               (clock env (ticks w)) (clock env (S (ticks w))) in
   exists w',
     createArticle env next c w
     = Done (JSON 201 (mkResponse true (OneArticle stored) "" "" "") c) w'
     /\ articles w' = articles w ++ [stored]
     /\ nextId w' = wrap_int (nextId w + 1)
     /\ visitors w' = visitors w /\ logs w' = logs w).
Proof.
  intros Hbody input. split.
  - intros H. apply validateArticle_Some in H. by apply createArticle_invalid.
  - intros H. apply validateArticle_None in H. intros stored.
    eexists. split; [by apply createArticle_ok|]. done.
Qed.

Lemma createArticle_spec_witness :
  let c := new_context (with_key "admin-key" "POST" "/articles"
                                 (mkArticle 0 "A" "B" "C" 0 0)) in
  let w := initial_world example_env in
  exists w',
    createArticle example_env (fun c w => Done c w) c w
    = Done (JSON 201 (mkResponse true (OneArticle (mkArticle 3 "A" "B" "C" 1004 1005))
                                 "" "" "") c) w'
    /\ articles w' = articles w ++ [mkArticle 3 "A" "B" "C" 1004 1005]
    /\ nextId w' = wrap_int (nextId w + 1)
    /\ visitors w' = visitors w /\ logs w' = logs w.
Proof.
  intros c w.
  refine (proj2 (createArticle_spec example_env (fun c w => Done c w) c w _) _).
  - reflexivity.
  - simpl. repeat split; discriminate.
Defined.

(** ** The correlation id *)

Lemma status_JSON_written code obj c :
  written c = true -> status (JSON code obj c) = status c.
Proof.
  intros Hw. unfold JSON, writeContentType, Status.
  rewrite Hw, andb_false_r. simpl.
  match goal with |- context [match ?x with _ => _ end] => destruct x end;
    reflexivity.
Qed.

Lemma status_AbortWithStatusJSON code obj c :
  written c = false -> 0 < code -> status (AbortWithStatusJSON code obj c) = code.
Proof. intros. unfold AbortWithStatusJSON. by apply status_JSON. Qed.

Lemma IsAborted_JSON code obj c : IsAborted (JSON code obj c) = IsAborted c.
Proof. unfold IsAborted. by rewrite index_JSON. Qed.

Section Correlation.

Variable id : string.

Lemma correlated_world c w w' : correlated id c w -> correlated id c w'.
Proof. intros H. exact H. Qed.

Lemma correlated_blind : index_blind (correlated id).
Proof. intros c w i Hi (H1 & H2 & H3 & H4). repeat split; try done. simpl. lia. Qed.

Lemma correlated_GetString c w : correlated id c w -> GetString "request_id" c = id.
Proof. intros (_ & _ & H & _). unfold GetString. by rewrite H. Qed.

Lemma correlated_JSON code r c w :
  correlated id c w -> RequestID r = "" \/ RequestID r = id ->
  correlated id (JSON code r c) w.
Proof.
  intros (H1 & H2 & H3 & H4) Hr. unfold correlated.
  rewrite index_JSON, Header_JSON, Keys_JSON, envelopes_JSON by done.
  repeat split; try done. apply Forall_app. split; [done|]. by constructor.
Qed.

Lemma correlated_Abort c w : correlated id c w -> correlated id (Abort c) w.
Proof. intros (H1 & H2 & H3 & H4). repeat split; done. Qed.

Lemma correlated_AbortWithStatusJSON code r c w :
  correlated id c w -> RequestID r = "" \/ RequestID r = id ->
  correlated id (AbortWithStatusJSON code r c) w.
Proof. intros. apply correlated_JSON; [by apply correlated_Abort | done]. Qed.

Lemma correlated_AbortWithStatus code c w :
  correlated id c w -> correlated id (AbortWithStatus code c) w.
Proof. intros (H1 & H2 & H3 & H4). repeat split; done. Qed.

Lemma correlated_Set key v c w :
  key <> "request_id" -> correlated id c w -> correlated id (Set_ key v c) w.
Proof.
  intros Hk (H1 & H2 & H3 & H4). repeat split; try done.
  simpl. by rewrite lookup_insert_ne.
Qed.

Lemma correlated_Header_Set key v c w :
  key <> "X-Request-ID" -> correlated id c w -> correlated id (Header_Set key v c) w.
Proof.
  intros Hk (H1 & H2 & H3 & H4). repeat split; try done.
  simpl. by rewrite lookup_insert_ne.
Qed.

(** The same steps for [errors_tagged]. *)

Lemma errors_tagged_blind : index_blind (errors_tagged id).
Proof.
  intros c w i Hi [Hc Hs]. split; [by apply correlated_blind|].
  destruct Hs as [Hs|[(Ha & Hs)|Hs]]; [by left | right; left | by right; right].
  split; [|exact Hs]. unfold IsAborted in *. simpl.
  apply Z.leb_le in Ha. apply Z.leb_le. lia.
Qed.

Lemma errors_tagged_abort_JSON code r c w :
  errors_tagged id c w -> error_status code = true -> RequestID r = id ->
  errors_tagged id (AbortWithStatusJSON code r c) w.
Proof.
  intros [Hc Hs] Hcode Hr. split; [apply correlated_AbortWithStatusJSON; auto|].
  assert (0 < code) as Hpos.
  { unfold error_status in Hcode. lia. }
  unfold AbortWithStatusJSON.
  destruct Hs as [(Hw & Hb & Hst)|[(Ha & Hw & Hst & Hne & Hall)|(Hw & Hst)]].
  - right. left. rewrite IsAborted_JSON, status_JSON, envelopes_JSON by done.
    repeat split; try done.
    + intros H. by apply app_eq_nil in H as [_ ?].
    + apply Forall_app. split; [|by repeat constructor].
      unfold envelopes. simpl. rewrite Hb. constructor.
  - right. left. rewrite IsAborted_JSON, status_JSON_written, envelopes_JSON by done.
    repeat split; try done.
    + intros H. by apply app_eq_nil in H as [_ ?].
    + apply Forall_app. split; [done | by repeat constructor].
  - right. right. rewrite status_JSON_written by done. done.
Qed.

Lemma errors_tagged_JSON code r c w :
  errors_tagged id c w -> IsAborted c = false ->
  error_status code = false -> 0 < code ->
  RequestID r = "" \/ RequestID r = id ->
  errors_tagged id (JSON code r c) w.
Proof.
  intros [Hc Hs] Hna Hcode Hpos Hr. split; [by apply correlated_JSON|].
  right. right. split; [done|].
  destruct Hs as [(Hw & Hb & Hst)|[(Ha & _)|(Hw & Hst)]].
  - by rewrite status_JSON.
  - congruence.
  - by rewrite status_JSON_written.
Qed.

Lemma errors_tagged_AbortWithStatus code c w :
  errors_tagged id c w -> IsAborted c = false ->
  error_status code = false -> 0 < code ->
  errors_tagged id (AbortWithStatus code c) w.
Proof.
  intros [Hc Hs] Hna Hcode Hpos. split; [by apply correlated_AbortWithStatus|].
  right. right. split; [done|]. simpl.
  destruct Hs as [(Hw & Hb & Hst)|[(Ha & _)|(Hw & Hst)]].
  - rewrite Hw, andb_true_r. destruct (0 <? code) eqn:E; [|lia]. simpl.
    destruct (status c =? code) eqn:E'; simpl; done.
  - congruence.
  - by rewrite Hw, andb_false_r.
Qed.

Lemma errors_tagged_Set key v c w :
  key <> "request_id" -> errors_tagged id c w -> errors_tagged id (Set_ key v c) w.
Proof. intros Hk [Hc Hs]. split; [by apply correlated_Set | exact Hs]. Qed.

Lemma errors_tagged_Header_Set key v c w :
  key <> "X-Request-ID" -> errors_tagged id c w ->
  errors_tagged id (Header_Set key v c) w.
Proof. intros Hk [Hc Hs]. split; [by apply correlated_Header_Set | exact Hs]. Qed.

Lemma errors_tagged_GetString c w :
  errors_tagged id c w -> GetString "request_id" c = id.
Proof. intros [Hc _]. by eapply correlated_GetString. Qed.

(** And for [all_tagged]. *)

Lemma all_tagged_blind : index_blind (all_tagged id).
Proof. intros c w i Hi [Hc Hs]. split; [by apply correlated_blind | exact Hs]. Qed.

Lemma all_tagged_JSON code r c w :
  all_tagged id c w -> RequestID r = id -> all_tagged id (JSON code r c) w.
Proof.
  intros [Hc Hs] Hr. split; [apply correlated_JSON; auto|].
  rewrite envelopes_JSON. apply Forall_app. split; [done | by repeat constructor].
Qed.

Lemma all_tagged_AbortWithStatusJSON code r c w :
  all_tagged id c w -> RequestID r = id ->
  all_tagged id (AbortWithStatusJSON code r c) w.
Proof.
  intros [Hc Hs] Hr. apply all_tagged_JSON; [|done].
  split; [by apply correlated_Abort | exact Hs].
Qed.

Lemma all_tagged_AbortWithStatus code c w :
  all_tagged id c w -> all_tagged id (AbortWithStatus code c) w.
Proof. intros [Hc Hs]. split; [by apply correlated_AbortWithStatus | exact Hs]. Qed.

Lemma all_tagged_Set key v c w :
  key <> "request_id" -> all_tagged id c w -> all_tagged id (Set_ key v c) w.
Proof. intros Hk [Hc Hs]. split; [by apply correlated_Set | exact Hs]. Qed.

Lemma all_tagged_Header_Set key v c w :
  key <> "X-Request-ID" -> all_tagged id c w -> all_tagged id (Header_Set key v c) w.
Proof. intros Hk [Hc Hs]. split; [by apply correlated_Header_Set | exact Hs]. Qed.

Lemma all_tagged_GetString c w :
  all_tagged id c w -> GetString "request_id" c = id.
Proof. intros [Hc _]. by eapply correlated_GetString. Qed.

End Correlation.

Section CorrelationHandlers.

Variable env : Env.
Variable id : string.

Ltac tagged HP Hna :=
  repeat first
    [ exact HP
    | exact Hna
    | apply errors_tagged_abort_JSON;
        [ | reflexivity | simpl; exact (errors_tagged_GetString _ _ _ HP) ]
    | apply errors_tagged_JSON;
        [ | | reflexivity | reflexivity
          | first [ left; reflexivity
                  | right; simpl; exact (errors_tagged_GetString _ _ _ HP) ] ]
    | apply errors_tagged_AbortWithStatus; [ | | reflexivity | reflexivity ]
    | apply errors_tagged_Set; [ done | ]
    | apply errors_tagged_Header_Set; [ done | ]
    | apply all_tagged_AbortWithStatusJSON;
        [ | simpl; exact (all_tagged_GetString _ _ _ HP) ]
    | apply all_tagged_JSON; [ | simpl; exact (all_tagged_GetString _ _ _ HP) ]
    | apply all_tagged_AbortWithStatus
    | apply all_tagged_Set; [ done | ]
    | apply all_tagged_Header_Set; [ done | ] ].

Lemma respects_errors_Logging : respects (errors_tagged id) (LoggingMiddleware env).
Proof.
  intros next Hnext c w Hna HP. unfold LoggingMiddleware. simpl.
  match goal with |- context [next ?c' ?w'] =>
    specialize (Hnext c' w' HP); destruct (next c' w') end; exact Hnext.
Qed.

Lemma respects_errors_CORS : respects (errors_tagged id) CORSMiddleware.
Proof.
  intros next Hnext c w Hna HP. unfold CORSMiddleware.
  destruct (default false _); destruct (String.eqb _ "OPTIONS"); simpl;
    try apply Hnext; tagged HP Hna.
Qed.

Lemma respects_errors_RateLimit : respects (errors_tagged id) (RateLimitMiddleware env).
Proof.
  intros next Hnext c w Hna HP. unfold RateLimitMiddleware, getLimiter, Allow.
  destruct (visitors w !! ClientIP (Req c)); cbn -[Allow_at];
    match goal with |- context [Allow_at ?t ?l] =>
      destruct (Allow_at t l) as [[|] l'] end; cbn [negb holds];
    try apply Hnext; tagged HP Hna.
Qed.

Lemma respects_errors_ContentType : respects (errors_tagged id) ContentTypeMiddleware.
Proof.
  intros next Hnext c w Hna HP. unfold ContentTypeMiddleware.
  destruct (_ && _); simpl; try apply Hnext; tagged HP Hna.
Qed.

Lemma respects_errors_Auth : respects (errors_tagged id) AuthMiddleware.
Proof.
  intros next Hnext c w Hna HP. unfold AuthMiddleware.
  destruct (negb _); apply Hnext; tagged HP Hna.
Qed.

Lemma respects_errors_ping : respects (errors_tagged id) ping.
Proof. intros next Hnext c w Hna HP. unfold ping. simpl. tagged HP Hna. Qed.

Lemma respects_errors_getArticles : respects (errors_tagged id) getArticles.
Proof. intros next Hnext c w Hna HP. unfold getArticles. simpl. tagged HP Hna. Qed.

Lemma respects_errors_getArticleById : respects (errors_tagged id) getArticleById.
Proof.
  intros next Hnext c w Hna HP. unfold getArticleById.
  destruct (Atoi _), (findArticleByID _ _) as [[a|] j]; simpl; tagged HP Hna.
Qed.

Lemma respects_errors_getStats : respects (errors_tagged id) getStats.
Proof.
  intros next Hnext c w Hna HP. unfold getStats.
  destruct (negb _); simpl; tagged HP Hna.
Qed.

Lemma respects_errors_createArticle : respects (errors_tagged id) (createArticle env).
Proof.
  intros next Hnext c w Hna HP. unfold createArticle.
  destruct (BodyErr (Req c)); [simpl; tagged HP Hna|].
  destruct (validateArticle _); simpl; tagged HP Hna.
Qed.

Lemma respects_errors_updateArticle : respects (errors_tagged id) (updateArticle env).
Proof.
  intros next Hnext c w Hna HP.
  destruct (find_from_shape 0 (articles w) (fst (Atoi (Param "id" c))))
    as [(a & j & Hf)|Hf].
  - rewrite (updateArticle_found _ _ _ _ a j) by exact Hf. simpl. tagged HP Hna.
  - rewrite updateArticle_missing by exact Hf. simpl. tagged HP Hna.
Qed.

Lemma respects_errors_deleteArticle : respects (errors_tagged id) deleteArticle.
Proof.
  intros next Hnext c w Hna HP.
  destruct (find_from_shape 0 (articles w) (fst (Atoi (Param "id" c))))
    as [(a & j & Hf)|Hf].
  - rewrite (deleteArticle_found _ _ _ a j) by exact Hf. simpl. tagged HP Hna.
  - rewrite deleteArticle_missing by exact Hf. simpl. tagged HP Hna.
Qed.

Lemma respects_all_Logging : respects (all_tagged id) (LoggingMiddleware env).
Proof.
  intros next Hnext c w Hna HP. unfold LoggingMiddleware. simpl.
  match goal with |- context [next ?c' ?w'] =>
    specialize (Hnext c' w' HP); destruct (next c' w') end; exact Hnext.
Qed.

Lemma respects_all_CORS : respects (all_tagged id) CORSMiddleware.
Proof.
  intros next Hnext c w Hna HP. unfold CORSMiddleware.
  destruct (default false _); destruct (String.eqb _ "OPTIONS"); simpl;
    try apply Hnext; tagged HP Hna.
Qed.

Lemma respects_all_RateLimit : respects (all_tagged id) (RateLimitMiddleware env).
Proof.
  intros next Hnext c w Hna HP. unfold RateLimitMiddleware, getLimiter, Allow.
  destruct (visitors w !! ClientIP (Req c)); cbn -[Allow_at];
    match goal with |- context [Allow_at ?t ?l] =>
      destruct (Allow_at t l) as [[|] l'] end; cbn [negb holds];
    try apply Hnext; tagged HP Hna.
Qed.

Lemma respects_all_ContentType : respects (all_tagged id) ContentTypeMiddleware.
Proof.
  intros next Hnext c w Hna HP. unfold ContentTypeMiddleware.
  destruct (_ && _); simpl; try apply Hnext; tagged HP Hna.
Qed.

Lemma respects_all_ping : respects (all_tagged id) ping.
Proof. intros next Hnext c w Hna HP. unfold ping. simpl. tagged HP Hna. Qed.

Lemma respects_all_getArticles : respects (all_tagged id) getArticles.
Proof. intros next Hnext c w Hna HP. unfold getArticles. simpl. tagged HP Hna. Qed.

Lemma respects_all_getArticleById : respects (all_tagged id) getArticleById.
Proof.
  intros next Hnext c w Hna HP. unfold getArticleById.
  destruct (Atoi _), (findArticleByID _ _) as [[a|] j]; simpl; tagged HP Hna.
Qed.

End CorrelationHandlers.

(** A property that the correlation stage establishes and that the later
    stages, the handlers of the route and the recovery keep, holds of what
    the chain returns. *)
Lemma Next_global_holds (P : Context -> World -> Prop) env hs c0 w :
  index_blind P ->
  (forall c w, P c w -> 2 <= index c) ->
  Forall (respects P)
    [LoggingMiddleware env; CORSMiddleware; RateLimitMiddleware env;
     ContentTypeMiddleware] ->
  Forall (respects P) hs -> (length hs <= 2)%nat ->
  index c0 = -1 ->
  P (incr_index (Header_Set "X-Request-ID" (uuids env (drawn w))
                  (Set_ "request_id" (uuids env (drawn w))
                     (incr_index (incr_index c0)))))
    (snd (uuid_New env w)) ->
  (forall c w, P c w ->
     P (AbortWithStatusJSON 500
          (mkResponse false NoData "" "interal server error"
                      (GetString "request_id" c)) c) w) ->
  holds P (Next (global_middleware env ++ hs) c0 w).
Proof.
  intros Hblind Hidx Hmid Hhs Hlen Hc0 Hinit Hrec.
  unfold Next, global_middleware. simpl app.
  remember (LoggingMiddleware env :: CORSMiddleware :: RateLimitMiddleware env
            :: ContentTypeMiddleware :: hs) as rest eqn:Hrest_eq.
  assert (Hrest : stable P (Next_loop rest (0 + 1 + 1))).
  { apply Next_loop_stable; [done| |].
    - subst rest. inversion Hmid as [|? ? ? Hm1]; subst.
      inversion Hm1 as [|? ? ? Hm2]; subst. inversion Hm2 as [|? ? ? Hm3]; subst.
      inversion Hm3; subst. by repeat apply List.Forall_cons.
    - subst rest. simpl. unfold abortIndex. lia. }
  assert (Hafter : forall c w, P c w ->
            holds P (Next_loop (RequestIDMiddleware env :: rest) (0 + 1)
                               (incr_index c) w)).
  { intros c w' HP. rewrite Next_loop_past by (apply Hidx in HP; simpl; lia).
    apply Hrest. apply Hblind; [simpl; lia | done]. }
  rewrite Next_loop_here by (simpl; lia).
  unfold ErrorHandlerMiddleware, CustomRecovery.
  rewrite Next_loop_here by (simpl; lia).
  unfold RequestIDMiddleware at 1. unfold uuid_New in *. cbv beta iota.
  simpl snd in Hinit.
  match goal with |- context [Next_loop rest (0 + 1 + 1) ?c ?w1] =>
    pose proof (Hrest c w1 Hinit) as HX; destruct (Next_loop rest (0 + 1 + 1) c w1)
      as [c' w'|c' w'] end; simpl in HX.
  - pose proof (Hrest (incr_index c') w' (Hblind c' w' (index c' + 1) ltac:(lia) HX)) as HY.
    destruct (Next_loop rest (0 + 1 + 1) (incr_index c') w') as [c'' w''|c'' w''];
      simpl in HY.
    + by apply Hafter.
    + apply Hafter. by apply Hrec.
  - apply Hafter. by apply Hrec.
Qed.

Lemma find_route_app_l method path rs1 rs2 :
  is_Some (find_route method path rs1) ->
  find_route method path (rs1 ++ rs2) = find_route method path rs1.
Proof.
  induction rs1 as [|r rs1 IH]; simpl.
  - intros [x Hx]. discriminate.
  - destruct (String.eqb (route_method r) method); [|exact IH].
    destruct (match_segments _ _); [done | exact IH].
Qed.

Lemma request_id_field_spec r :
  request_id_field r
  = if String.eqb (RequestID r) "" then None else Some (JStr (RequestID r)).
Proof.
  unfold request_id_field, marshal, omitempty_string.
  destruct (json_of_payload (Data r)), (String.eqb (Message r) ""),
    (String.eqb (Error r) ""), (String.eqb (RequestID r) ""); reflexivity.
Qed.

Lemma request_id_field_tagged r id :
  id <> "" -> RequestID r = id -> request_id_field r = Some (JStr id).
Proof.
  intros Hid Hr. rewrite request_id_field_spec, Hr.
  destruct (String.eqb_spec id ""); [done | reflexivity].
Qed.

Lemma request_id_field_inv r id j :
  RequestID r = "" \/ RequestID r = id -> request_id_field r = Some j -> j = JStr id.
Proof.
  rewrite request_id_field_spec. intros [H|H]; rewrite H.
  - discriminate.
  - destruct (String.eqb id ""); [discriminate | by intros [= <-]].
Qed.

Lemma envelopes_Write_text s c : envelopes (Write (WText s) c) = envelopes c.
Proof. unfold envelopes. simpl. rewrite omap_app. simpl. by rewrite app_nil_r. Qed.

Lemma ServeHTTP_errors_tagged env req w :
  redirected env req = false ->
  holds (errors_tagged (uuids env (drawn w))) (ServeHTTP env req w).
Proof.
  intros Hdirect. set (id := uuids env (drawn w)).
  assert (Hmid : Forall (respects (errors_tagged id))
            [LoggingMiddleware env; CORSMiddleware; RateLimitMiddleware env;
             ContentTypeMiddleware]).
  { repeat apply List.Forall_cons; try apply List.Forall_nil;
      auto using respects_errors_Logging, respects_errors_CORS,
        respects_errors_RateLimit, respects_errors_ContentType. }
  assert (Hrec : forall c w, errors_tagged id c w ->
            errors_tagged id
              (AbortWithStatusJSON 500
                 (mkResponse false NoData "" "interal server error"
                             (GetString "request_id" c)) c) w).
  { intros c w' HP. apply errors_tagged_abort_JSON; [done | reflexivity|].
    simpl. by eapply errors_tagged_GetString. }
  assert (Hidx : forall c w, errors_tagged id c w -> 2 <= index c).
  { by intros c w' [(H & _) _]. }
  assert (Hinit : forall c0 w', index c0 = -1 -> written c0 = false -> body c0 = [] ->
            error_status (status c0) = false ->
            errors_tagged id
              (incr_index (Header_Set "X-Request-ID" id
                 (Set_ "request_id" id (incr_index (incr_index c0))))) w').
  { intros c0 w' Hi Hw Hb Hs. split.
    - repeat split; simpl.
      + lia.
      + apply lookup_insert_eq.
      + apply lookup_insert_eq.
      + unfold envelopes. simpl. rewrite Hb. constructor.
    - left. simpl. done. }
  rewrite ServeHTTP_not_redirected by done.
  destruct (find_route _ _ _) as [[hs ps]|] eqn:Hf.
  - apply find_route_In in Hf as (r & Hr & ->).
    apply Next_global_holds; try done.
    + apply errors_tagged_blind.
    + unfold routes, public_routes, protected_routes in Hr. simpl in Hr.
      repeat (apply elem_of_cons in Hr as [->|Hr];
        [simpl; repeat apply List.Forall_cons; try apply List.Forall_nil;
         auto using respects_errors_Auth, respects_errors_ping,
           respects_errors_getArticles, respects_errors_getArticleById,
           respects_errors_createArticle, respects_errors_updateArticle,
           respects_errors_deleteArticle, respects_errors_getStats|]).
      by apply elem_of_nil in Hr.
    + by apply length_route_handlers in Hr.
    + by apply Hinit.
  - unfold serveError.
    match goal with |- context [Next ?hs ?c0 w] =>
      assert (Hn : holds (errors_tagged id) (Next (hs ++ []) c0 w)) end.
    { apply Next_global_holds; try done.
      - apply errors_tagged_blind.
      - simpl. lia.
      - by apply Hinit. }
    rewrite app_nil_r in Hn.
    destruct (Next _ _ _) as [c' w'|c' w']; simpl in Hn; [|exact Hn].
    destruct (written c') eqn:Hw; [exact Hn|].
    destruct Hn as [Hc Hs].
    destruct Hs as [(_ & Hb & Hst)|[(_ & Hw' & _)|(Hw' & _)]]; try congruence.
    destruct (status c' =? 404) eqn:Hs; simpl.
    + split.
      * destruct Hc as (H1 & H2 & H3 & H4). repeat split; try done.
        -- simpl. by rewrite lookup_insert_ne.
        -- by rewrite envelopes_Write_text.
      * right. right. simpl. done.
    + split; [exact Hc|]. right. right. simpl. done.
Qed.

Lemma ServeHTTP_all_tagged env req w :
  is_Some (find_route (Method req) (Path req) public_routes) ->
  holds (all_tagged (uuids env (drawn w))) (ServeHTTP env req w).
Proof.
  intros Hpub. set (id := uuids env (drawn w)).
  rewrite ServeHTTP_not_redirected
    by (apply redirected_routed; unfold routes; by rewrite find_route_app_l).
  unfold routes. rewrite find_route_app_l by done.
  destruct Hpub as [[hs ps] Hf]. rewrite Hf.
  apply find_route_In in Hf as (r & Hr & ->).
  apply Next_global_holds.
  - apply all_tagged_blind.
  - by intros c w' [(H & _) _].
  - repeat apply List.Forall_cons; try apply List.Forall_nil;
      auto using respects_all_Logging, respects_all_CORS,
        respects_all_RateLimit, respects_all_ContentType.
  - unfold public_routes in Hr.
    repeat (apply elem_of_cons in Hr as [->|Hr];
      [simpl; repeat apply List.Forall_cons; try apply List.Forall_nil;
       auto using respects_all_ping, respects_all_getArticles,
         respects_all_getArticleById|]).
    by apply elem_of_nil in Hr.
  - unfold public_routes in Hr.
    repeat (apply elem_of_cons in Hr as [->|Hr]; [simpl; lia|]).
    by apply elem_of_nil in Hr.
  - reflexivity.
  - split; [|constructor]. split; [simpl; lia|].
    split; [apply lookup_insert_eq|]. split; [apply lookup_insert_eq | constructor].
  - intros c w' HP. apply all_tagged_AbortWithStatusJSON; [done|].
    simpl. by eapply all_tagged_GetString.
Qed.

(** C1, what the code does. The three public handlers put the correlation
    id of the context into the envelope they write. The four handlers behind
    the key do not: whatever the context holds under [request_id] and
    whatever they answer, their envelope is written without [RequestID], so
    that the marshalled object has no [request_id] field, while the
    [X-Request-ID] header of the same response carries the id. *)
Theorem handlers_behind_the_key_omit_request_id
    env (next : Context -> World -> Outcome) c w :
  let id := GetString "request_id" c in
  let answer (h : Handler) := envelopes (outcome_context (h next c w)) in
  Forall (fun h => exists r, answer h = envelopes c ++ [r] /\ RequestID r = id)
         [ping; getArticles; getArticleById]
  /\ Forall (fun h => exists r, answer h = envelopes c ++ [r]
                                /\ RequestID r = "" /\ request_id_field r = None)
            [createArticle env; updateArticle env; deleteArticle; getStats].
Proof.
  intros id answer. subst answer. cbv beta.
  assert (Hwith : forall code ok data msg err w',
            exists r, envelopes (outcome_context
                        (Done (JSON code (mkResponse ok data msg err id) c) w'))
                      = envelopes c ++ [r] /\ RequestID r = id).
  { intros. eexists. simpl. by rewrite envelopes_JSON. }
  assert (Hwithout : forall code ok data msg err w',
            exists r, envelopes (outcome_context
                        (Done (JSON code (mkResponse ok data msg err "") c) w'))
                      = envelopes c ++ [r]
                      /\ RequestID r = "" /\ request_id_field r = None).
  { intros. eexists. simpl. rewrite envelopes_JSON.
    split; [reflexivity|]. split; [reflexivity|]. by rewrite request_id_field_spec. }
  split; repeat apply List.Forall_cons; try apply List.Forall_nil.
  - apply Hwith.
  - apply Hwith.
  - unfold getArticleById. destruct (Atoi _) as [n e].
    destruct (findArticleByID _ _) as [[a|] j]; apply Hwith.
  - unfold createArticle. destruct (BodyErr _) as [err|]; [apply Hwithout|].
    destruct (validateArticle _) as [err|]; apply Hwithout.
  - destruct (find_from_shape 0 (articles w) (fst (Atoi (Param "id" c))))
      as [(a & j & H)|H].
    + rewrite (updateArticle_found env next c w a j H). apply Hwithout.
    + rewrite (updateArticle_missing env next c w H). apply Hwithout.
  - destruct (find_from_shape 0 (articles w) (fst (Atoi (Param "id" c))))
      as [(a & j & H)|H].
    + rewrite (deleteArticle_found next c w a j H). apply Hwithout.
    + rewrite (deleteArticle_missing next c w H). apply Hwithout.
  - unfold getStats. destruct (negb _); apply Hwithout.
Qed.

(** The failing input, through the whole chain: the 201 answer to a create
    has the [X-Request-ID] header and an envelope without a [request_id]
    field; the answer to a read of one article, from a handler next to it,
    has the field, equal to the header. *)
Lemma created_envelope_lacks_request_id :
  let created :=
    outcome_context
      (ServeHTTP example_env
         (with_key "admin-key" "POST" "/articles" (mkArticle 0 "A" "B" "C" 0 0))
         (initial_world example_env)) in
  let read :=
    outcome_context
      (ServeHTTP example_env (get "/articles/1") (initial_world example_env)) in
  (status created = 201
   /\ Header created !! "X-Request-ID" = Some "uuid-0"
   /\ map request_id_field (envelopes created) = [None])
  /\ (status read = 200
      /\ Header read !! "X-Request-ID" = Some "uuid-0"
      /\ map request_id_field (envelopes read) = [Some (JStr "uuid-0")]).
Proof. vm_compute. repeat split. Qed.

(** X27. What holds of the correlation id on every request that is not
    answered by a redirection: the [X-Request-ID] response header is the
    identifier drawn for the request; an envelope that has a [request_id]
    field has that identifier in it; a response with status 401, 415 or 429
    has an envelope, and the field is in every envelope of such a response
    and of a response to a request for one of the public routes. *)
Theorem request_id_matches_header env req w :
  redirected env req = false ->
  let id := uuids env (drawn w) in
  let c := outcome_context (ServeHTTP env req w) in
  Header c !! "X-Request-ID" = Some id
  /\ (forall r j, r ∈ envelopes c -> request_id_field r = Some j -> j = JStr id)
  /\ (id <> "" -> status c = 401 \/ status c = 415 \/ status c = 429 ->
      envelopes c <> []
      /\ forall r, r ∈ envelopes c -> request_id_field r = Some (JStr id))
  /\ (id <> "" -> is_Some (find_route (Method req) (Path req) public_routes) ->
      forall r, r ∈ envelopes c -> request_id_field r = Some (JStr id)).
Proof.
  intros Hdirect id c.
  pose proof (ServeHTTP_errors_tagged env req w Hdirect) as He.
  assert (Hc : errors_tagged id c w).
  { subst c. destruct (ServeHTTP env req w); exact He. }
  destruct Hc as [(H1 & H2 & H3 & H4) Hs].
  split; [exact H2|]. split; [|split].
  - intros r j Hr Hj. rewrite Forall_forall in H4.
    eapply request_id_field_inv; [|exact Hj]. by apply H4.
  - intros Hid Hst.
    assert (Hst' : error_status (status c) = true).
    { unfold error_status. destruct Hst as [->|[->| ->]]; reflexivity. }
    destruct Hs as [(_ & _ & Hst'')|[(_ & _ & _ & Hne & Hall)|(_ & Hst'')]];
      try congruence.
    split; [exact Hne|]. intros r Hr. rewrite Forall_forall in Hall.
    apply request_id_field_tagged; [done | by apply Hall].
  - intros Hid Hpub r Hr.
    pose proof (ServeHTTP_all_tagged env req w Hpub) as Ha.
    assert (Hall : Forall (fun r => RequestID r = id) (envelopes c)).
    { subst c. destruct (ServeHTTP env req w); exact (proj2 Ha). }
    rewrite Forall_forall in Hall.
    apply request_id_field_tagged; [done | by apply Hall].
Qed.

Lemma request_id_matches_header_witness :
  let req := mkRequest "GET" "/admin/stats" ∅ "10.0.0.1" (mkArticle 0 "" "" "" 0 0) None in
  let c := outcome_context (ServeHTTP example_env req (initial_world example_env)) in
  redirected example_env req = false
  /\ status c = 401
  /\ Header c !! "X-Request-ID" = Some "uuid-0"
  /\ Forall (fun r => request_id_field r = Some (JStr "uuid-0")) (envelopes c).
Proof.
  intros req c.
  pose proof (request_id_matches_header example_env req (initial_world example_env)
                                        eq_refl) as (Hh & _ & He & _).
  split; [reflexivity|]. split; [reflexivity|]. split; [exact Hh|].
  apply Forall_forall. apply He; [discriminate | by left].
Defined.

(** ** Authentication *)

Lemma Next_loop_aborted hs pos c w :
  pos + Z.of_nat (length hs) <= abortIndex -> IsAborted c = true ->
  Next_loop hs pos c w = Done c w.
Proof.
  intros Hlen Ha. apply Next_loop_skip.
  unfold IsAborted in Ha. apply Z.leb_le in Ha. lia.
Qed.

(** C2, what the code does. Whatever the key, the stage goes on to store a
    role and to call [c.Next()]: with a key of the mapping, the role found;
    with any other key, after the 401 envelope has been written and the
    context aborted, the empty role. So a [role] entry is present in the
    context also when authentication failed (the [return] after the abort is
    missing); the handlers after the stage do not run then. *)
Theorem AuthMiddleware_sets_role_even_on_failure
    (next : Context -> World -> Outcome) c w :
  let key := GetHeader "X-API-Key" c in
  exists c', AuthMiddleware next c w = next c' w
    /\ is_Some (Keys c' !! "role")
    /\ (apiKeys !! key = None ->
        Keys c' !! "role" = Some ""
        /\ IsAborted c' = true
        /\ (written c = false -> status c' = 401)
        /\ envelopes c'
           = envelopes c ++ [mkResponse false NoData "" "invalid or missing API key"
                                        (GetString "request_id" c)]
        /\ forall hs pos, pos + Z.of_nat (length hs) <= abortIndex ->
             Next_loop hs pos (incr_index c') w = Done (incr_index c') w)
    /\ (forall role, apiKeys !! key = Some role -> c' = Set_ "role" role c).
Proof.
  intros key. unfold AuthMiddleware. fold key.
  destruct (apiKeys !! key) as [role|] eqn:Hk.
  - rewrite bool_decide_true by eauto. simpl.
    eexists. split; [reflexivity|]. split.
    + simpl. rewrite lookup_insert_eq. eauto.
    + split; [discriminate|]. by intros role' [= ->].
  - rewrite bool_decide_false by (by intros [? ?]). simpl.
    eexists. split; [reflexivity|]. split.
    + simpl. rewrite lookup_insert_eq. eauto.
    + split; [|discriminate]. intros _.
      split; [simpl; apply lookup_insert_eq|].
      split; [unfold IsAborted; cbn [index Set_]; unfold AbortWithStatusJSON;
              by rewrite index_JSON|].
      split; [intros Hw; cbn [status Set_]; by apply status_AbortWithStatusJSON|].
      split.
      * unfold AbortWithStatusJSON.
        pose proof (envelopes_JSON 401
          (mkResponse false NoData "" "invalid or missing API key"
                      (GetString "request_id" c)) (Abort c)) as E.
        unfold envelopes in *. cbn [body Set_]. exact E.
      * intros hs pos Hlen. apply Next_loop_skip.
        cbn [index Set_ incr_index set_index]. unfold AbortWithStatusJSON.
        rewrite index_JSON. simpl. unfold abortIndex in *. lia.
Qed.

(** The failing input, through the whole chain: a DELETE with a key that is
    not in the mapping gets 401, the article is still there, and the context
    holds a [role] entry. *)
Lemma role_stored_after_failed_authentication :
  let o := ServeHTTP example_env
             (with_key "not-a-key" "DELETE" "/article/1" (mkArticle 0 "" "" "" 0 0))
             (initial_world example_env) in
  status (outcome_context o) = 401
  /\ Keys (outcome_context o) !! "role" = Some ""
  /\ length (articles (outcome_world o)) = 2%nat.
Proof. vm_compute. repeat split. Qed.

(** ** Recovery *)

(** C3, what the code does. When what runs after the recovery stage panics
    with nothing written yet, the stage answers 500 with an envelope that
    carries the correlation id of the context, [Success] false and the error
    string ["interal server error"], which is not the string
    ["internal server error"]; marshalled under the struct tags, the flag is
    the field ["id"] and there is no field ["success"]. *)
Theorem ErrorHandlerMiddleware_on_panic
    (next : Context -> World -> Outcome) c w c' w' :
  next c w = Panicked c' w' -> written c' = false ->
  exists c'' r,
    ErrorHandlerMiddleware next c w = Done c'' w'
    /\ status c'' = 500 /\ IsAborted c'' = true
    /\ envelopes c'' = envelopes c' ++ [r]
    /\ Success r = false
    /\ RequestID r = GetString "request_id" c'
    /\ Error r = "interal server error"
    /\ Error r <> "internal server error"
    /\ json_field "success" (marshal r) = None
    /\ json_field "id" (marshal r) = Some (JBool false)
    /\ json_field "error" (marshal r) = Some (JStr "interal server error").
Proof.
  intros Hnext Hw. unfold ErrorHandlerMiddleware, CustomRecovery. rewrite Hnext.
  eexists. eexists. split; [reflexivity|].
  split; [by apply status_AbortWithStatusJSON|].
  split; [unfold AbortWithStatusJSON; by rewrite IsAborted_JSON|].
  split; [unfold AbortWithStatusJSON; rewrite envelopes_JSON; reflexivity|].
  split; [reflexivity|]. split; [reflexivity|]. split; [reflexivity|].
  split; [discriminate|].
  unfold marshal, omitempty_string. simpl.
  destruct (String.eqb (GetString "request_id" c') ""); repeat split.
Qed.

Lemma ErrorHandlerMiddleware_on_panic_witness :
  let c := Set_ "request_id" "uuid-0" (new_context (get "/articles/1")) in
  let w := initial_world example_env in
  exists c'' r,
    ErrorHandlerMiddleware (fun c w => Panicked c w) c w = Done c'' w
    /\ status c'' = 500 /\ IsAborted c'' = true
    /\ envelopes c'' = envelopes c ++ [r]
    /\ Success r = false
    /\ RequestID r = GetString "request_id" c
    /\ Error r = "interal server error"
    /\ Error r <> "internal server error"
    /\ json_field "success" (marshal r) = None
    /\ json_field "id" (marshal r) = Some (JBool false)
    /\ json_field "error" (marshal r) = Some (JStr "interal server error").
Proof.
  intros c w.
  apply (ErrorHandlerMiddleware_on_panic (fun c w => Panicked c w) c w c w);
    reflexivity.
Defined.

(** ** The DELETE route *)

Lemma find_route_delete_articles env p :
  find_route "DELETE" ("/articles/" ++ p)%string (routes env) = None.
Proof. reflexivity. Qed.

Lemma status_JSON_cases code obj c :
  status (JSON code obj c) = status c \/ status (JSON code obj c) = code.
Proof.
  unfold JSON, writeContentType, Status.
  destruct ((0 <? code) && negb (status c =? code) && negb (written c));
    match goal with |- context [match ?x with _ => _ end] => destruct x end;
    simpl; auto.
Qed.

Section DeleteUnserved.

Variable env : Env.
Variable arts : list Article.

Lemma delete_unserved_blind : index_blind (delete_unserved arts).
Proof. intros c w i _ H. exact H. Qed.

Lemma delete_unserved_abort code r c w :
  code <> 200 -> delete_unserved arts c w ->
  delete_unserved arts (AbortWithStatusJSON code r c) w.
Proof.
  intros Hcode (Hm & Hs & Ha). unfold delete_unserved, AbortWithStatusJSON.
  split; [|split; [|exact Ha]].
  - unfold JSON, writeContentType.
    match goal with |- context [match ?x with _ => _ end] => destruct x end;
      exact Hm.
  - destruct (status_JSON_cases code r (Abort c)) as [E|E]; rewrite E; done.
Qed.

Lemma respects_delete_ErrorHandler : respects (delete_unserved arts) ErrorHandlerMiddleware.
Proof.
  intros next Hnext c w _ HP. unfold ErrorHandlerMiddleware, CustomRecovery.
  specialize (Hnext c w HP). destruct (next c w); simpl in *; [done|].
  by apply delete_unserved_abort.
Qed.

Lemma respects_delete_RequestID : respects (delete_unserved arts) (RequestIDMiddleware env).
Proof. intros next Hnext c w _ HP. unfold RequestIDMiddleware. simpl. by apply Hnext. Qed.

Lemma respects_delete_Logging : respects (delete_unserved arts) (LoggingMiddleware env).
Proof.
  intros next Hnext c w _ HP. unfold LoggingMiddleware. simpl.
  match goal with |- context [next ?c' ?w'] =>
    specialize (Hnext c' w' HP); destruct (next c' w') end; exact Hnext.
Qed.

Lemma respects_delete_CORS : respects (delete_unserved arts) CORSMiddleware.
Proof.
  intros next Hnext c w _ HP. unfold CORSMiddleware.
  destruct (default false _); simpl; rewrite (proj1 HP); simpl; by apply Hnext.
Qed.

Lemma respects_delete_RateLimit : respects (delete_unserved arts) (RateLimitMiddleware env).
Proof.
  intros next Hnext c w _ HP. unfold RateLimitMiddleware, getLimiter, Allow.
  destruct (visitors w !! ClientIP (Req c)); cbn -[Allow_at];
    match goal with |- context [Allow_at ?t ?l] =>
      destruct (Allow_at t l) as [[|] l'] end; cbn [negb holds];
    try apply Hnext; try (apply delete_unserved_abort; [done|]); exact HP.
Qed.

Lemma respects_delete_ContentType : respects (delete_unserved arts) ContentTypeMiddleware.
Proof.
  intros next Hnext c w _ HP. unfold ContentTypeMiddleware.
  rewrite (proj1 HP). simpl. by apply Hnext.
Qed.

End DeleteUnserved.

(** C7, what the code does. The route registered for DELETE is
    [/article/:id]; a DELETE on [/articles/{id}] finds no route, whatever the
    identifier and the key: the answer never has status 200 and the articles
    are the ones the request found. *)
Theorem delete_on_articles_path_is_unrouted env req w p :
  Method req = "DELETE" -> Path req = ("/articles/" ++ p)%string ->
  let o := ServeHTTP env req w in
  find_route (Method req) (Path req) (routes env) = None
  /\ status (outcome_context o) <> 200
  /\ articles (outcome_world o) = articles w.
Proof.
  intros Hm Hp o.
  assert (Hf : find_route (Method req) (Path req) (routes env) = None).
  { rewrite Hm, Hp. apply find_route_delete_articles. }
  split; [exact Hf|].
  assert (H : holds (delete_unserved (articles w)) o).
  { apply ServeHTTP_holds.
    - apply delete_unserved_blind.
    - unfold global_middleware.
      repeat apply List.Forall_cons; try apply List.Forall_nil;
        auto using respects_delete_ErrorHandler, respects_delete_RequestID,
          respects_delete_Logging, respects_delete_CORS,
          respects_delete_RateLimit, respects_delete_ContentType.
    - intros hs ps Hf'. congruence.
    - intros _. split; [done|]. split; [by intros c w' HP _ _|].
      split; [by intros c w' HP|].
      unfold delete_unserved, redirectTrailingSlash. cbn [Req Header_Set new_context].
      rewrite Hm. done. }
  subst o. destruct (ServeHTTP env req w); destruct H as (_ & Hs & Ha); done.
Qed.

Lemma delete_on_articles_path_is_unrouted_witness :
  let req := with_key "admin-key" "DELETE" "/articles/1" (mkArticle 0 "" "" "" 0 0) in
  let o := ServeHTTP example_env req (initial_world example_env) in
  find_route (Method req) (Path req) (routes example_env) = None
  /\ status (outcome_context o) <> 200
  /\ articles (outcome_world o) = articles (initial_world example_env).
Proof.
  intros req o.
  apply (delete_on_articles_path_is_unrouted example_env req
           (initial_world example_env) "1"); reflexivity.
Defined.

(** The failing input evaluated: the article 1 exists, the key is valid, the
    answer to DELETE /articles/1 is gin's 404 and both articles are still
    stored; the same request on /article/1 answers 200 and removes it. *)
Lemma delete_route_is_singular :
  let w := initial_world example_env in
  let plural :=
    ServeHTTP example_env
      (with_key "admin-key" "DELETE" "/articles/1" (mkArticle 0 "" "" "" 0 0)) w in
  let singular :=
    ServeHTTP example_env
      (with_key "admin-key" "DELETE" "/article/1" (mkArticle 0 "" "" "" 0 0)) w in
  (status (outcome_context plural) = 404
   /\ body (outcome_context plural) = [WText "404 page not found"]
   /\ map ID (articles (outcome_world plural)) = [1; 2])
  /\ (status (outcome_context singular) = 200
      /\ map ID (articles (outcome_world singular)) = [2]).
Proof. vm_compute. repeat split. Qed.

(** ** Projections of an updated context *)

Lemma Req_set_index i c : Req (set_index i c) = Req c.
Proof. reflexivity. Qed.
Lemma Req_Set k v c : Req (Set_ k v c) = Req c.
Proof. reflexivity. Qed.
Lemma written_set_index i c : written (set_index i c) = written c.
Proof. reflexivity. Qed.
Lemma written_Set k v c : written (Set_ k v c) = written c.
Proof. reflexivity. Qed.
Lemma body_set_index i c : body (set_index i c) = body c.
Proof. reflexivity. Qed.
Lemma status_set_index i c : status (set_index i c) = status c.
Proof. reflexivity. Qed.
Lemma index_incr_index c : index (incr_index c) = index c + 1.
Proof. reflexivity. Qed.
Lemma envelopes_set_index i c : envelopes (set_index i c) = envelopes c.
Proof. reflexivity. Qed.
Lemma envelopes_Set k v c : envelopes (Set_ k v c) = envelopes c.
Proof. reflexivity. Qed.
Lemma Req_Header_Set k v c : Req (Header_Set k v c) = Req c.
Proof. reflexivity. Qed.
Lemma written_Header_Set k v c : written (Header_Set k v c) = written c.
Proof. reflexivity. Qed.
Lemma body_Header_Set k v c : body (Header_Set k v c) = body c.
Proof. reflexivity. Qed.
Lemma Params_Header_Set k v c : Params (Header_Set k v c) = Params c.
Proof. reflexivity. Qed.
Lemma Params_incr_index c : Params (incr_index c) = Params c.
Proof. reflexivity. Qed.
Lemma Params_Set k v c : Params (Set_ k v c) = Params c.
Proof. reflexivity. Qed.

(** ** An admitted request *)

Lemma Next_loop_step h rest pos pos' c w :
  index c = pos -> pos' = pos + 1 ->
  Next_loop (h :: rest) pos c w
  = match h (fun c' w' => Next_loop rest pos' (incr_index c') w') c w with
    | Done c' w' => Next_loop rest pos' (incr_index c') w'
    | Panicked c' w' => Panicked c' w'
    end.
Proof. intros H ->. by apply Next_loop_here. Qed.

Lemma CORSMiddleware_unfold (next : Context -> World -> Outcome) c w :
  CORSMiddleware next c w
  = if String.eqb (Method (Req c)) "OPTIONS"
    then Done (AbortWithStatus 204 (cors_headers c)) w
    else next (cors_headers c) w.
Proof.
  unfold CORSMiddleware, cors_headers.
  destruct (default false _); reflexivity.
Qed.

Lemma RateLimitMiddleware_unfold env (next : Context -> World -> Outcome) c w :
  RateLimitMiddleware env next c w
  = let c' := Header_Set "X-RateLimit-Limit" "100" c in
    if fst (rate_check env (ClientIP (Req c)) w)
    then next c' (snd (rate_check env (ClientIP (Req c)) w))
    else Done (AbortWithStatusJSON 429
                 (mkResponse false NoData "" "too many requests, limit exceeded"
                             (GetString "request_id" c')) c')
              (snd (rate_check env (ClientIP (Req c)) w)).
Proof.
  unfold RateLimitMiddleware, rate_check.
  destruct (getLimiter _ w) as [limiter w1].
  destruct (Allow env _ limiter w1) as [[|] w2]; reflexivity.
Qed.

Lemma Req_cors_headers c : Req (cors_headers c) = Req c.
Proof. unfold cors_headers. destruct (default false _); reflexivity. Qed.





Lemma written_cors_headers c : written (cors_headers c) = written c.
Proof. unfold cors_headers. destruct (default false _); reflexivity. Qed.

Lemma body_cors_headers c : body (cors_headers c) = body c.
Proof. unfold cors_headers. destruct (default false _); reflexivity. Qed.

Lemma Params_cors_headers c : Params (cors_headers c) = Params c.
Proof. unfold cors_headers. destruct (default false _); reflexivity. Qed.



Lemma Params_entry_context env c0 w : Params (entry_context env c0 w) = Params c0.
Proof.
  unfold entry_context. cbv zeta.
  by rewrite !Params_incr_index, Params_Header_Set, Params_incr_index, Params_cors_headers,
    !Params_incr_index, Params_Header_Set, Params_Set, !Params_incr_index.
Qed.

(** The state in which an admitted request reaches its handlers: the store is
    untouched and the clock has been read twice. *)
Lemma entry_world_store env req w :
  articles (entry_world env req w) = articles w
  /\ nextId (entry_world env req w) = nextId w
  /\ ticks (entry_world env req w) = S (S (ticks w)).
Proof.
  unfold entry_world, rate_check, getLimiter, Allow.
  destruct (visitors _ !! ClientIP req); cbn -[Allow_at];
    match goal with |- context [Allow_at ?t ?l] => destruct (Allow_at t l) end;
    done.
Qed.

(** A protected route whose key is in the mapping: the stage stores the role
    and the handler runs. *)
Lemma auth_pass (h : Handler) c w role c1 w1 :
  index c = 6 ->
  apiKeys !! GetHeader "X-API-Key" c = Some role ->
  (forall next, h next (incr_index (Set_ "role" role c)) w = Done c1 w1) ->
  index c1 = 7 ->
  Next_loop [AuthMiddleware; h] 6 c w = Done (incr_index (incr_index c1)) w1.
Proof.
  intros Hi Hk Hh Hi1.
  rewrite (Next_loop_step _ _ 6 7) by done.
  unfold AuthMiddleware at 1. rewrite Hk.
  rewrite bool_decide_true by eauto. cbn [negb default].
  rewrite (Next_loop_step _ _ 7 8) by (cbn [index incr_index set_index Set_]; lia).
  rewrite Hh. cbn [Next_loop index incr_index set_index].
  rewrite Hi1. reflexivity.
Qed.








(** ** A path identifier that is no number *)





(** The same through the whole chain, on the routes as they are registered. *)
Lemma non_integer_id_through_the_chain :
  let w := initial_world example_env in
  let zero := mkArticle 0 "" "" "" 0 0 in
  let got := ServeHTTP example_env (get "/articles/abc") w in
  let put := ServeHTTP example_env (with_key "admin-key" "PUT" "/articles/1x" zero) w in
  let del := ServeHTTP example_env (with_key "admin-key" "DELETE" "/article/-" zero) w in
  (status (outcome_context got) = 404
   /\ map Error (envelopes (outcome_context got)) = ["article not found"])
  /\ (status (outcome_context put) = 404
      /\ map Error (envelopes (outcome_context put)) = ["article not found"])
  /\ (status (outcome_context del) = 404
      /\ map Error (envelopes (outcome_context del)) = ["article not found"]).
Proof. vm_compute. repeat split. Qed.

(** ** The token bucket *)

Lemma Allow_at_full l now :
  0 < interval l -> 1 <= burst l -> refill now l = burst l * interval l ->
  exists l', Allow_at now l = (true, l')
    /\ interval l' = interval l /\ burst l' = burst l
    /\ bucket_after l' now now 1.
Proof.
  intros He Hb Hfull. unfold Allow_at. rewrite Hfull.
  destruct (interval l <=? burst l * interval l) eqn:E;
    [|apply Z.leb_gt in E; nia].
  eexists. split; [reflexivity|]. unfold bucket_after. simpl.
  repeat split; try done; lia.
Qed.

Lemma bucket_full_new now :
  bucket_full now (NewLimiter (Every (time_Minute / 100)) 100).
Proof. repeat split. Qed.

Lemma Allow_at_burst l t1 tk k now :
  0 < interval l -> bucket_after l t1 tk k -> 0 <= k < burst l -> tk <= now ->
  exists l', Allow_at now l = (true, l')
    /\ interval l' = interval l /\ burst l' = burst l
    /\ bucket_after l' t1 now (k + 1).
Proof.
  intros He (Hl & Hlo & Hhi) Hk Ht. unfold Allow_at, refill. rewrite Hl.
  assert (0 <= k * interval l) by nia.
  assert (interval l <= (burst l - k) * interval l) by nia.
  destruct (interval l <=? Z.min (burst l * interval l) (tokens l + (now - tk))) eqn:E.
  - eexists. split; [reflexivity|]. unfold bucket_after. simpl.
    repeat split; try done; lia.
  - apply Z.leb_gt in E. lia.
Qed.

Lemma Allow_at_exhausted l t1 tk now :
  0 < interval l -> 0 <= burst l -> bucket_after l t1 tk (burst l) -> tk <= now ->
  now - t1 < interval l ->
  exists l', Allow_at now l = (false, l')
    /\ interval l' = interval l /\ burst l' = burst l
    /\ last l' = Some now /\ 0 <= tokens l'.
Proof.
  intros He Hb (Hl & Hlo & Hhi) Ht Hwin. unfold Allow_at, refill. rewrite Hl.
  assert (0 <= burst l * interval l) by nia.
  destruct (interval l <=? Z.min (burst l * interval l) (tokens l + (now - tk))) eqn:E.
  - apply Z.leb_le in E. lia.
  - eexists. split; [reflexivity|]. simpl. repeat split; try done. lia.
Qed.

Lemma Allow_at_refilled l t0 now :
  0 < interval l -> 1 <= burst l -> last l = Some t0 -> 0 <= tokens l ->
  t0 + interval l <= now ->
  exists l', Allow_at now l = (true, l').
Proof.
  intros He Hb Hl Htk Ht. unfold Allow_at, refill. rewrite Hl.
  assert (interval l <= burst l * interval l) by nia.
  destruct (interval l <=? Z.min (burst l * interval l) (tokens l + (now - t0))) eqn:E.
  - eexists. reflexivity.
  - apply Z.leb_gt in E. lia.
Qed.

Lemma rate_check_spec env ip w :
  let l0 := default (NewLimiter (Every (time_Minute / 100)) 100) (visitors w !! ip) in
  let r := Allow_at (clock env (ticks w)) l0 in
  fst (rate_check env ip w) = fst r
  /\ visitors (snd (rate_check env ip w)) !! ip = Some (snd r)
  /\ ticks (snd (rate_check env ip w)) = S (ticks w).
Proof.
  unfold rate_check, getLimiter, Allow.
  destruct (visitors w !! ip) as [l|]; cbn -[Allow_at NewLimiter];
    match goal with |- context [Allow_at ?t ?l] => destruct (Allow_at t l) end;
    cbn -[NewLimiter]; rewrite lookup_insert_eq; done.
Qed.

Lemma rate_limit_stage_spec env req w :
  let o := rate_limit_stage env req w in
  (negb (IsAborted (outcome_context o)), status (outcome_context o))
  = (if fst (rate_check env (ClientIP req) w) then (true, 200) else (false, 429))
  /\ outcome_world o = snd (rate_check env (ClientIP req) w).
Proof.
  unfold rate_limit_stage. rewrite RateLimitMiddleware_unfold. cbv zeta.
  change (Req (new_context req)) with req.
  destruct (fst (rate_check env (ClientIP req) w)); cbn [outcome_context outcome_world].
  - split; reflexivity.
  - split; [|reflexivity].
    unfold AbortWithStatusJSON. rewrite IsAborted_JSON, status_JSON by done.
    reflexivity.
Qed.

Lemma rate_limit_run_app env reqs1 reqs2 w :
  rate_limit_run env (reqs1 ++ reqs2) w
  = (fst (rate_limit_run env reqs1 w)
       ++ fst (rate_limit_run env reqs2 (snd (rate_limit_run env reqs1 w))),
     snd (rate_limit_run env reqs2 (snd (rate_limit_run env reqs1 w)))).
Proof.
  revert w. induction reqs1 as [|req reqs1 IH]; intros w.
  - simpl. by destruct (rate_limit_run env reqs2 w).
  - cbn [rate_limit_run app]. rewrite IH.
    destruct (rate_limit_run env reqs1 _) as [r1 w1]. cbn [fst snd].
    reflexivity.
Qed.

Lemma rate_limit_run_one env req w :
  rate_limit_run env [req] w
  = ([if fst (rate_check env (ClientIP req) w) then (true, 200) else (false, 429)],
     snd (rate_check env (ClientIP req) w)).
Proof.
  cbn [rate_limit_run].
  destruct (rate_limit_stage_spec env req w) as [-> ->]. reflexivity.
Qed.

Section Burst.

Variable env : Env.
Hypothesis clock_monotone : monotone env.
Variable ip : string.
Variable t1 : Z.

Lemma burst_step req w k :
  ClientIP req = ip -> in_burst env ip t1 k w -> 0 <= k < 100 ->
  rate_limit_run env [req] w = ([(true, 200)], snd (rate_check env ip w))
  /\ in_burst env ip t1 (k + 1) (snd (rate_check env ip w))
  /\ ticks (snd (rate_check env ip w)) = S (ticks w).
Proof.
  intros Hip (l & tk & Hl & Hi & Hb & Hbk & Htk) Hk.
  rewrite rate_limit_run_one, Hip.
  pose proof (rate_check_spec env ip w) as Hspec. cbv zeta in Hspec.
  rewrite Hl in Hspec. cbn [default from_option id] in Hspec.
  destruct Hspec as (Hok & Hv & Ht).
  destruct (Allow_at_burst l t1 tk k (clock env (ticks w))) as (l' & E & Hi' & Hb' & Hbk');
    try done; [rewrite Hi; reflexivity | lia|].
  rewrite E in Hok, Hv. cbn [fst snd] in Hok, Hv. rewrite Hok.
  split; [reflexivity|]. split; [|exact Ht].
  exists l', (clock env (ticks w)). rewrite Ht.
  split; [exact Hv|]. split; [congruence|]. split; [congruence|].
  split; [exact Hbk'|]. apply clock_monotone.
Qed.

Lemma burst_run reqs : forall w k,
  Forall (fun r => ClientIP r = ip) reqs -> in_burst env ip t1 k w ->
  0 <= k -> k + Z.of_nat (length reqs) <= 100 ->
  fst (rate_limit_run env reqs w) = replicate (length reqs) (true, 200)
  /\ in_burst env ip t1 (k + Z.of_nat (length reqs)) (snd (rate_limit_run env reqs w))
  /\ ticks (snd (rate_limit_run env reqs w)) = (ticks w + length reqs)%nat.
Proof.
  induction reqs as [|req reqs IH]; intros w k Hall Hin Hk Hlen.
  - simpl. rewrite Z.add_0_r, Nat.add_0_r. done.
  - apply Forall_cons in Hall as [Hip Hall'].
    simpl length in *.
    change (req :: reqs) with ([req] ++ reqs). rewrite rate_limit_run_app.
    destruct (burst_step req w k Hip Hin) as (E & Hin' & Ht); [lia|].
    rewrite E. cbn [fst snd].
    destruct (IH (snd (rate_check env ip w)) (k + 1) Hall' Hin')
      as (E' & Hin'' & Ht'); [lia | lia |].
    rewrite E'. split; [reflexivity|]. split.
    + replace (k + Z.of_nat (S (length reqs))) with (k + 1 + Z.of_nat (length reqs))
        by lia. exact Hin''.
    + rewrite Ht', Ht. lia.
Qed.

End Burst.

(** C8. For every client whose bucket is full when the burst begins (in
    particular every client that the limiter has not seen before: its bucket
    is created full on its first request), with a clock that does not go
    back: of 102 requests in a row, if the first 101 fall within less than
    the time of one token (600 ms, the negligible window) and the last comes
    at least one refill interval after the 101st, the first 100 are let
    through, the 101st is answered 429, and the 102nd is let through. *)
Theorem burst_then_reject_then_refill env ip reqs w :
  monotone env ->
  Forall (fun r => ClientIP r = ip) reqs -> length reqs = 102%nat ->
  (forall l, visitors w !! ip = Some l -> bucket_full (clock env (ticks w)) l) ->
  clock env (ticks w + 100) - clock env (ticks w) < time_Minute / 100 ->
  time_Minute / 100 <= clock env (ticks w + 101) - clock env (ticks w + 100) ->
  fst (rate_limit_run env reqs w)
  = replicate 100 (true, 200) ++ [(false, 429); (true, 200)].
Proof.
  intros Hmono Hall Hlen Hfresh Hwin Hwait.
  destruct reqs as [|r1 reqs]; [discriminate|].
  apply Forall_cons in Hall as [Hip1 Hall].
  rewrite <- (take_drop 99 reqs) in Hall. apply Forall_app in Hall as [Hall99 Hall2].
  assert (Hlen99 : length (take 99 reqs) = 99%nat).
  { rewrite length_take. simpl in Hlen. lia. }
  destruct (drop 99 reqs) as [|r101 [|r102 [|? ?]]] eqn:Hdrop;
    try (apply (f_equal length) in Hdrop; rewrite length_drop in Hdrop;
         simpl in Hdrop, Hlen; lia).
  apply Forall_cons in Hall2 as [Hip101 Hall2].
  apply Forall_cons in Hall2 as [Hip102 _].
  change (r1 :: reqs) with ([r1] ++ reqs).
  rewrite <- (take_drop 99 reqs), Hdrop.
  change [r101; r102] with ([r101] ++ [r102]).
  rewrite !rate_limit_run_app. cbn [fst snd].
  set (t1 := clock env (ticks w)).
  (* the first request creates the bucket *)
  rewrite rate_limit_run_one, Hip1. cbn [fst snd].
  pose proof (rate_check_spec env ip w) as Hspec. cbv zeta in Hspec.
  destruct Hspec as (Hok & Hv & Ht).
  assert (Hfull : bucket_full t1
            (default (NewLimiter (Every (time_Minute / 100)) 100)
                     (visitors w !! ip))).
  { destruct (visitors w !! ip) as [l|] eqn:Hl.
    - by apply Hfresh.
    - apply bucket_full_new. }
  destruct Hfull as (Hi0 & Hb0 & Hfull).
  destruct (Allow_at_full _ t1 ltac:(rewrite Hi0; reflexivity)
              ltac:(rewrite Hb0; lia) Hfull)
    as (l1 & E1 & Hi1 & Hb1 & Hbk1).
  fold t1 in Hok, Hv. rewrite E1 in Hok, Hv. cbn [fst snd] in Hok, Hv.
  rewrite Hok.
  set (w1 := snd (rate_check env ip w)) in *.
  assert (Hin1 : in_burst env ip t1 1 w1).
  { exists l1, t1. split; [exact Hv|]. split; [congruence|].
    split; [congruence|]. split; [exact Hbk1|].
    rewrite Ht. apply Hmono. }
  (* the next 99 *)
  destruct (burst_run env Hmono ip t1 (take 99 reqs) w1 1 Hall99 Hin1)
    as (E99 & Hin100 & Ht100); [lia | lia |].
  rewrite E99, Hlen99. rewrite Hlen99 in Hin100, Ht100.
  set (w100 := snd (rate_limit_run env (take 99 reqs) w1)) in *.
  change (1 + Z.of_nat 99) with 100 in Hin100.
  assert (Ht100' : ticks w100 = (ticks w + 100)%nat) by lia.
  (* the 101st *)
  destruct Hin100 as (l100 & tk & Hl100 & Hi100 & Hb100 & Hbk100 & Htk).
  rewrite rate_limit_run_one, Hip101. cbn [fst snd].
  pose proof (rate_check_spec env ip w100) as Hspec. cbv zeta in Hspec.
  rewrite Hl100 in Hspec. cbn [default from_option id] in Hspec.
  destruct Hspec as (Hok' & Hv' & Ht101).
  rewrite Ht100' in Hok', Hv', Htk.
  destruct (Allow_at_exhausted l100 t1 tk (clock env (ticks w + 100)))
    as (l101 & E101 & Hi101 & Hb101 & Hlast & Htok);
    [rewrite Hi100; reflexivity | lia | by rewrite Hb100 | done
     | by rewrite Hi100 |].
  rewrite E101 in Hok', Hv'. cbn [fst snd] in Hok', Hv'. rewrite Hok'.
  set (w101 := snd (rate_check env ip w100)) in *.
  (* the 102nd *)
  rewrite rate_limit_run_one, Hip102. cbn [fst snd].
  pose proof (rate_check_spec env ip w101) as Hspec. cbv zeta in Hspec.
  rewrite Hv' in Hspec. cbn [default from_option id] in Hspec.
  destruct Hspec as (Hok'' & _ & _).
  replace (ticks w101) with (ticks w + 101)%nat in Hok'' by lia.
  destruct (Allow_at_refilled l101 (clock env (ticks w + 100))
              (clock env (ticks w + 101))) as (l102 & E102);
    [rewrite Hi101, Hi100; reflexivity | lia | done | done
     | rewrite Hi101, Hi100; lia |].
  rewrite E102 in Hok''. cbn [fst] in Hok''. rewrite Hok''.
  reflexivity.
Qed.

Lemma burst_then_reject_then_refill_witness :
  fst (rate_limit_run burst_env (replicate 102 (get "/ping")) (initial_world burst_env))
  = replicate 100 (true, 200) ++ [(false, 429); (true, 200)].
Proof.
  apply (burst_then_reject_then_refill burst_env "10.0.0.1").
  - intros n. unfold burst_env. cbn [clock].
    destruct (Nat.leb_spec n 104), (Nat.leb_spec (S n) 104); lia.
  - apply Forall_replicate. reflexivity.
  - reflexivity.
  - intros l Hl. discriminate Hl.
  - vm_compute. reflexivity.
  - vm_compute. discriminate.
Defined.

(** ** Interleaved handlers *)

(** C9, what the code does. [updateArticle] and [deleteArticle] do not take
    [articleMux], and no reader does. From the initial store:
    - a GET of article 1 that runs between two assignments of a PUT of
      article 1 is answered with a record that has the new title and the old
      content: it is neither the record before the update nor the one after;
    - a PUT of article 2 whose scan ran before a DELETE of article 2 and
      whose first assignment runs after it faults (index out of range);
    - a DELETE writes the store while a create holds the mutex and is inside
      its critical section. *)
Theorem unlocked_update_and_delete_race :
  let input := mkArticle 0 "X" "Y" "Z" 0 0 in
  let old1 := mkArticle 1 "Getting Started with Go" "Go is a programming language..."
                        "John Doe" 1000 1001 in
  let new1 := mkArticle 1 "X" "Y" "Z" 1000 2000 in
  let half1 := mkArticle 1 "X" "Go is a programming language..." "John Doe" 1000 1001 in
  (exists threads s,
     Interleaved.run [0; 0; 1]%nat
       ([Interleaved.UpdateFind 1 input 2000; Interleaved.GetFind 1],
        Interleaved.initial_shared) = Some (threads, s)
     /\ threads !! 1%nat
        = Some (Interleaved.Finished (Interleaved.Answered 200 (OneArticle half1)))
     /\ half1 <> old1 /\ half1 <> new1)
  /\ (exists threads s,
        Interleaved.run [0; 1; 1; 0]%nat
          ([Interleaved.UpdateFind 2 input 2000; Interleaved.DeleteFind 2],
           Interleaved.initial_shared) = Some (threads, s)
        /\ threads !! 0%nat = Some (Interleaved.Finished Interleaved.Fault))
  /\ (exists t0 t1 s t1' s',
        Interleaved.run [0; 0; 1]%nat
          ([Interleaved.CreateLock input 2000 2001; Interleaved.DeleteFind 1],
           Interleaved.initial_shared) = Some ([t0; t1], s)
        /\ Interleaved.sh_locked s = true
        /\ Interleaved.in_critical t0 = true
        /\ Interleaved.about_to_write t1 = true
        /\ Interleaved.step t1 s = Some (t1', s')
        /\ Interleaved.sh_articles s' <> Interleaved.sh_articles s).
Proof.
  split; [|split].
  - eexists. eexists. split; [vm_compute; reflexivity|].
    split; [reflexivity|]. split; discriminate.
  - eexists. eexists. split; [vm_compute; reflexivity|]. reflexivity.
  - do 5 eexists. split; [vm_compute; reflexivity|].
    split; [reflexivity|]. split; [reflexivity|]. split; [reflexivity|].
    split; [vm_compute; reflexivity|]. discriminate.
Qed.

(** ** The invariant where the handlers run *)

(** The handlers of an admitted request find the store in a state that
    satisfies the invariant. *)
Lemma entry_world_inv env req w :
  increasing env -> world_inv env w -> world_inv env (entry_world env req w).
Proof.
  intros Hinc Hw. destruct (entry_world_store env req w) as (Ha & Hn & Ht).
  eapply world_inv_later; [exact Hinc | exact Ha | exact Hn | lia | exact Hw].
Qed.

(** C5, as amended. [updateArticle] with the identifier [id] read from the
    path, on any context and in any state: if no article has that identifier
    the handler answers 404 "article not found" and the process state is
    unchanged; if one has, the first such article, at position [i], gets the
    title, content and author of the body and the clock reading of the call
    as [updated_at], its [id] and [created_at] stay, every other position of
    [articles] and [nextId] stay, and the answer is 200 with the updated
    record. The new [updated_at] is later than the old one when each reading
    of the clock is later than the one before and the handler runs where the
    service calls it: after the first stages of a request, in a state reached
    from the initial one by serving requests. *)
Theorem updateArticle_spec env (next : Context -> World -> Outcome) c w :
  let id := fst (Atoi (Param "id" c)) in
  let input := Body (Req c) in
  (Forall (fun a => ID a <> id) (articles w) ->
   updateArticle env next c w
   = Done (JSON 404 (mkResponse false NoData "" "article not found" "") c) w)
  /\
  (forall a0, a0 ∈ articles w -> ID a0 = id ->
   exists (i : nat) a w',
     articles w !! i = Some a /\ ID a = id
     /\ let a' := mkArticle (ID a) (Title input) (Content input) (Author input)
                            (CreatedAt a) (clock env (ticks w)) in
        updateArticle env next c w
        = Done (JSON 200 (mkResponse true (OneArticle a') "" "" "") c) w'
        /\ articles w' = <[i := a']> (articles w)
        /\ (forall j, j <> i -> articles w' !! j = articles w !! j)
        /\ length (articles w') = length (articles w)
        /\ nextId w' = nextId w
        /\ ID a' = ID a /\ CreatedAt a' = CreatedAt a
        /\ UpdatedAt a' = fst (time_Now env w)
        /\ (increasing env ->
            forall req w0, reachable env w0 -> w = entry_world env req w0 ->
            UpdatedAt a < UpdatedAt a')).
Proof.
  intros id input. split.
  - intros H. apply findArticleByID_None in H. by apply updateArticle_missing.
  - intros a0 Hin Ha0.
    destruct (find_from_shape 0 (articles w) id) as [(a & j & Hf)|Hf].
    2:{ apply find_from_None in Hf. rewrite Forall_forall in Hf.
        exfalso. eapply Hf; [exact Hin | exact Ha0]. }
    pose proof (updateArticle_found env next c w a j Hf) as Hup.
    apply findArticleByID_Some in Hf as (Hj & Hl & Hida).
    exists (Z.to_nat j), a. eexists.
    split; [done|]. split; [done|]. split; [exact Hup|]. simpl.
    split; [reflexivity|].
    split; [intros k Hk; by rewrite list_lookup_insert_ne|].
    split; [by rewrite length_insert|]. repeat split.
    intros Hinc req w0 Hreach Hw.
    assert (Hstamps : stamps_before env w).
    { rewrite Hw. apply entry_world_inv; [done|]. by apply reachable_world_inv. }
    unfold stamps_before in Hstamps. rewrite Forall_forall in Hstamps.
    apply Hstamps. eapply list_elem_of_lookup_2. exact Hl.
Qed.

Lemma updateArticle_spec_witness :
  let req := with_key "user-key-456" "PUT" "/articles/2" (mkArticle 0 "A2" "" "" 0 0) in
  let c := set_params {["id" := "2"]} (new_context req) in
  let w := entry_world example_env req (initial_world example_env) in
  exists (i : nat) a w',
    articles w !! i = Some a /\ ID a = 2
    /\ let a' := mkArticle (ID a) "A2" "" "" (CreatedAt a) 1006 in
       updateArticle example_env (fun c w => Done c w) c w
       = Done (JSON 200 (mkResponse true (OneArticle a') "" "" "") c) w'
       /\ articles w' = <[i := a']> (articles w)
       /\ nextId w' = nextId w
       /\ ID a' = ID a /\ CreatedAt a' = CreatedAt a
       /\ UpdatedAt a < UpdatedAt a'.
Proof.
  intros req c w.
  destruct (proj2 (updateArticle_spec example_env (fun c w => Done c w) c w)
                  (mkArticle 2 "Web Development with Gin" "Gin is a web framework..."
                             "Jane Smith" 1002 1003))
    as (i & a & w' & Hi & Hid & Hup & Ha & _ & _ & Hn & Hida & Hc & _ & Hlater).
  - right. left.
  - reflexivity.
  - exists i, a, w'. split; [exact Hi|]. split; [exact Hid|].
    split; [exact Hup|]. split; [exact Ha|]. split; [exact Hn|].
    split; [exact Hida|]. split; [exact Hc|].
    apply (Hlater ltac:(intros n; simpl; lia) req (initial_world example_env)).
    + by exists [].
    + reflexivity.
Defined.

(** The claim as stated fails: the handler takes the time from the clock,
    and a clock can give the same reading twice. With a clock that stands
    still the stored stamps are its reading, and after a PUT that answers
    200 with the new title the [updated_at] of the article is that reading
    still: refreshed, but not later. *)
Lemma updated_at_is_not_later_when_the_clock_stalls :
  let env := mkEnv (fun _ => 1000) (fun _ => "uuid") Path in
  let put :=
    ServeHTTP env (with_key "admin-key" "PUT" "/articles/2" (mkArticle 0 "A2" "" "" 0 0))
              (initial_world env) in
  map (fun a => (ID a, UpdatedAt a)) (articles (initial_world env)) = [(1, 1000); (2, 1000)]
  /\ status (outcome_context put) = 200
  /\ map Data (envelopes (outcome_context put))
     = [OneArticle (mkArticle 2 "A2" "" "" 1000 1000)]
  /\ map (fun a => (ID a, UpdatedAt a)) (articles (outcome_world put))
     = [(1, 1000); (2, 1000)].
Proof. vm_compute. repeat split. Qed.

(** The example of the spec through the whole chain: a create, then an update
    of the article created, with only a title in the body. The update keeps
    the identifier and [created_at], takes a later [updated_at], and, the
    other fields of the body being empty, empties content and author. *)
Lemma create_then_update_example :
  let w0 := initial_world example_env in
  let created :=
    ServeHTTP example_env
      (with_key "admin-key" "POST" "/articles" (mkArticle 0 "A" "B" "C" 0 0)) w0 in
  let updated :=
    ServeHTTP example_env
      (with_key "admin-key" "PUT" "/articles/3" (mkArticle 0 "A2" "" "" 0 0))
      (outcome_world created) in
  map Data (envelopes (outcome_context created))
  = [OneArticle (mkArticle 3 "A" "B" "C" 1006 1007)]
  /\ status (outcome_context updated) = 200
  /\ map Data (envelopes (outcome_context updated))
     = [OneArticle (mkArticle 3 "A2" "" "" 1006 1011)]
  /\ 1007 < 1011.
Proof. vm_compute. repeat split. Qed.

(** * Every request, every route

    The properties above look at one stage or one handler at a time. What
    follows is about the program as [main] puts it together: what every
    request goes through, what each route answers through the whole chain, how the
    operations on the store compose, and what the mutex gives when handlers
    run at the same time. *)

(** ** Contexts up to the index *)

Lemma incr_index_start c : index c = -1 -> incr_index c = set_index 0 c.
Proof. intros H. unfold incr_index. rewrite H. reflexivity. Qed.

Lemma incr_index_set_index i j c : j = i + 1 -> incr_index (set_index i c) = set_index j c.
Proof. intros ->. reflexivity. Qed.

Lemma set_index_set_index i j c : set_index i (set_index j c) = set_index i c.
Proof. reflexivity. Qed.

Lemma index_set_index i c : index (set_index i c) = i.
Proof. reflexivity. Qed.

Lemma Set_set_index k v i c : Set_ k v (set_index i c) = set_index i (Set_ k v c).
Proof. reflexivity. Qed.

Lemma Header_Set_set_index k v i c :
  Header_Set k v (set_index i c) = set_index i (Header_Set k v c).
Proof. reflexivity. Qed.

Lemma cors_headers_set_index i c : cors_headers (set_index i c) = set_index i (cors_headers c).
Proof.
  unfold cors_headers.
  change (GetHeader "Origin" (set_index i c)) with (GetHeader "Origin" c).
  destruct (default false _); reflexivity.
Qed.

Lemma JSON_set_index code r i c : JSON code r (set_index i c) = set_index i (JSON code r c).
Proof.
  unfold JSON, writeContentType.
  change (Header (Status code (set_index i c))) with (Header (Status code c)).
  destruct (Header (Status code c) !! "Content-Type"); reflexivity.
Qed.

Lemma AbortWithStatusJSON_set_index code r i c :
  AbortWithStatusJSON code r (set_index i c) = set_index abortIndex (JSON code r c).
Proof. unfold AbortWithStatusJSON, Abort. rewrite set_index_set_index. apply JSON_set_index. Qed.

Lemma AbortWithStatus_set_index code i c :
  AbortWithStatus code (set_index i c) = set_index abortIndex (WriteHeaderNow (Status code c)).
Proof. reflexivity. Qed.

Lemma Req_JSON code r c : Req (JSON code r c) = Req c.
Proof.
  unfold JSON, writeContentType.
  destruct (Header (Status code c) !! "Content-Type"); reflexivity.
Qed.

(** The first three stages around the rest of a chain. *)
Lemma recovery_correlation_logging env rest c0 w cR wR :
  index c0 = -1 ->
  Next_loop rest 3 (set_index 3 (correlated_context env c0 w))
            (snd (time_Now env (snd (uuid_New env w)))) = Done cR wR ->
  3 + Z.of_nat (length rest) <= index cR ->
  Next (ErrorHandlerMiddleware :: RequestIDMiddleware env :: LoggingMiddleware env :: rest)
       c0 w
  = Done (set_index (index cR + 3) cR) (logged env (clock env (ticks w)) cR wR).
Proof.
  intros Hidx Hrest Hi. unfold Next. rewrite incr_index_start by done.
  rewrite (Next_loop_step _ _ 0 1) by reflexivity.
  unfold ErrorHandlerMiddleware, CustomRecovery.
  rewrite (incr_index_set_index 0 1) by reflexivity.
  rewrite (Next_loop_step _ _ 1 2) by reflexivity.
  unfold RequestIDMiddleware at 1.
  change (uuid_New env w) with (uuids env (drawn w), snd (uuid_New env w)).
  cbv iota beta.
  rewrite Set_set_index, Header_Set_set_index.
  fold (correlated_context env c0 w).
  rewrite (incr_index_set_index 1 2) by reflexivity.
  rewrite (Next_loop_step _ _ 2 3) by reflexivity.
  unfold LoggingMiddleware at 1.
  change (time_Now env (snd (uuid_New env w)))
    with (clock env (ticks w), snd (time_Now env (snd (uuid_New env w)))).
  cbv iota beta.
  rewrite (incr_index_set_index 2 3) by reflexivity.
  rewrite Hrest.
  change (time_Now env wR) with (clock env (ticks wR), snd (time_Now env wR)).
  cbv iota beta. fold (logged env (clock env (ticks w)) cR wR).
  rewrite Next_loop_skip by (rewrite index_incr_index; lia).
  rewrite Next_loop_skip
    by (rewrite !index_incr_index; cbn [length]; lia).
  rewrite Next_loop_skip
    by (rewrite !index_incr_index; cbn [length]; lia).
  f_equal. unfold incr_index. rewrite !set_index_set_index, !index_set_index.
  f_equal. lia.
Qed.

Lemma length_le_skip (hs : list Handler) pos i :
  (length hs <= 2)%nat -> pos + 2 <= i -> pos + Z.of_nat (length hs) <= i.
Proof. lia. Qed.

(** The stages between logging and the handlers of the route. *)
Lemma stages_preflight env hs X w :
  String.eqb (Method (Req X)) "OPTIONS" = true -> (length hs <= 2)%nat ->
  Next_loop (CORSMiddleware :: RateLimitMiddleware env :: ContentTypeMiddleware :: hs)
            3 (set_index 3 X) w
  = Done (set_index 64 (WriteHeaderNow (Status 204 (cors_headers X)))) w.
Proof.
  intros Hopt Hlen.
  rewrite (Next_loop_step _ _ 3 4) by reflexivity.
  rewrite CORSMiddleware_unfold.
  change (Req (set_index 3 X)) with (Req X). rewrite Hopt.
  rewrite cors_headers_set_index, AbortWithStatus_set_index.
  rewrite (incr_index_set_index abortIndex 64) by reflexivity.
  apply Next_loop_skip. rewrite index_set_index. cbn [length]. lia.
Qed.

Lemma stages_limited env hs X w :
  String.eqb (Method (Req X)) "OPTIONS" = false ->
  fst (rate_check env (ClientIP (Req X)) w) = false -> (length hs <= 2)%nat ->
  Next_loop (CORSMiddleware :: RateLimitMiddleware env :: ContentTypeMiddleware :: hs)
            3 (set_index 3 X) w
  = Done (set_index 65
            (JSON 429 (mkResponse false NoData "" "too many requests, limit exceeded"
                                  (GetString "request_id" X))
                  (Header_Set "X-RateLimit-Limit" "100" (cors_headers X))))
         (snd (rate_check env (ClientIP (Req X)) w)).
Proof.
  intros Hopt Hadm Hlen.
  rewrite (Next_loop_step _ _ 3 4) by reflexivity.
  rewrite CORSMiddleware_unfold.
  change (Req (set_index 3 X)) with (Req X). rewrite Hopt.
  rewrite cors_headers_set_index.
  rewrite (incr_index_set_index 3 4) by reflexivity.
  rewrite (Next_loop_step _ _ 4 5) by reflexivity.
  rewrite RateLimitMiddleware_unfold. cbv zeta.
  rewrite Req_set_index, Req_cors_headers, Hadm.
  rewrite Header_Set_set_index, AbortWithStatusJSON_set_index.
  assert (Hg : GetString "request_id"
                 (set_index 4 (Header_Set "X-RateLimit-Limit" "100" (cors_headers X)))
               = GetString "request_id" X).
  { unfold GetString, cors_headers. destruct (default false _); reflexivity. }
  rewrite Hg.
  rewrite (incr_index_set_index abortIndex 64) by reflexivity.
  rewrite Next_loop_skip by (rewrite index_set_index; cbn [length]; lia).
  rewrite (incr_index_set_index 64 65) by reflexivity.
  apply Next_loop_skip. rewrite index_set_index. cbn [length]. lia.
Qed.

Lemma stages_unsupported env hs X w :
  String.eqb (Method (Req X)) "OPTIONS" = false ->
  fst (rate_check env (ClientIP (Req X)) w) = true ->
  content_type_ok (Req X) = false -> (length hs <= 2)%nat ->
  Next_loop (CORSMiddleware :: RateLimitMiddleware env :: ContentTypeMiddleware :: hs)
            3 (set_index 3 X) w
  = Done (set_index 66
            (JSON 415 (mkResponse false NoData "" "Content type must be application/json"
                                  (GetString "request_id" X))
                  (Header_Set "X-RateLimit-Limit" "100" (cors_headers X))))
         (snd (rate_check env (ClientIP (Req X)) w)).
Proof.
  intros Hopt Hadm Hct Hlen.
  rewrite (Next_loop_step _ _ 3 4) by reflexivity.
  rewrite CORSMiddleware_unfold.
  change (Req (set_index 3 X)) with (Req X). rewrite Hopt.
  rewrite cors_headers_set_index.
  rewrite (incr_index_set_index 3 4) by reflexivity.
  rewrite (Next_loop_step _ _ 4 5) by reflexivity.
  rewrite RateLimitMiddleware_unfold. cbv zeta.
  rewrite Req_set_index, Req_cors_headers, Hadm.
  rewrite Header_Set_set_index.
  rewrite (incr_index_set_index 4 5) by reflexivity.
  rewrite (Next_loop_step _ _ 5 6) by reflexivity.
  unfold ContentTypeMiddleware at 1.
  unfold content_type_ok in Hct. apply negb_false_iff in Hct.
  unfold GetHeader at 1.
  rewrite Req_set_index, Req_Header_Set, Req_cors_headers, Hct.
  rewrite AbortWithStatusJSON_set_index.
  assert (Hg : GetString "request_id"
                 (set_index 5 (Header_Set "X-RateLimit-Limit" "100" (cors_headers X)))
               = GetString "request_id" X).
  { unfold GetString, cors_headers. destruct (default false _); reflexivity. }
  rewrite Hg.
  rewrite (incr_index_set_index abortIndex 64) by reflexivity.
  rewrite Next_loop_skip by (rewrite index_set_index; cbn [length]; lia).
  rewrite (incr_index_set_index 64 65) by reflexivity.
  rewrite Next_loop_skip by (rewrite index_set_index; cbn [length]; lia).
  rewrite (incr_index_set_index 65 66) by reflexivity.
  apply Next_loop_skip. rewrite index_set_index. cbn [length]. lia.
Qed.

Lemma stages_pass env hs X w c' w' :
  String.eqb (Method (Req X)) "OPTIONS" = false ->
  fst (rate_check env (ClientIP (Req X)) w) = true ->
  content_type_ok (Req X) = true ->
  Next_loop hs 6 (set_index 6 (Header_Set "X-RateLimit-Limit" "100" (cors_headers X)))
            (snd (rate_check env (ClientIP (Req X)) w)) = Done c' w' ->
  6 + Z.of_nat (length hs) <= index c' ->
  Next_loop (CORSMiddleware :: RateLimitMiddleware env :: ContentTypeMiddleware :: hs)
            3 (set_index 3 X) w
  = Done (set_index (index c' + 3) c') w'.
Proof.
  intros Hopt Hadm Hct Hhs Hi.
  rewrite (Next_loop_step _ _ 3 4) by reflexivity.
  rewrite CORSMiddleware_unfold.
  change (Req (set_index 3 X)) with (Req X). rewrite Hopt.
  rewrite cors_headers_set_index.
  rewrite (incr_index_set_index 3 4) by reflexivity.
  rewrite (Next_loop_step _ _ 4 5) by reflexivity.
  rewrite RateLimitMiddleware_unfold. cbv zeta.
  rewrite Req_set_index, Req_cors_headers, Hadm.
  rewrite Header_Set_set_index.
  rewrite (incr_index_set_index 4 5) by reflexivity.
  rewrite (Next_loop_step _ _ 5 6) by reflexivity.
  unfold ContentTypeMiddleware at 1.
  unfold content_type_ok in Hct. apply negb_true_iff in Hct.
  unfold GetHeader at 1.
  rewrite Req_set_index, Req_Header_Set, Req_cors_headers, Hct.
  rewrite (incr_index_set_index 5 6) by reflexivity.
  rewrite Hhs.
  rewrite Next_loop_skip by (rewrite index_incr_index; lia).
  rewrite Next_loop_skip by (rewrite !index_incr_index; cbn [length]; lia).
  rewrite Next_loop_skip by (rewrite !index_incr_index; cbn [length]; lia).
  f_equal. unfold incr_index. rewrite !set_index_set_index, !index_set_index.
  f_equal. lia.
Qed.

(** ** Through the six global stages *)

Lemma logged_set_index env start i c w :
  logged env start (set_index i c) w = logged env start c w.
Proof. reflexivity. Qed.

Lemma length_global_tail (hs : list Handler) (env : Env) :
  length (CORSMiddleware :: RateLimitMiddleware env :: ContentTypeMiddleware :: hs)
  = S (S (S (length hs))).
Proof. reflexivity. Qed.

Lemma GetString_correlated env c0 w :
  GetString "request_id" (correlated_context env c0 w) = uuids env (drawn w).
Proof. unfold GetString, correlated_context. cbn [Keys Header_Set Set_]. by rewrite lookup_insert_eq. Qed.

Lemma Req_correlated env c0 w : Req (correlated_context env c0 w) = Req c0.
Proof. reflexivity. Qed.

Lemma chain_preflight env hs c0 w :
  index c0 = -1 -> (length hs <= 2)%nat ->
  String.eqb (Method (Req c0)) "OPTIONS" = true ->
  let cR := WriteHeaderNow (Status 204 (cors_headers (correlated_context env c0 w))) in
  Next (global_middleware env ++ hs) c0 w
  = Done (set_index 67 cR)
         (logged env (clock env (ticks w)) cR (snd (time_Now env (snd (uuid_New env w))))).
Proof.
  intros Hidx Hlen Hopt cR. unfold global_middleware. cbn [app].
  rewrite (recovery_correlation_logging env _ c0 w (set_index 64 cR)
             (snd (time_Now env (snd (uuid_New env w)))) Hidx).
  - rewrite set_index_set_index, index_set_index, logged_set_index. reflexivity.
  - exact (stages_preflight env hs (correlated_context env c0 w) _ Hopt Hlen).
  - rewrite index_set_index, length_global_tail. lia.
Qed.

Lemma chain_limited env hs c0 w :
  index c0 = -1 -> (length hs <= 2)%nat ->
  String.eqb (Method (Req c0)) "OPTIONS" = false ->
  admitted env (Req c0) w = false ->
  let cR := JSON 429 (mkResponse false NoData "" "too many requests, limit exceeded"
                                 (uuids env (drawn w)))
                 (checked_context env c0 w) in
  Next (global_middleware env ++ hs) c0 w
  = Done (set_index 68 cR) (logged env (clock env (ticks w)) cR (entry_world env (Req c0) w)).
Proof.
  intros Hidx Hlen Hopt Hadm cR. unfold global_middleware. cbn [app].
  rewrite (recovery_correlation_logging env _ c0 w (set_index 65 cR)
             (entry_world env (Req c0) w) Hidx).
  - rewrite set_index_set_index, index_set_index, logged_set_index. reflexivity.
  - rewrite (stages_limited env hs (correlated_context env c0 w) _ Hopt Hadm Hlen).
    rewrite GetString_correlated. reflexivity.
  - rewrite index_set_index, length_global_tail. lia.
Qed.

Lemma chain_unsupported env hs c0 w :
  index c0 = -1 -> (length hs <= 2)%nat ->
  String.eqb (Method (Req c0)) "OPTIONS" = false ->
  admitted env (Req c0) w = true ->
  content_type_ok (Req c0) = false ->
  let cR := JSON 415 (mkResponse false NoData "" "Content type must be application/json"
                                 (uuids env (drawn w)))
                 (checked_context env c0 w) in
  Next (global_middleware env ++ hs) c0 w
  = Done (set_index 69 cR) (logged env (clock env (ticks w)) cR (entry_world env (Req c0) w)).
Proof.
  intros Hidx Hlen Hopt Hadm Hct cR. unfold global_middleware. cbn [app].
  rewrite (recovery_correlation_logging env _ c0 w (set_index 66 cR)
             (entry_world env (Req c0) w) Hidx).
  - rewrite set_index_set_index, index_set_index, logged_set_index. reflexivity.
  - rewrite (stages_unsupported env hs (correlated_context env c0 w) _ Hopt Hadm Hct Hlen).
    rewrite GetString_correlated. reflexivity.
  - rewrite index_set_index, length_global_tail. lia.
Qed.

Lemma chain_pass env hs c0 w c' w' :
  index c0 = -1 ->
  String.eqb (Method (Req c0)) "OPTIONS" = false ->
  admitted env (Req c0) w = true ->
  content_type_ok (Req c0) = true ->
  Next_loop hs 6 (set_index 6 (checked_context env c0 w)) (entry_world env (Req c0) w)
  = Done c' w' ->
  6 + Z.of_nat (length hs) <= index c' ->
  Next (global_middleware env ++ hs) c0 w
  = Done (set_index (index c' + 6) c') (logged env (clock env (ticks w)) c' w').
Proof.
  intros Hidx Hopt Hadm Hct Hhs Hi. unfold global_middleware. cbn [app].
  rewrite (recovery_correlation_logging env _ c0 w (set_index (index c' + 3) c') w' Hidx).
  - rewrite set_index_set_index, index_set_index, logged_set_index.
    do 2 f_equal. lia.
  - exact (stages_pass env hs (correlated_context env c0 w) _ _ _ Hopt Hadm Hct Hhs Hi).
  - rewrite index_set_index, length_global_tail. lia.
Qed.

(** ** The handlers of the routes *)

Lemma Params_JSON code obj c : Params (JSON code obj c) = Params c.
Proof.
  unfold JSON, writeContentType.
  destruct (Header (Status code c) !! "Content-Type"); reflexivity.
Qed.

Lemma frame_JSON code r c w w' :
  written c = false -> code ∈ handler_statuses ->
  visitors w' = visitors w -> logs w' = logs w -> drawn w' = drawn w ->
  (ticks w <= ticks w' <= ticks w + 2)%nat ->
  (nextId w' = nextId w \/ nextId w' = wrap_int (nextId w + 1)) ->
  frame c w (JSON code r c) w'.
Proof.
  intros Hw Hc Hv Hl Hd Ht Hn. unfold frame.
  rewrite Req_JSON, Params_JSON, Keys_JSON, index_JSON, body_JSON, written_JSON.
  repeat split; try done.
  - intros k Hk. by apply Header_JSON.
  - rewrite status_JSON; [done | done |].
    unfold handler_statuses in Hc.
    repeat (apply elem_of_cons in Hc as [->|Hc]; [lia|]). by apply elem_of_nil in Hc.
  - eauto.
  - lia.
  - lia.
Qed.

Ltac frame_here :=
  apply frame_JSON; try done; try lia; try (by left);
  unfold handler_statuses; repeat (first [by left | right]).

Lemma terminal_ping : terminal ping.
Proof.
  intros c w Hw. eexists _, w. split; [intros next; reflexivity|]. frame_here.
Qed.

Lemma terminal_getArticles : terminal getArticles.
Proof.
  intros c w Hw. eexists _, w. split; [intros next; reflexivity|]. frame_here.
Qed.

Lemma terminal_getArticleById : terminal getArticleById.
Proof.
  intros c w Hw. unfold getArticleById.
  destruct (Atoi (Param "id" c)) as [id e].
  destruct (findArticleByID (articles w) id) as [[a|] j];
    eexists _, w; (split; [intros next; reflexivity|]); frame_here.
Qed.

Lemma terminal_getStats : terminal getStats.
Proof.
  intros c w Hw. unfold getStats.
  destruct (negb _); eexists _, w; (split; [intros next; reflexivity|]); frame_here.
Qed.

Lemma terminal_createArticle env : terminal (createArticle env).
Proof.
  intros c w Hw.
  destruct (BodyErr (Req c)) as [err|] eqn:Hb.
  { eexists _, w. split; [intros next; by apply createArticle_bind_error|]. frame_here. }
  destruct (validateArticle (Body (Req c))) as [err|] eqn:Hv.
  { eexists _, w. split; [intros next; by apply createArticle_invalid|]. frame_here. }
  eexists _, _. split; [intros next; by apply createArticle_ok|].
  apply frame_JSON; try done; cbn [ticks nextId]; try lia; try (by right).
  unfold handler_statuses. right. by left.
Qed.

Lemma terminal_updateArticle env : terminal (updateArticle env).
Proof.
  intros c w Hw.
  destruct (find_from_shape 0 (articles w) (fst (Atoi (Param "id" c))))
    as [(a & j & Hf)|Hf].
  - eexists _, _. split; [intros next; by apply (updateArticle_found _ _ _ _ a j)|].
    apply frame_JSON; try done; cbn [ticks nextId]; try lia; try (by left).
  - eexists _, w. split; [intros next; by apply updateArticle_missing|]. frame_here.
Qed.

Lemma terminal_deleteArticle : terminal deleteArticle.
Proof.
  intros c w Hw.
  destruct (find_from_shape 0 (articles w) (fst (Atoi (Param "id" c))))
    as [(a & j & Hf)|Hf].
  - eexists _, _. split; [intros next; by apply (deleteArticle_found _ _ _ a j)|].
    apply frame_JSON; try done; cbn [ticks nextId set_articles]; try lia; try (by left).
  - eexists _, w. split; [intros next; by apply deleteArticle_missing|]. frame_here.
Qed.

Lemma reader_ping : reader ping.
Proof. intros next c w. by split. Qed.
Lemma reader_getArticles : reader getArticles.
Proof. intros next c w. by split. Qed.
Lemma reader_getArticleById : reader getArticleById.
Proof.
  intros next c w. unfold getArticleById.
  destruct (Atoi _), (findArticleByID _ _) as [[a|] j]; by split.
Qed.
Lemma reader_getStats : reader getStats.
Proof. intros next c w. unfold getStats. destruct (negb _); by split. Qed.

Lemma tail_public h X w :
  terminal h -> written X = false ->
  exists c' w', (forall next, h next (set_index 6 X) w = Done c' w')
    /\ frame (set_index 6 X) w c' w'
    /\ Next_loop [h] 6 (set_index 6 X) w = Done (set_index 7 c') w'.
Proof.
  intros Hh Hw. destruct (Hh (set_index 6 X) w Hw) as (c' & w' & Hrun & Hf).
  exists c', w'. split; [exact Hrun|]. split; [exact Hf|].
  rewrite (Next_loop_step _ _ 6 7) by reflexivity.
  rewrite Hrun. cbn [Next_loop].
  destruct Hf as (_ & _ & _ & Hi & _). unfold incr_index. rewrite Hi.
  reflexivity.
Qed.

Lemma tail_protected_ok h X w role :
  terminal h -> written X = false ->
  apiKeys !! GetHeader "X-API-Key" X = Some role ->
  exists c' w', (forall next, h next (set_index 7 (Set_ "role" role X)) w = Done c' w')
    /\ frame (set_index 7 (Set_ "role" role X)) w c' w'
    /\ Next_loop [AuthMiddleware; h] 6 (set_index 6 X) w = Done (set_index 9 c') w'.
Proof.
  intros Hh Hw Hk.
  destruct (Hh (set_index 7 (Set_ "role" role X)) w Hw) as (c' & w' & Hrun & Hf).
  exists c', w'. split; [exact Hrun|]. split; [exact Hf|].
  pose proof Hf as (_ & _ & _ & Hi & _).
  rewrite (auth_pass h (set_index 6 X) w role c' w'); try done.
  unfold incr_index. rewrite set_index_set_index, index_set_index, Hi. reflexivity.
Qed.

Lemma tail_protected_denied (h : Handler) X w :
  apiKeys !! GetHeader "X-API-Key" X = None ->
  Next_loop [AuthMiddleware; h] 6 (set_index 6 X) w
  = Done (set_index 65
            (Set_ "role" ""
               (JSON 401 (mkResponse false NoData "" "invalid or missing API key"
                                     (GetString "request_id" X)) X))) w.
Proof.
  intros Hk.
  rewrite (Next_loop_step _ _ 6 7) by reflexivity.
  unfold AuthMiddleware at 1.
  change (GetHeader "X-API-Key" (set_index 6 X)) with (GetHeader "X-API-Key" X).
  rewrite Hk. rewrite bool_decide_false by (by intros [? ?]).
  cbn [negb default from_option].
  change (GetString "request_id" (set_index 6 X)) with (GetString "request_id" X).
  rewrite AbortWithStatusJSON_set_index, Set_set_index.
  rewrite (incr_index_set_index abortIndex 64) by reflexivity.
  rewrite Next_loop_skip by (rewrite index_set_index; cbn [length]; lia).
  rewrite (incr_index_set_index 64 65) by reflexivity.
  apply Next_loop_skip. rewrite index_set_index. cbn [length]. lia.
Qed.

(** ** Every request *)

Lemma start_context_facts env req :
  let c0 := start_context env req in
  index c0 = -1 /\ Req c0 = req /\ written c0 = false /\ Header c0 = ∅
  /\ Keys c0 = ∅ /\ body c0 = [].
Proof. unfold start_context. destruct (find_route _ _ _) as [[hs ps]|]; done. Qed.

Lemma ServeHTTP_written env req w cN wN :
  redirected env req = false ->
  Next (global_middleware env ++ route_chain env req) (start_context env req) w = Done cN wN ->
  written cN = true ->
  ServeHTTP env req w = Done cN wN.
Proof.
  intros Hdirect. rewrite ServeHTTP_not_redirected by done.
  unfold route_chain, start_context, serveError.
  destruct (find_route _ _ _) as [[hs ps]|]; [done|].
  rewrite app_nil_r. cbn [Req Params Keys Header written body index new_context].
  intros -> ->. reflexivity.
Qed.

Lemma ServeHTTP_unwritten env req w cN wN :
  redirected env req = false ->
  find_route (Method req) (Path req) (routes env) = None ->
  Next (global_middleware env ++ route_chain env req) (start_context env req) w = Done cN wN ->
  written cN = false -> status cN = 404 ->
  ServeHTTP env req w
  = Done (Write (WText default404Body) (Header_Set "Content-Type" "text/plain" cN)) wN.
Proof.
  intros Hdirect. rewrite ServeHTTP_not_redirected by done.
  unfold route_chain, start_context, serveError. intros ->.
  rewrite app_nil_r. cbn [Req Params Keys Header written body index new_context].
  intros -> -> ->. reflexivity.
Qed.

Lemma find_route_method method path rs hs ps :
  find_route method path rs = Some (hs, ps) ->
  exists r, r ∈ rs /\ hs = route_handlers r /\ route_method r = method.
Proof.
  induction rs as [|r rs IH]; simpl; [discriminate|].
  destruct (String.eqb_spec (route_method r) method) as [E|E].
  - destruct (match_segments _ _) as [ps'|].
    + intros [= <- <-]. exists r. split; [left | done].
    + intros H. apply IH in H as (r' & Hin & -> & Hm). exists r'.
      split; [by right | done].
  - intros H. apply IH in H as (r' & Hin & -> & Hm). exists r'.
    split; [by right | done].
Qed.

Lemma routes_shape env r :
  r ∈ routes env ->
  (exists h, route_handlers r = [h] /\ terminal h /\ reader h)
  \/ (exists h, route_handlers r = [AuthMiddleware; h] /\ terminal h
        /\ (reader h \/ route_method r ∈ write_methods)).
Proof.
  unfold routes, public_routes, protected_routes. cbn [app]. intros H.
  repeat (apply elem_of_cons in H as [->|H]); [..|by apply elem_of_nil in H].
  - left. eexists. split; [reflexivity|].
    split; [apply terminal_ping | apply reader_ping].
  - left. eexists. split; [reflexivity|].
    split; [apply terminal_getArticles | apply reader_getArticles].
  - left. eexists. split; [reflexivity|].
    split; [apply terminal_getArticleById | apply reader_getArticleById].
  - right. eexists. split; [reflexivity|]. split; [apply terminal_createArticle|].
    right. cbn. by left.
  - right. eexists. split; [reflexivity|]. split; [apply terminal_updateArticle|].
    right. cbn. right. by left.
  - right. eexists. split; [reflexivity|]. split; [apply terminal_deleteArticle|].
    right. cbn. right. right. by left.
  - right. eexists. split; [reflexivity|]. split; [apply terminal_getStats|].
    left. apply reader_getStats.
Qed.

Lemma route_chain_shape env req :
  route_chain env req = []
  /\ find_route (Method req) (Path req) (routes env) = None
  \/ (exists h, route_chain env req = [h] /\ terminal h /\ reader h)
  \/ (exists h, route_chain env req = [AuthMiddleware; h] /\ terminal h
        /\ (reader h \/ Method req ∈ write_methods)).
Proof.
  unfold route_chain.
  destruct (find_route _ _ _) as [[hs ps]|] eqn:Hf; [|by left].
  right. apply find_route_method in Hf as (r & Hr & -> & <-).
  by apply (routes_shape env).
Qed.

Lemma rate_check_world env ip w :
  let w' := snd (rate_check env ip w) in
  articles w' = articles w /\ nextId w' = nextId w /\ logs w' = logs w
  /\ drawn w' = drawn w /\ ticks w' = S (ticks w)
  /\ is_Some (visitors w' !! ip)
  /\ (forall ip', ip' <> ip -> visitors w' !! ip' = visitors w !! ip')
  /\ (forall ip', is_Some (visitors w !! ip') -> is_Some (visitors w' !! ip')).
Proof.
  unfold rate_check, getLimiter, Allow.
  destruct (visitors w !! ip) as [l|] eqn:Hl; cbn -[Allow_at NewLimiter];
    match goal with |- context [Allow_at ?t ?l] => destruct (Allow_at t l) as [ok l'] end;
    cbn -[NewLimiter]; repeat split;
    try (rewrite lookup_insert_eq; eauto; fail).
  - intros ip' Hne. by rewrite lookup_insert_ne.
  - intros ip' Hs. destruct (decide (ip = ip')) as [->|Hne].
    + rewrite lookup_insert_eq; eauto.
    + by rewrite lookup_insert_ne.
  - intros ip' Hne. by rewrite !lookup_insert_ne.
  - intros ip' Hs. destruct (decide (ip = ip')) as [->|Hne].
    + rewrite lookup_insert_eq; eauto.
    + by rewrite !lookup_insert_ne.
Qed.

Lemma Keys_cors_headers c : Keys (cors_headers c) = Keys c.
Proof. unfold cors_headers. destruct (default false _); reflexivity. Qed.

Lemma status_cors_headers c : status (cors_headers c) = status c.
Proof. unfold cors_headers. destruct (default false _); reflexivity. Qed.

Lemma Header_cors_correlated env c0 req w :
  Req c0 = req -> Header c0 = ∅ ->
  Header (cors_headers (correlated_context env c0 w)) = base_headers env req w.
Proof.
  intros Hr Hh. unfold base_headers, cors_headers, correlated_context, GetHeader.
  cbn [Req Header_Set Set_ new_context]. rewrite Hr.
  destruct (default false _); cbn [Header Header_Set Set_ new_context]; by rewrite Hh.
Qed.

Lemma entry_world_facts env req w :
  let w' := entry_world env req w in
  articles w' = articles w /\ nextId w' = nextId w /\ logs w' = logs w
  /\ drawn w' = S (drawn w) /\ ticks w' = S (S (ticks w))
  /\ is_Some (visitors w' !! ClientIP req)
  /\ (forall ip', ip' <> ClientIP req -> visitors w' !! ip' = visitors w !! ip')
  /\ (forall ip', is_Some (visitors w !! ip') -> is_Some (visitors w' !! ip')).
Proof.
  unfold entry_world.
  pose proof (rate_check_world env (ClientIP req)
                (snd (time_Now env (snd (uuid_New env w))))) as H.
  cbv zeta in H. exact H.
Qed.

Lemma Keys_Header_Set k v c : Keys (Header_Set k v c) = Keys c.
Proof. reflexivity. Qed.
Lemma Keys_set_index i c : Keys (set_index i c) = Keys c.
Proof. reflexivity. Qed.
Lemma Keys_Set k v c : Keys (Set_ k v c) = <[k := v]> (Keys c).
Proof. reflexivity. Qed.
Lemma Header_Header_Set k v c : Header (Header_Set k v c) = <[k := v]> (Header c).
Proof. reflexivity. Qed.
Lemma Header_of_Set k v c : Header (Set_ k v c) = Header c.
Proof. reflexivity. Qed.
Lemma status_Set k v c : status (Set_ k v c) = status c.
Proof. reflexivity. Qed.
Lemma status_Header_Set k v c : status (Header_Set k v c) = status c.
Proof. reflexivity. Qed.
Lemma Header_set_index i c : Header (set_index i c) = Header c.
Proof. reflexivity. Qed.
Lemma Params_set_index i c : Params (set_index i c) = Params c.
Proof. reflexivity. Qed.

Lemma outline_checked env req w c0 cR wR cF :
  Req c0 = req -> Header c0 = ∅ ->
  Method req <> "OPTIONS" ->
  tail_frame (checked_context env c0 w) (entry_world env req w) cR wR ->
  status cF = status cR -> written cF = true ->
  (forall k, k <> "Content-Type" -> Header cF !! k = Header cR !! k) ->
  (Method req ∉ write_methods \/ apiKeys !! api_key req = None ->
   store_kept (entry_world env req w) wR) ->
  outline env req w cR wR cF.
Proof.
  intros Hr0 Hh0 Hopt (HReq & HKeys & HHdr & Hst & Hv & Hl & Hd & Ht & Hn) HstF HwF HhF Hstore.
  destruct (entry_world_facts env req w) as (Ea & En & El & Ed & Et & Es & Evn & Evs).
  unfold outline.
  split. { rewrite HReq. unfold checked_context.
           by rewrite Req_Header_Set, Req_cors_headers, Req_correlated. }
  split. { unfold GetString. rewrite HKeys by done. unfold checked_context.
           rewrite Keys_Header_Set, Keys_cors_headers.
           apply (GetString_correlated env c0 w). }
  split; [exact HstF|]. split; [exact Hst|]. split; [exact HwF|].
  split. { intros k Hk1 Hk2. rewrite HhF, HHdr by done. unfold checked_context.
           rewrite Header_Header_Set, lookup_insert_ne by done.
           by rewrite (Header_cors_correlated env _ req). }
  split. { intros _. split.
           - rewrite HhF, HHdr by done. unfold checked_context.
             rewrite Header_Header_Set. by rewrite lookup_insert_eq.
           - by rewrite Hv. }
  split; [congruence|]. split; [congruence|]. split; [lia|].
  split. { intros ip Hip. rewrite Hv. by apply Evn. }
  split. { intros ip Hip. rewrite Hv. by apply Evs. }
  split. { intros Hc. destruct (Hstore Hc) as [Sa Sn]. split; congruence. }
  by rewrite <- En.
Qed.

Lemma written_checked env c0 w : written (checked_context env c0 w) = written c0.
Proof. unfold checked_context. by rewrite written_Header_Set, written_cors_headers. Qed.

Lemma status_checked env c0 w : status (checked_context env c0 w) = status c0.
Proof. unfold checked_context. cbn [status Header_Set]. by rewrite status_cors_headers. Qed.

Lemma tail_frame_JSON code r c w :
  written c = false -> 0 < code -> code ∈ all_statuses ->
  tail_frame c w (JSON code r c) w.
Proof.
  intros Hw Hc Hin. unfold tail_frame.
  rewrite Req_JSON, Keys_JSON, status_JSON by done.
  repeat split; try done; try lia.
  intros k Hk. by apply Header_JSON.
Qed.

Lemma tail_frame_of_frame c w c' w' :
  frame c w c' w' -> tail_frame c w c' w'.
Proof.
  intros (HR & HP & HK & HI & HH & HW & HS & HB & Hv & Hl & Hd & Ht & Hn).
  unfold tail_frame. rewrite HR, HK. repeat split; try done; try lia.
  unfold handler_statuses in HS. unfold all_statuses.
  repeat (apply elem_of_cons in HS as [->|HS]; [repeat (first [by left | right])|]).
  by apply elem_of_nil in HS.
Qed.

Lemma tail_frame_of_frame_role role c w c' w' :
  frame (set_index 7 (Set_ "role" role c)) w c' w' -> tail_frame c w c' w'.
Proof.
  intros H. apply tail_frame_of_frame in H.
  destruct H as (HR & HK & HH & HS & Hv & Hl & Hd & Ht & Hn).
  unfold tail_frame. repeat split; try done; try lia.
  intros k Hk. rewrite HK by done. rewrite Keys_set_index, Keys_Set.
  by rewrite lookup_insert_ne.
Qed.

Lemma in_all_statuses code :
  code ∈ all_statuses <->
  code = 200 \/ code = 201 \/ code = 204 \/ code = 400 \/ code = 401 \/ code = 403
  \/ code = 404 \/ code = 415 \/ code = 429.
Proof.
  unfold all_statuses. rewrite !elem_of_cons, elem_of_nil. tauto.
Qed.

Lemma preflight_context_facts env req w c0 :
  Req c0 = req -> Header c0 = ∅ -> written c0 = false ->
  status c0 = 200 \/ status c0 = 404 ->
  let cR := WriteHeaderNow (Status 204 (cors_headers (correlated_context env c0 w))) in
  Req cR = req /\ Keys cR = Keys (correlated_context env c0 w) /\ status cR = 204
  /\ Header cR = base_headers env req w /\ written cR = true /\ body cR = body c0.
Proof.
  intros Hr0 Hh0 Hw0 Hst0 cR. subst cR.
  split. { change (Req (WriteHeaderNow ?c)) with (Req c).
           change (Req (Status 204 ?c)) with (Req c).
           by rewrite Req_cors_headers, Req_correlated. }
  split. { change (Keys (WriteHeaderNow ?c)) with (Keys c).
           change (Keys (Status 204 ?c)) with (Keys c). apply Keys_cors_headers. }
  split. { change (status (WriteHeaderNow ?c)) with (status c).
           unfold Status at 1. cbn [status].
           rewrite status_cors_headers, written_cors_headers.
           change (status (correlated_context env c0 w)) with (status c0).
           change (written (correlated_context env c0 w)) with (written c0).
           rewrite Hw0. destruct Hst0 as [->| ->]; reflexivity. }
  split. { change (Header (WriteHeaderNow ?c)) with (Header c).
           change (Header (Status 204 ?c)) with (Header c).
           by apply Header_cors_correlated. }
  split; [reflexivity|].
  change (body (WriteHeaderNow ?c)) with (body c).
  change (body (Status 204 ?c)) with (body c).
  by rewrite body_cors_headers.
Qed.

Lemma outline_preflight env req w c0 :
  Req c0 = req -> Header c0 = ∅ -> written c0 = false ->
  status c0 = 200 \/ status c0 = 404 ->
  Method req = "OPTIONS" ->
  let cR := WriteHeaderNow (Status 204 (cors_headers (correlated_context env c0 w))) in
  outline env req w cR (snd (time_Now env (snd (uuid_New env w)))) (set_index 67 cR).
Proof.
  intros Hr0 Hh0 Hw0 Hst0 Hopt cR.
  destruct (preflight_context_facts env req w c0 Hr0 Hh0 Hw0 Hst0)
    as (HR & HK & HS & HH & HW & _).
  fold cR in HR, HK, HS, HH, HW. clearbody cR. unfold outline.
  split; [exact HR|].
  split. { unfold GetString. rewrite HK. apply (GetString_correlated env c0 w). }
  split; [apply status_set_index|].
  split. { rewrite HS. apply in_all_statuses. tauto. }
  split; [by rewrite written_set_index|].
  split. { intros k _ _. by rewrite Header_set_index, HH. }
  split; [done|].
  repeat split; try done; simpl; lia.
Qed.

Lemma outline_rejected env req w c0 code r i :
  Req c0 = req -> Header c0 = ∅ -> written c0 = false ->
  Method req <> "OPTIONS" -> 0 < code -> code ∈ all_statuses ->
  let cR := JSON code r (checked_context env c0 w) in
  outline env req w cR (entry_world env req w) (set_index i cR).
Proof.
  intros Hr0 Hh0 Hw0 Hopt Hpos Hcode cR.
  apply (outline_checked env req w c0); try assumption.
  - apply tail_frame_JSON; [by rewrite written_checked | done | done].
  - apply status_set_index.
  - rewrite written_set_index. apply written_JSON.
  - intros k Hk. by rewrite Header_set_index.
  - intros _. by split.
Qed.

Lemma outline_unrouted env req w c0 i :
  Req c0 = req -> Header c0 = ∅ -> status c0 = 404 ->
  Method req <> "OPTIONS" ->
  let cR := set_index 6 (checked_context env c0 w) in
  outline env req w cR (entry_world env req w)
    (Write (WText default404Body) (Header_Set "Content-Type" "text/plain" (set_index i cR))).
Proof.
  intros Hr0 Hh0 Hs0 Hopt cR.
  apply (outline_checked env req w c0); try assumption.
  - unfold tail_frame. subst cR.
    rewrite Req_set_index, Keys_set_index, Header_set_index, status_set_index,
      status_checked, Hs0.
    repeat split; try reflexivity; try lia. apply in_all_statuses. tauto.
  - reflexivity.
  - reflexivity.
  - intros k Hk. change (Header (Write ?d ?c)) with (Header c).
    rewrite Header_Header_Set, lookup_insert_ne by done.
    by rewrite Header_set_index.
  - intros _. by split.
Qed.

Lemma outline_denied env req w c0 r i :
  Req c0 = req -> Header c0 = ∅ -> written c0 = false ->
  Method req <> "OPTIONS" ->
  let cR := set_index 65 (Set_ "role" "" (JSON 401 r (checked_context env c0 w))) in
  outline env req w cR (entry_world env req w) (set_index i cR).
Proof.
  intros Hr0 Hh0 Hw0 Hopt cR.
  apply (outline_checked env req w c0); try assumption.
  - pose proof (tail_frame_JSON 401 r (checked_context env c0 w) (entry_world env req w))
      as Hf.
    destruct Hf as (HR & HK & HH & HS & Hv & Hl & Hd & Ht & Hn);
      [by rewrite written_checked | done | apply in_all_statuses; tauto|].
    unfold tail_frame. subst cR.
    rewrite Req_set_index, Req_Set, Keys_set_index, Keys_Set, Header_set_index,
      Header_of_Set, status_set_index, status_Set.
    repeat split; try done; try lia.
    intros k Hkk. rewrite lookup_insert_ne by done. by apply HK.
  - apply status_set_index.
  - subst cR. rewrite !written_set_index, written_Set. apply written_JSON.
  - intros k Hk. by rewrite Header_set_index.
  - intros _. by split.
Qed.

Lemma outline_handled env req w c0 c' w' i :
  Req c0 = req -> Header c0 = ∅ ->
  Method req <> "OPTIONS" ->
  tail_frame (checked_context env c0 w) (entry_world env req w) c' w' ->
  written c' = true ->
  (Method req ∉ write_methods \/ apiKeys !! api_key req = None ->
   store_kept (entry_world env req w) w') ->
  outline env req w c' w' (set_index i c').
Proof.
  intros Hr0 Hh0 Hopt Hf Hw Hs.
  apply (outline_checked env req w c0); try assumption.
  - apply status_set_index.
  - intros k Hk. by rewrite Header_set_index.
Qed.

Lemma chain_outcome env req w c0 hs :
  index c0 = -1 -> Req c0 = req -> written c0 = false -> Header c0 = ∅ ->
  (hs = [] /\ status c0 = 404
   \/ status c0 = 200
      /\ ((exists h, hs = [h] /\ terminal h /\ reader h)
          \/ (exists h, hs = [AuthMiddleware; h] /\ terminal h
                /\ (reader h \/ Method req ∈ write_methods)))) ->
  exists cR wR cN,
    Next (global_middleware env ++ hs) c0 w
    = Done cN (logged env (clock env (ticks w)) cR wR)
    /\ (written cN = true /\ outline env req w cR wR cN
        \/ hs = [] /\ written cN = false /\ status cN = 404
           /\ outline env req w cR wR
                (Write (WText default404Body)
                       (Header_Set "Content-Type" "text/plain" cN))).
Proof.
  intros Hi0 Hr0 Hw0 Hh0 Hshape.
  assert (Hlen : (length hs <= 2)%nat).
  { destruct Hshape as [[-> _]|[_ [(h & -> & _)|(h & -> & _)]]]; simpl; lia. }
  assert (Hst0 : status c0 = 200 \/ status c0 = 404).
  { destruct Hshape as [[_ ?]|[? _]]; auto. }
  destruct (String.eqb (Method req) "OPTIONS") eqn:Hopt.
  { pose proof (chain_preflight env hs c0 w Hi0 Hlen) as E.
    rewrite Hr0 in E. specialize (E Hopt). cbv zeta in E.
    eexists _, _, _. split; [exact E|]. left. split; [reflexivity|].
    apply String.eqb_eq in Hopt. by apply outline_preflight. }
  assert (Hopt' : Method req <> "OPTIONS") by (by apply String.eqb_neq).
  destruct (admitted env req w) eqn:Hadm.
  2:{ pose proof (chain_limited env hs c0 w Hi0 Hlen) as E.
      rewrite Hr0 in E. specialize (E Hopt Hadm). cbv zeta in E.
      eexists _, _, _. split; [exact E|]. left.
      split; [rewrite written_set_index; apply written_JSON|].
      apply outline_rejected; try done. apply in_all_statuses. tauto. }
  destruct (content_type_ok req) eqn:Hct.
  2:{ pose proof (chain_unsupported env hs c0 w Hi0 Hlen) as E.
      rewrite Hr0 in E. specialize (E Hopt Hadm Hct). cbv zeta in E.
      eexists _, _, _. split; [exact E|]. left.
      split; [rewrite written_set_index; apply written_JSON|].
      apply outline_rejected; try done. apply in_all_statuses. tauto. }
  assert (Hpass : forall c' w',
            Next_loop hs 6 (set_index 6 (checked_context env c0 w)) (entry_world env req w)
            = Done c' w' ->
            6 + Z.of_nat (length hs) <= index c' ->
            Next (global_middleware env ++ hs) c0 w
            = Done (set_index (index c' + 6) c') (logged env (clock env (ticks w)) c' w')).
  { intros c' w' Hhs Hi. apply chain_pass; rewrite ?Hr0; assumption. }
  assert (Hwc : written (checked_context env c0 w) = false) by (by rewrite written_checked).
  destruct Hshape as [[-> Hs0]|[Hs0 [(h & -> & Hterm & Hread)|(h & -> & Hterm & Hrw)]]].
  - (* no route *)
    specialize (Hpass (set_index 6 (checked_context env c0 w)) (entry_world env req w)
                  eq_refl ltac:(rewrite index_set_index; simpl; lia)).
    eexists _, _, _. split; [exact Hpass|]. right.
    split; [reflexivity|].
    split; [by rewrite !written_set_index|].
    split; [by rewrite !status_set_index, status_checked|].
    by apply outline_unrouted.
  - (* a public route *)
    destruct (tail_public h (checked_context env c0 w) (entry_world env req w) Hterm Hwc)
      as (c' & w' & Hrun & Hf & Hloop).
    specialize (Hpass _ _ Hloop ltac:(rewrite index_set_index; simpl; lia)).
    rewrite logged_set_index in Hpass.
    assert (Hw' : written c' = true) by (by destruct Hf as (_ & _ & _ & _ & _ & ? & _)).
    eexists _, _, _. split; [exact Hpass|]. left.
    split; [by rewrite !written_set_index|].
    rewrite set_index_set_index.
    apply (outline_handled env req w c0); try assumption.
    + apply tail_frame_of_frame in Hf. exact Hf.
    + intros _. pose proof (Hread (fun c w => Done c w)
                              (set_index 6 (checked_context env c0 w))
                              (entry_world env req w)) as Hs.
      by rewrite Hrun in Hs.
  - (* a protected route *)
    assert (Hkey : GetHeader "X-API-Key" (checked_context env c0 w) = api_key req).
    { unfold GetHeader, api_key, checked_context.
      by rewrite Req_Header_Set, Req_cors_headers, Req_correlated, Hr0. }
    destruct (apiKeys !! api_key req) as [role|] eqn:Hk.
    + destruct (tail_protected_ok h (checked_context env c0 w) (entry_world env req w) role
                  Hterm Hwc) as (c' & w' & Hrun & Hf & Hloop); [by rewrite Hkey|].
      specialize (Hpass _ _ Hloop ltac:(rewrite index_set_index; simpl; lia)).
      rewrite logged_set_index in Hpass.
      assert (Hw' : written c' = true) by (by destruct Hf as (_ & _ & _ & _ & _ & ? & _)).
      eexists _, _, _. split; [exact Hpass|]. left.
      split; [by rewrite !written_set_index|].
      rewrite set_index_set_index.
      apply (outline_handled env req w c0); try assumption.
      * apply tail_frame_of_frame_role in Hf. exact Hf.
      * intros [Hm|Hm]; [|congruence]. destruct Hrw as [Hread|Hrw]; [|done].
        pose proof (Hread (fun c w => Done c w)
                      (set_index 7 (Set_ "role" role (checked_context env c0 w)))
                      (entry_world env req w)) as Hs.
        by rewrite Hrun in Hs.
    + pose proof (tail_protected_denied h (checked_context env c0 w) (entry_world env req w))
        as Hloop. rewrite Hkey in Hloop. specialize (Hloop Hk).
      specialize (Hpass _ _ Hloop ltac:(rewrite index_set_index; simpl; lia)).
      eexists _, _, _. split; [exact Hpass|]. left.
      split; [rewrite !written_set_index, written_Set; apply written_JSON|].
      by apply outline_denied.
Qed.

(** What every request that is not redirected comes to, served on its own:
    the chain returns, the logging stage has written its line, and the
    response and the process state are as [outline] says. *)
Lemma ServeHTTP_outcome env req w :
  redirected env req = false ->
  exists cR wR cF,
    ServeHTTP env req w = Done cF (logged env (clock env (ticks w)) cR wR)
    /\ outline env req w cR wR cF.
Proof.
  intros Hdirect.
  destruct (start_context_facts env req) as (Hi0 & Hr0 & Hw0 & Hh0 & Hk0 & Hb0).
  assert (Hshape :
    route_chain env req = [] /\ status (start_context env req) = 404
    /\ find_route (Method req) (Path req) (routes env) = None
    \/ status (start_context env req) = 200
       /\ ((exists h, route_chain env req = [h] /\ terminal h /\ reader h)
           \/ (exists h, route_chain env req = [AuthMiddleware; h] /\ terminal h
                 /\ (reader h \/ Method req ∈ write_methods)))).
  { destruct (route_chain_shape env req) as [[Hnil Hnone]|Hsome].
    - left. split; [done|]. split; [|done]. unfold start_context. by rewrite Hnone.
    - right. split; [|exact Hsome].
      unfold start_context, route_chain in *.
      destruct (find_route _ _ _) as [[? ?]|]; [done|].
      destruct Hsome as [(h & ? & _)|(h & ? & _)]; discriminate. }
  destruct (chain_outcome env req w (start_context env req) (route_chain env req))
    as (cR & wR & cN & E & [[Hw Ho]|(Hnil & Hw & Hs & Ho)]); try assumption.
  { destruct Hshape as [(? & ? & _)|?]; [left | right]; done. }
  - exists cR, wR, cN. split; [by apply ServeHTTP_written | exact Ho].
  - destruct Hshape as [(_ & _ & Hnone)|[_ [(h & Hh & _)|(h & Hh & _)]]];
      try (rewrite Hh in Hnil; discriminate).
    eexists cR, wR, _. split; [by apply ServeHTTP_unwritten | exact Ho].
Qed.

(** ** Projections of the logged state *)

Lemma logs_logged env start c w :
  logs (logged env start c w)
  = logs w ++ [mkLogLine (GetString "request_id" c) (Method (Req c)) (Path (Req c))
                         (status c) (clock env (ticks w) - start) (ClientIP (Req c))
                         (GetHeader "User-Agent" c)].
Proof. reflexivity. Qed.
Lemma articles_logged env start c w : articles (logged env start c w) = articles w.
Proof. reflexivity. Qed.
Lemma nextId_logged env start c w : nextId (logged env start c w) = nextId w.
Proof. reflexivity. Qed.
Lemma visitors_logged env start c w : visitors (logged env start c w) = visitors w.
Proof. reflexivity. Qed.
Lemma drawn_logged env start c w : drawn (logged env start c w) = drawn w.
Proof. reflexivity. Qed.
Lemma ticks_logged env start c w : ticks (logged env start c w) = S (ticks w).
Proof. reflexivity. Qed.

Lemma monotone_le env n m : monotone env -> (n <= m)%nat -> clock env n <= clock env m.
Proof.
  intros Hm. induction 1 as [|m Hle IH]; [lia|].
  pose proof (Hm m). lia.
Qed.

(** ** Redirections *)

Lemma tsr_methods env m p :
  tsr m p (routes env) = true -> m ∈ ["GET"; "POST"; "PUT"; "DELETE"].
Proof.
  unfold tsr. destruct (without_trailing_slash p) as [q|]; [|done].
  unfold routes, public_routes, protected_routes.
  cbn [app existsb route_method]. intros H.
  repeat (apply orb_true_iff in H as [H|H];
          [apply andb_true_iff in H as [H _]; apply String.eqb_eq in H; subst m;
           rewrite !elem_of_cons; tauto|]).
  done.
Qed.

Lemma redirected_methods env req :
  redirected env req = true -> Method req ∈ ["GET"; "POST"; "PUT"; "DELETE"].
Proof.
  unfold redirected. destruct (find_route _ _ _); [done|].
  intros H. apply andb_true_iff in H as [_ H]. by eapply tsr_methods.
Qed.


Lemma redirected_preflight env req : Method req = "OPTIONS" -> redirected env req = false.
Proof.
  intros Hm. destruct (redirected env req) eqn:E; [|done].
  apply redirected_methods in E. rewrite Hm in E.
  rewrite !elem_of_cons, elem_of_nil in E.
  destruct E as [E|[E|[E|[E|[]]]]]; discriminate.
Qed.

Lemma status_redirect env c :
  written c = false ->
  status (redirectTrailingSlash env c)
  = if String.eqb (Method (Req c)) "GET" then 301 else 307.
Proof.
  intros Hw. unfold redirectTrailingSlash. cbn [Req Header_Set].
  destruct (String.eqb (Method (Req c)) "GET"); unfold Status; cbn; rewrite Hw;
    cbn [negb andb]; by destruct (status c =? _) eqn:E; [apply Z.eqb_eq in E|].
Qed.

Lemma written_redirect env c : written (redirectTrailingSlash env c) = true.
Proof.
  unfold redirectTrailingSlash. cbn [Req Header_Set].
  by destruct (String.eqb (Method (Req c)) "GET").
Qed.





(** The requests that differ from a route of their method by a final slash
    are redirected, whatever their key and headers. *)
Lemma redirected_examples :
  let redirects method path :=
    redirected example_env
      (mkRequest method path ∅ "10.0.0.1" (mkArticle 0 "" "" "" 0 0) None) in
  Forall (fun r => r = true)
    [redirects "GET" "/ping/"; redirects "GET" "/articles/";
     redirects "GET" "/articles/1/"; redirects "GET" "/admin/stats/";
     redirects "POST" "/articles/"; redirects "PUT" "/articles/1/";
     redirects "DELETE" "/article/1/"]
  /\ Forall (fun r => r = false)
       [redirects "GET" "/ping"; redirects "GET" "/"; redirects "GET" "/nowhere/";
        redirects "GET" "/articles/1/2/"; redirects "PUT" "/articles/";
        redirects "DELETE" "/articles/1"; redirects "DELETE" "/articles/1/";
        redirects "OPTIONS" "/ping/"; redirects "POST" "/ping/"].
Proof. vm_compute. split; repeat constructor. Qed.

(** ** The log *)

(** X1. [LoggingMiddleware], for every request that is not redirected,
    served on its own, whatever its method, path, headers and outcome: the
    chain returns, and exactly one line is added to the log. The line has the
    correlation id drawn for the request, its method, path, client address
    and user agent, the status of the final response, and as duration the
    difference of two clock readings, the later one taken after the handlers
    have run; with a clock that does not go back the duration is not
    negative. *)
Theorem every_request_is_logged_once env req w :
  redirected env req = false ->
  exists c' w' l,
    ServeHTTP env req w = Done c' w'
    /\ logs w' = logs w ++ [l]
    /\ log_request_id l = uuids env (drawn w)
    /\ log_method l = Method req /\ log_path l = Path req
    /\ log_status l = status c'
    /\ log_client l = ClientIP req
    /\ log_agent l = default "" (ReqHeader req !! "User-Agent")
    /\ (exists n, (ticks w < n)%nat /\ S n = ticks w'
                  /\ log_duration l = clock env n - clock env (ticks w))
    /\ (monotone env -> 0 <= log_duration l).
Proof.
  intros Hdirect.
  destruct (ServeHTTP_outcome env req w Hdirect) as (cR & wR & cF & E & Ho).
  destruct Ho as (HR & HG & HS & _ & _ & _ & _ & Hd & Hl & Ht & _).
  eexists cF, _, _. split; [exact E|].
  split; [rewrite logs_logged, Hl; reflexivity|].
  cbn [log_request_id log_method log_path log_status log_client log_agent log_duration].
  unfold GetHeader. rewrite HR, HG, HS.
  repeat split; try reflexivity.
  - exists (ticks wR). rewrite ticks_logged. repeat split; lia.
  - intros Hm. pose proof (monotone_le env (ticks w) (ticks wR) Hm). lia.
Qed.

Lemma every_request_is_logged_once_witness :
  let req := mkRequest "GET" "/nowhere" {["User-Agent" := "curl"]} "10.0.0.1"
                       (mkArticle 0 "" "" "" 0 0) None in
  exists c' w' l,
    ServeHTTP example_env req (initial_world example_env) = Done c' w'
    /\ logs w' = [l]
    /\ log_request_id l = "uuid-0" /\ log_path l = "/nowhere"
    /\ log_status l = status c' /\ log_agent l = "curl".
Proof.
  intros req.
  destruct (every_request_is_logged_once example_env req (initial_world example_env)
                                         eq_refl)
    as (c' & w' & l & E & Hl & Hid & _ & Hp & Hs & _ & Ha & _).
  exists c', w', l. repeat split; assumption.
Defined.

(** X2. Served one at a time, no request makes a handler fault: the slice
    accesses of [updateArticle] and [deleteArticle] are in range, so the
    recovery stage never has to answer. Every response has been written and
    its status is one of 200, 201, 204, 400, 401, 403, 404, 415, 429, or the
    301 or 307 of a redirection (and then the request was redirected); it is
    never 500. *)
Theorem requests_served_in_turn_never_fail env req w :
  exists c' w',
    ServeHTTP env req w = Done c' w'
    /\ status c' ∈ all_statuses ++ [301; 307] /\ status c' <> 500 /\ written c' = true
    /\ (status c' = 301 \/ status c' = 307 <-> redirected env req = true).
Proof.
  destruct (redirected env req) eqn:Hred.
  - exists (redirectTrailingSlash env (new_context req)), w.
    split; [by apply ServeHTTP_redirected|].
    rewrite status_redirect by done. cbn [Req new_context].
    rewrite written_redirect. unfold all_statuses.
    destruct (String.eqb (Method req) "GET");
      (split; [rewrite !elem_of_app, !elem_of_cons; tauto|]);
      (split; [done|]); (split; [done|]); split; auto.
  - destruct (ServeHTTP_outcome env req w Hred) as (cR & wR & cF & E & Ho).
    destruct Ho as (_ & _ & HS & Hin & Hw & _).
    eexists cF, _. split; [exact E|]. rewrite HS.
    split; [apply elem_of_app; by left|].
    apply in_all_statuses in Hin.
    split; [lia|]. split; [exact Hw|]. split; [lia | done].
Qed.

Lemma base_headers_request_id env req w :
  base_headers env req w !! "X-Request-ID" = Some (uuids env (drawn w)).
Proof.
  unfold base_headers, cors_headers.
  destruct (default false _); rewrite !Header_Header_Set;
    rewrite !lookup_insert_ne by done; unfold correlated_context;
    rewrite Header_Header_Set; apply lookup_insert_eq.
Qed.

Lemma base_headers_origin env req w :
  base_headers env req w !! "Access-Control-Allow-Origin"
  = let origin := default "" (ReqHeader req !! "Origin") in
    if default false (allowedOrigins !! origin) then Some origin else None.
Proof.
  unfold base_headers, cors_headers, GetHeader. cbv zeta.
  rewrite Req_correlated. change (Req (new_context req)) with req.
  destruct (default false _); rewrite !Header_Header_Set;
    rewrite !lookup_insert_ne by done.
  - apply lookup_insert_eq.
  - unfold correlated_context. rewrite Header_Header_Set.
    rewrite lookup_insert_ne by done. reflexivity.
Qed.

Lemma base_headers_methods env req w :
  base_headers env req w !! "Access-Control-Allow-Methods"
  = Some "GET, POST, PUT, DELETE, OPTIONS"
  /\ base_headers env req w !! "Access-Control-Allow-Headers"
     = Some "Content-type, X-API-Key, X-Request-ID".
Proof.
  unfold base_headers, cors_headers.
  destruct (default false _); rewrite !Header_Header_Set; split;
    rewrite ?lookup_insert_eq; try reflexivity;
    rewrite lookup_insert_ne by done; by rewrite lookup_insert_eq.
Qed.

Lemma allowedOrigins_spec origin :
  default false (allowedOrigins !! origin) = true
  <-> origin = "http://localhost:3000" \/ origin = "https://myblog.com".
Proof.
  unfold allowedOrigins.
  destruct (decide (origin = "http://localhost:3000")) as [->|H1].
  { rewrite lookup_insert_eq. simpl. tauto. }
  rewrite lookup_insert_ne by done.
  destruct (decide (origin = "https://myblog.com")) as [->|H2].
  { rewrite lookup_insert_eq. simpl. tauto. }
  rewrite lookup_insert_ne by done. rewrite lookup_empty. simpl.
  split; [discriminate | tauto].
Qed.

(** X3. [CORSMiddleware], for every request that is not redirected and
    every outcome (also 401, 404, 415, 429 and the pre-flight): the response
    carries [Access-Control-Allow-Origin] exactly when the [Origin] header of
    the request is one of the two allowed origins, and then it is that
    origin; the two other CORS headers are always there. *)
Theorem origin_is_reflected_only_when_allowed env req w :
  redirected env req = false ->
  let c' := outcome_context (ServeHTTP env req w) in
  let origin := default "" (ReqHeader req !! "Origin") in
  (origin = "http://localhost:3000" \/ origin = "https://myblog.com" ->
   Header c' !! "Access-Control-Allow-Origin" = Some origin)
  /\ (origin <> "http://localhost:3000" -> origin <> "https://myblog.com" ->
      Header c' !! "Access-Control-Allow-Origin" = None)
  /\ Header c' !! "Access-Control-Allow-Methods" = Some "GET, POST, PUT, DELETE, OPTIONS"
  /\ Header c' !! "Access-Control-Allow-Headers"
     = Some "Content-type, X-API-Key, X-Request-ID".
Proof.
  intros Hdirect c' origin.
  destruct (ServeHTTP_outcome env req w Hdirect) as (cR & wR & cF & E & Ho).
  subst c'. rewrite E. cbn [outcome_context].
  destruct Ho as (_ & _ & _ & _ & _ & HH & _).
  rewrite !HH by done. rewrite base_headers_origin. cbv zeta. fold origin.
  destruct (base_headers_methods env req w) as [-> ->].
  pose proof (allowedOrigins_spec origin) as Ha.
  destruct (default false (allowedOrigins !! origin)).
  - repeat split. intros H1 H2. destruct (proj1 Ha eq_refl); done.
  - repeat split. intros H. apply Ha in H. discriminate.
Qed.

Lemma origin_is_reflected_only_when_allowed_witness :
  let allowed := mkRequest "GET" "/admin/stats" {["Origin" := "https://myblog.com"]}
                           "10.0.0.1" (mkArticle 0 "" "" "" 0 0) None in
  let other := mkRequest "POST" "/nowhere" {["Origin" := "https://elsewhere.example"]}
                         "10.0.0.1" (mkArticle 0 "" "" "" 0 0) None in
  let w := initial_world example_env in
  Header (outcome_context (ServeHTTP example_env allowed w))
    !! "Access-Control-Allow-Origin" = Some "https://myblog.com"
  /\ Header (outcome_context (ServeHTTP example_env other w))
       !! "Access-Control-Allow-Origin" = None.
Proof.
  intros allowed other w. split.
  - apply (origin_is_reflected_only_when_allowed example_env allowed w eq_refl).
    by right.
  - by apply (origin_is_reflected_only_when_allowed example_env other w eq_refl).
Defined.

Lemma drawn_serve_all env reqs w :
  drawn (serve_all env reqs w) = (drawn w + passed_on env reqs)%nat.
Proof.
  revert w. induction reqs as [|req reqs IH]; intros w.
  - unfold passed_on. simpl. lia.
  - cbn [serve_all fold_left]. fold (serve_all env reqs (outcome_world (ServeHTTP env req w))).
    rewrite IH. unfold passed_on. cbn [List.filter].
    destruct (redirected env req) eqn:Hred; cbn [negb].
    + rewrite ServeHTTP_redirected by done. reflexivity.
    + destruct (ServeHTTP_outcome env req w Hred) as (cR & wR & cF & E & Ho).
      rewrite E. cbn [outcome_world]. rewrite drawn_logged.
      destruct Ho as (_ & _ & _ & _ & _ & _ & _ & Hd & _). rewrite Hd. simpl. lia.
Qed.

(** X4. [RequestIDMiddleware] draws exactly one identifier per request that
    reaches it: after any sequence of requests served from the initial
    state, of which [n] were not redirected, the next request that is not
    redirected gets the identifier of rank [n] in its [X-Request-ID] header.
    So no two requests share a correlation id unless the generator repeats
    itself. *)
Theorem each_request_takes_the_next_identifier env reqs req :
  redirected env req = false ->
  let w := serve_all env reqs (initial_world env) in
  let n := passed_on env reqs in
  Header (outcome_context (ServeHTTP env req w)) !! "X-Request-ID" = Some (uuids env n)
  /\ drawn (outcome_world (ServeHTTP env req w)) = S n.
Proof.
  intros Hdirect w n.
  destruct (ServeHTTP_outcome env req w Hdirect) as (cR & wR & cF & E & Ho).
  rewrite E. cbn [outcome_context outcome_world].
  destruct Ho as (_ & _ & _ & _ & _ & HH & _ & Hd & _).
  rewrite HH by done. rewrite base_headers_request_id, drawn_logged, Hd.
  subst w n. rewrite drawn_serve_all. simpl. done.
Qed.

Lemma each_request_takes_the_next_identifier_witness :
  let env := mkEnv (fun n => 1000 + Z.of_nat n)
                   (fun n => if Nat.eqb n 2 then "third" else "other") Path in
  let reqs := [get "/ping"; get "/ping/"; get "/nowhere"] in
  Header (outcome_context (ServeHTTP env (get "/articles")
                                     (serve_all env reqs (initial_world env))))
    !! "X-Request-ID" = Some "third".
Proof.
  intros env reqs.
  exact (proj1 (each_request_takes_the_next_identifier env reqs (get "/articles") eq_refl)).
Defined.

(** X5. [RateLimitMiddleware] and [getLimiter]: a request touches only the
    bucket of its own client address; the bucket of every other client is
    what it was; no bucket is ever removed from [visitors]; and after a
    request that is neither a pre-flight nor redirected its client has a
    bucket. (This holds whatever the bucket computes.) *)
Theorem buckets_are_per_client env req w :
  let w' := outcome_world (ServeHTTP env req w) in
  (forall ip, ip <> ClientIP req -> visitors w' !! ip = visitors w !! ip)
  /\ (forall ip, is_Some (visitors w !! ip) -> is_Some (visitors w' !! ip))
  /\ (Method req <> "OPTIONS" -> redirected env req = false ->
      is_Some (visitors w' !! ClientIP req)).
Proof.
  intros w'. destruct (redirected env req) eqn:Hred.
  - subst w'. rewrite ServeHTTP_redirected by done. cbn [outcome_world].
    split; [done|]. split; done.
  - destruct (ServeHTTP_outcome env req w Hred) as (cR & wR & cF & E & Ho).
    subst w'. rewrite E. cbn [outcome_world]. rewrite visitors_logged.
    destruct Ho as (_ & _ & _ & _ & _ & _ & Hrl & _ & _ & _ & Hne & Hs & _).
    split; [exact Hne|]. split; [exact Hs|]. intros Hopt _. by apply Hrl.
Qed.

(** X6. [main] and [AuthMiddleware]: a request whose method is none of POST,
    PUT, DELETE, or whose [X-API-Key] is not a key of the mapping, leaves
    [articles] and [nextId] as they were, whatever its path and body: only
    the three writing routes change the store, and their handlers do not run
    without a valid key. *)
Theorem store_changes_only_on_authenticated_writes env req w :
  (Method req <> "POST" /\ Method req <> "PUT" /\ Method req <> "DELETE")
  \/ apiKeys !! api_key req = None ->
  articles (outcome_world (ServeHTTP env req w)) = articles w
  /\ nextId (outcome_world (ServeHTTP env req w)) = nextId w.
Proof.
  intros H.
  assert (H' : Method req ∉ write_methods \/ apiKeys !! api_key req = None).
  { destruct H as [(H1 & H2 & H3)|H]; [left | by right].
    unfold write_methods. rewrite !elem_of_cons, elem_of_nil. tauto. }
  destruct (redirected env req) eqn:Hred.
  { rewrite ServeHTTP_redirected by done. done. }
  destruct (ServeHTTP_outcome env req w Hred) as (cR & wR & cF & E & Ho).
  rewrite E. cbn [outcome_world]. rewrite articles_logged, nextId_logged.
  destruct Ho as (_ & _ & _ & _ & _ & _ & _ & _ & _ & _ & _ & _ & Hst & _).
  exact (Hst H').
Qed.

Lemma store_changes_only_on_authenticated_writes_witness :
  let req := with_key "not-a-key" "DELETE" "/article/1" (mkArticle 0 "" "" "" 0 0) in
  let w := initial_world example_env in
  articles (outcome_world (ServeHTTP example_env req w)) = articles w
  /\ nextId (outcome_world (ServeHTTP example_env req w)) = nextId w.
Proof.
  intros req w.
  apply (store_changes_only_on_authenticated_writes example_env req w).
  right. reflexivity.
Defined.

(** ** The answers of the stages *)

Lemma body_checked env c0 w : body (checked_context env c0 w) = body c0.
Proof. unfold checked_context. by rewrite body_Header_Set, body_cors_headers. Qed.

Lemma route_chain_length env req : (length (route_chain env req) <= 2)%nat.
Proof.
  destruct (route_chain_shape env req) as [[-> _]|[(h & -> & _)|(h & -> & _)]];
    simpl; lia.
Qed.

Lemma base_headers_no_limit env req w :
  base_headers env req w !! "X-RateLimit-Limit" = None
  /\ base_headers env req w !! "Content-Type" = None.
Proof.
  unfold base_headers, cors_headers.
  destruct (default false _); rewrite !Header_Header_Set; split;
    rewrite !lookup_insert_ne by done; unfold correlated_context;
    rewrite Header_Header_Set, lookup_insert_ne by done; reflexivity.
Qed.

(** X7. [CORSMiddleware] comes before the rate limit in [main]: a request
    with method OPTIONS, on any path, routed or not, is answered 204 with no
    body and no content type; the rate-limit stage is not reached (no
    [X-RateLimit-Limit] header, [visitors] unchanged, no token taken), no
    handler runs (the store is unchanged), and the line logged has status
    204. *)
Theorem preflight_is_answered_by_the_cors_stage env req w :
  Method req = "OPTIONS" ->
  exists c' w' l,
    ServeHTTP env req w = Done c' w'
    /\ status c' = 204 /\ body c' = []
    /\ Header c' !! "X-RateLimit-Limit" = None
    /\ Header c' !! "Content-Type" = None
    /\ articles w' = articles w /\ nextId w' = nextId w /\ visitors w' = visitors w
    /\ logs w' = logs w ++ [l] /\ log_status l = 204.
Proof.
  intros Hopt.
  destruct (start_context_facts env req) as (Hi0 & Hr0 & Hw0 & Hh0 & Hk0 & Hb0).
  pose proof (chain_preflight env (route_chain env req) (start_context env req) w Hi0
                (route_chain_length env req)) as E.
  rewrite Hr0, Hopt in E. specialize (E eq_refl). cbv zeta in E.
  apply ServeHTTP_written in E; [|by apply redirected_preflight|reflexivity].
  assert (Hst0 : status (start_context env req) = 200 \/ status (start_context env req) = 404).
  { unfold start_context. destruct (find_route _ _ _) as [[? ?]|]; auto. }
  destruct (preflight_context_facts env req w _ Hr0 Hh0 Hw0 Hst0)
    as (HR & HK & HS & HH & HW & HB).
  eexists _, _, _. split; [exact E|].
  rewrite status_set_index, body_set_index, Header_set_index, HS, HB, HH.
  destruct (base_headers_no_limit env req w) as [-> ->].
  rewrite articles_logged, nextId_logged, visitors_logged, logs_logged.
  repeat split; try done.
Qed.

Lemma preflight_is_answered_by_the_cors_stage_witness :
  let req := mkRequest "OPTIONS" "/articles" ∅ "10.0.0.1" (mkArticle 0 "" "" "" 0 0) None in
  let w := initial_world example_env in
  exists c' w' l,
    ServeHTTP example_env req w = Done c' w'
    /\ status c' = 204 /\ body c' = []
    /\ Header c' !! "X-RateLimit-Limit" = None
    /\ Header c' !! "Content-Type" = None
    /\ articles w' = articles w /\ nextId w' = nextId w /\ visitors w' = visitors w
    /\ logs w' = logs w ++ [l] /\ log_status l = 204.
Proof.
  intros req w.
  apply (preflight_is_answered_by_the_cors_stage example_env req w).
  reflexivity.
Defined.

(** X8. [RateLimitMiddleware]: a request that is neither a pre-flight nor
    redirected and that the bucket of its client does not allow is answered
    429 with the envelope "too many requests, limit exceeded", which carries
    the correlation id, and with the header [X-RateLimit-Limit: 100]; this is
    so whether the path has a route or not and whatever the key and the
    content type (the stages that check them come later), and the store is
    unchanged. *)
Theorem request_over_the_limit_is_rejected env req w :
  redirected env req = false ->
  Method req <> "OPTIONS" -> admitted env req w = false ->
  exists c' w',
    ServeHTTP env req w = Done c' w'
    /\ status c' = 429
    /\ body c' = [WJSON (mkResponse false NoData "" "too many requests, limit exceeded"
                                    (uuids env (drawn w)))]
    /\ Header c' !! "X-RateLimit-Limit" = Some "100"
    /\ articles w' = articles w /\ nextId w' = nextId w.
Proof.
  intros Hdirect Hopt Hadm. apply String.eqb_neq in Hopt.
  destruct (start_context_facts env req) as (Hi0 & Hr0 & Hw0 & Hh0 & Hk0 & Hb0).
  pose proof (chain_limited env (route_chain env req) (start_context env req) w Hi0
                (route_chain_length env req)) as E.
  rewrite Hr0 in E. specialize (E Hopt Hadm). cbv zeta in E.
  apply ServeHTTP_written in E; [|done|rewrite written_set_index; apply written_JSON].
  destruct (entry_world_facts env req w) as (Ea & En & _).
  eexists _, _. split; [exact E|].
  rewrite status_set_index, body_set_index, Header_set_index, articles_logged,
    nextId_logged.
  split; [apply status_JSON; [by rewrite written_checked | done]|].
  split; [by rewrite body_JSON, body_checked, Hb0|].
  split; [|done].
  rewrite Header_JSON by done. unfold checked_context.
  rewrite Header_Header_Set. apply lookup_insert_eq.
Qed.

Lemma request_over_the_limit_is_rejected_witness :
  let req := get "/ping" in
  let w := exhausted_world in
  exists c' w',
    ServeHTTP example_env req w = Done c' w'
    /\ status c' = 429
    /\ body c' = [WJSON (mkResponse false NoData "" "too many requests, limit exceeded"
                                    (uuids example_env (drawn w)))]
    /\ Header c' !! "X-RateLimit-Limit" = Some "100"
    /\ articles w' = articles w /\ nextId w' = nextId w.
Proof.
  intros req w.
  apply (request_over_the_limit_is_rejected example_env req w).
  - reflexivity.
  - discriminate.
  - vm_compute. reflexivity.
Defined.

(** X9. [ContentTypeMiddleware]: a POST or PUT that is not redirected, whose
    [Content-Type] does not begin with "application/json", admitted by the
    rate limit, is answered 415 with the envelope "Content type must be
    application/json" and the correlation id, whether its path has a route or
    not and whatever the key (authentication comes later); the store is
    unchanged. *)
Theorem body_that_is_not_json_is_rejected env req w :
  redirected env req = false ->
  Method req = "POST" \/ Method req = "PUT" ->
  String.prefix "application/json" (default "" (ReqHeader req !! "Content-Type")) = false ->
  admitted env req w = true ->
  exists c' w',
    ServeHTTP env req w = Done c' w'
    /\ status c' = 415
    /\ body c' = [WJSON (mkResponse false NoData "" "Content type must be application/json"
                                    (uuids env (drawn w)))]
    /\ articles w' = articles w /\ nextId w' = nextId w.
Proof.
  intros Hdirect Hm Hct Hadm.
  assert (Hopt : String.eqb (Method req) "OPTIONS" = false).
  { destruct Hm as [-> | ->]; reflexivity. }
  assert (Hct' : content_type_ok req = false).
  { unfold content_type_ok. rewrite Hct. destruct Hm as [-> | ->]; reflexivity. }
  destruct (start_context_facts env req) as (Hi0 & Hr0 & Hw0 & Hh0 & Hk0 & Hb0).
  pose proof (chain_unsupported env (route_chain env req) (start_context env req) w Hi0
                (route_chain_length env req)) as E.
  rewrite Hr0 in E. specialize (E Hopt Hadm Hct'). cbv zeta in E.
  apply ServeHTTP_written in E; [|done|rewrite written_set_index; apply written_JSON].
  destruct (entry_world_facts env req w) as (Ea & En & _).
  eexists _, _. split; [exact E|].
  rewrite status_set_index, body_set_index, articles_logged, nextId_logged.
  split; [apply status_JSON; [by rewrite written_checked | done]|].
  split; [by rewrite body_JSON, body_checked, Hb0|]. done.
Qed.

Lemma body_that_is_not_json_is_rejected_witness :
  let req := mkRequest "POST" "/articles"
               (<["X-API-Key" := "admin-key"]> (<["Content-Type" := "text/plain"]> ∅))
               "10.0.0.1" (mkArticle 0 "A" "B" "C" 0 0) None in
  let w := initial_world example_env in
  exists c' w',
    ServeHTTP example_env req w = Done c' w'
    /\ status c' = 415
    /\ body c' = [WJSON (mkResponse false NoData "" "Content type must be application/json"
                                    (uuids example_env (drawn w)))]
    /\ articles w' = articles w /\ nextId w' = nextId w.
Proof.
  intros req w.
  apply (body_that_is_not_json_is_rejected example_env req w).
  - reflexivity.
  - left. reflexivity.
  - reflexivity.
  - vm_compute. reflexivity.
Defined.

(** ** A request that reaches the handlers of its route *)

Lemma handler_context_facts env req ps w :
  let c := handler_context env req ps w in
  Req c = req /\ Params c = ps /\ written c = false /\ body c = [] /\ status c = 200
  /\ GetString "request_id" c = uuids env (drawn w)
  /\ Keys c !! "role" = None.
Proof.
  unfold handler_context, checked_context. cbv zeta.
  rewrite Req_Header_Set, Req_cors_headers, Params_Header_Set, Params_cors_headers,
    written_Header_Set, written_cors_headers, body_Header_Set, body_cors_headers,
    status_Header_Set, status_cors_headers, Keys_Header_Set, Keys_cors_headers.
  unfold GetString. rewrite Keys_Header_Set, Keys_cors_headers.
  repeat split.
Qed.

Lemma ServeHTTP_routed env req w hs ps :
  find_route (Method req) (Path req) (routes env) = Some (hs, ps) ->
  ServeHTTP env req w = Next (global_middleware env ++ hs) (set_params ps (new_context req)) w.
Proof. intros H. unfold ServeHTTP. by rewrite H. Qed.

Lemma ServeHTTP_public env req w (h : Handler) ps c' w' :
  find_route (Method req) (Path req) (routes env) = Some ([h], ps) ->
  Method req <> "OPTIONS" -> admitted env req w = true -> content_type_ok req = true ->
  (forall next, h next (set_index 6 (handler_context env req ps w)) (entry_world env req w)
                = Done c' w') ->
  index c' = 6 ->
  ServeHTTP env req w = Done (set_index 13 c') (logged env (clock env (ticks w)) c' w').
Proof.
  intros Hf Hopt Hadm Hct Hh Hi. apply String.eqb_neq in Hopt.
  rewrite (ServeHTTP_routed env req w _ _ Hf).
  assert (Hloop : Next_loop [h] 6 (set_index 6 (handler_context env req ps w))
                    (entry_world env req w) = Done (set_index 7 c') w').
  { rewrite (Next_loop_step _ _ 6 7) by reflexivity.
    rewrite Hh. cbn [Next_loop]. unfold incr_index. by rewrite Hi. }
  rewrite (chain_pass env [h] (set_params ps (new_context req)) w (set_index 7 c') w'
             eq_refl Hopt Hadm Hct Hloop ltac:(rewrite index_set_index; simpl; lia)).
  by rewrite index_set_index, set_index_set_index, logged_set_index.
Qed.

Lemma ServeHTTP_protected env req w (h : Handler) ps role c' w' :
  find_route (Method req) (Path req) (routes env) = Some ([AuthMiddleware; h], ps) ->
  Method req <> "OPTIONS" -> admitted env req w = true -> content_type_ok req = true ->
  apiKeys !! api_key req = Some role ->
  (forall next, h next (set_index 7 (Set_ "role" role (handler_context env req ps w)))
                  (entry_world env req w) = Done c' w') ->
  index c' = 7 ->
  ServeHTTP env req w = Done (set_index 15 c') (logged env (clock env (ticks w)) c' w').
Proof.
  intros Hf Hopt Hadm Hct Hk Hh Hi. apply String.eqb_neq in Hopt.
  rewrite (ServeHTTP_routed env req w _ _ Hf).
  assert (Hloop : Next_loop [AuthMiddleware; h] 6 (set_index 6 (handler_context env req ps w))
                    (entry_world env req w) = Done (set_index 9 c') w').
  { rewrite (auth_pass h _ (entry_world env req w) role c' w'); try done.
    - unfold incr_index. by rewrite set_index_set_index, index_set_index, Hi.
    - unfold GetHeader. rewrite Req_set_index.
      by destruct (handler_context_facts env req ps w) as (-> & _). }
  rewrite (chain_pass env [AuthMiddleware; h] (set_params ps (new_context req)) w
             (set_index 9 c') w'
             eq_refl Hopt Hadm Hct Hloop ltac:(rewrite index_set_index; simpl; lia)).
  by rewrite index_set_index, set_index_set_index, logged_set_index.
Qed.

Lemma ServeHTTP_denied env req w (h : Handler) ps :
  find_route (Method req) (Path req) (routes env) = Some ([AuthMiddleware; h], ps) ->
  Method req <> "OPTIONS" -> admitted env req w = true -> content_type_ok req = true ->
  apiKeys !! api_key req = None ->
  let cR := Set_ "role" ""
              (JSON 401 (mkResponse false NoData "" "invalid or missing API key"
                                    (uuids env (drawn w)))
                    (handler_context env req ps w)) in
  ServeHTTP env req w
  = Done (set_index 71 cR) (logged env (clock env (ticks w)) cR (entry_world env req w)).
Proof.
  intros Hf Hopt Hadm Hct Hk cR. apply String.eqb_neq in Hopt.
  rewrite (ServeHTTP_routed env req w _ _ Hf).
  assert (Hloop : Next_loop [AuthMiddleware; h] 6 (set_index 6 (handler_context env req ps w))
                    (entry_world env req w) = Done (set_index 65 cR) (entry_world env req w)).
  { rewrite tail_protected_denied.
    - by destruct (handler_context_facts env req ps w) as (_ & _ & _ & _ & _ & -> & _).
    - unfold GetHeader.
      by destruct (handler_context_facts env req ps w) as (-> & _). }
  rewrite (chain_pass env [AuthMiddleware; h] (set_params ps (new_context req)) w
             (set_index 65 cR) (entry_world env req w)
             eq_refl Hopt Hadm Hct Hloop ltac:(rewrite index_set_index; simpl; lia)).
  by rewrite index_set_index, set_index_set_index, logged_set_index.
Qed.

Lemma apiKeys_spec key :
  apiKeys !! key
  = if decide (key = "admin-key") then Some "admin"
    else if decide (key = "user-key-456") then Some "user" else None.
Proof.
  unfold apiKeys.
  destruct (decide (key = "admin-key")) as [->|H1]; [by rewrite lookup_insert_eq|].
  rewrite lookup_insert_ne by done.
  destruct (decide (key = "user-key-456")) as [->|H2]; [by rewrite lookup_insert_eq|].
  by rewrite lookup_insert_ne.
Qed.

(** ** The statistics *)

Lemma find_route_stats env :
  find_route "GET" "/admin/stats" (routes env) = Some ([AuthMiddleware; getStats], ∅).
Proof. reflexivity. Qed.

Lemma role_context_facts env req ps w role :
  let c := set_index 7 (Set_ "role" role (handler_context env req ps w)) in
  Req c = req /\ Params c = ps /\ written c = false /\ envelopes c = [] /\ index c = 7
  /\ GetString "role" c = role.
Proof.
  cbv zeta.
  destruct (handler_context_facts env req ps w) as (HR & HP & HW & HB & _).
  rewrite Req_set_index, Req_Set, Params_set_index, Params_Set, written_set_index,
    written_Set, envelopes_set_index, envelopes_Set, index_set_index.
  unfold envelopes. rewrite HB.
  repeat split; try done.
  unfold GetString. rewrite Keys_set_index, Keys_Set. by rewrite lookup_insert_eq.
Qed.

(** X10. [getStats] behind [AuthMiddleware]: for a GET on [/admin/stats]
    admitted by the rate limit, the key "admin-key" gets 200 with the number
    of stored articles and the uptime "24h"; the key "user-key-456" gets 403
    "admin access required"; any other key, or none, gets 401 with the
    correlation id. The store is unchanged in all three cases. *)
Theorem stats_are_served_to_the_admin_key_only env req w :
  Method req = "GET" -> Path req = "/admin/stats" -> admitted env req w = true ->
  exists c' w',
    ServeHTTP env req w = Done c' w'
    /\ articles w' = articles w
    /\ (api_key req = "admin-key" ->
        status c' = 200
        /\ envelopes c'
           = [mkResponse true (Stats (Z.of_nat (length (articles w))) "24h") "" "" ""])
    /\ (api_key req = "user-key-456" ->
        status c' = 403
        /\ envelopes c' = [mkResponse false NoData "" "admin access required" ""])
    /\ (api_key req <> "admin-key" -> api_key req <> "user-key-456" ->
        status c' = 401
        /\ envelopes c' = [mkResponse false NoData "" "invalid or missing API key"
                                      (uuids env (drawn w))]).
Proof.
  intros Hm Hp Hadm.
  assert (Hf : find_route (Method req) (Path req) (routes env)
               = Some ([AuthMiddleware; getStats], ∅)).
  { rewrite Hm, Hp. apply find_route_stats. }
  assert (Hopt : Method req <> "OPTIONS") by (by rewrite Hm).
  assert (Hct : content_type_ok req = true).
  { unfold content_type_ok. by rewrite Hm. }
  destruct (entry_world_facts env req w) as (Ea & _).
  pose proof (apiKeys_spec (api_key req)) as Hk.
  destruct (decide (api_key req = "admin-key")) as [Ek|Ek];
    [|destruct (decide (api_key req = "user-key-456")) as [Ek'|Ek']].
  - (* the administrator *)
    destruct (role_context_facts env req ∅ w "admin") as (HR & HP & HW & HE & HI & HG).
    remember (set_index 7 (Set_ "role" "admin" (handler_context env req ∅ w))) as cE.
    eexists _, _. split.
    { apply (ServeHTTP_protected env req w getStats ∅ "admin"
               (JSON 200 (mkResponse true
                            (Stats (Z.of_nat (length (articles (entry_world env req w)))) "24h")
                            "" "" "") cE)
               (entry_world env req w) Hf Hopt Hadm Hct Hk).
      - intros next. rewrite <- HeqcE. unfold getStats. rewrite HG. reflexivity.
      - by rewrite index_JSON. }
    rewrite articles_logged, status_set_index, envelopes_set_index, envelopes_JSON, HE.
    split; [exact Ea|]. split; [|split; [|done]].
    + intros _. rewrite status_JSON by done. by rewrite Ea.
    + intros E. rewrite E in Ek. discriminate.
  - (* another user *)
    destruct (role_context_facts env req ∅ w "user") as (HR & HP & HW & HE & HI & HG).
    remember (set_index 7 (Set_ "role" "user" (handler_context env req ∅ w))) as cE.
    eexists _, _. split.
    { apply (ServeHTTP_protected env req w getStats ∅ "user"
               (JSON 403 (mkResponse false NoData "" "admin access required" "") cE)
               (entry_world env req w) Hf Hopt Hadm Hct Hk).
      - intros next. rewrite <- HeqcE. unfold getStats. rewrite HG. reflexivity.
      - by rewrite index_JSON. }
    rewrite articles_logged, status_set_index, envelopes_set_index, envelopes_JSON, HE.
    split; [exact Ea|]. split; [done|]. split; [|done].
    intros _. by rewrite status_JSON.
  - (* no key of the mapping *)
    pose proof (ServeHTTP_denied env req w getStats ∅ Hf Hopt Hadm Hct Hk) as E.
    cbv zeta in E.
    destruct (handler_context_facts env req ∅ w) as (HR & HP & HW & HB & _).
    eexists _, _. split; [exact E|].
    rewrite articles_logged, status_set_index, envelopes_set_index, status_Set,
      envelopes_Set, envelopes_JSON.
    split; [exact Ea|]. split; [done|]. split; [done|].
    intros _ _. rewrite status_JSON by done. unfold envelopes. by rewrite HB.
Qed.

Lemma stats_are_served_to_the_admin_key_only_witness :
  let req := with_key "admin-key" "GET" "/admin/stats" (mkArticle 0 "" "" "" 0 0) in
  let w := initial_world example_env in
  exists c' w',
    ServeHTTP example_env req w = Done c' w'
    /\ articles w' = articles w
    /\ (api_key req = "admin-key" ->
        status c' = 200
        /\ envelopes c'
           = [mkResponse true (Stats (Z.of_nat (length (articles w))) "24h") "" "" ""])
    /\ (api_key req = "user-key-456" ->
        status c' = 403
        /\ envelopes c' = [mkResponse false NoData "" "admin access required" ""])
    /\ (api_key req <> "admin-key" -> api_key req <> "user-key-456" ->
        status c' = 401
        /\ envelopes c' = [mkResponse false NoData "" "invalid or missing API key"
                                      (uuids example_env (drawn w))]).
Proof.
  intros req w.
  apply (stats_are_served_to_the_admin_key_only example_env req w).
  - reflexivity.
  - reflexivity.
  - vm_compute. reflexivity.
Defined.

(** ** Paths with an identifier *)

Lemma split_path_no_slash p : no_slash p = true -> split_path p = [p].
Proof.
  induction p as [|ch p IH]; [done|]. simpl.
  destruct (Ascii.eqb ch "/"%char); [done|]. simpl. intros H. by rewrite IH.
Qed.

Lemma split_path_article p :
  split_path ("/article/" ++ p)%string = "" :: "article" :: split_path p.
Proof. reflexivity. Qed.

Lemma split_path_articles p :
  split_path ("/articles/" ++ p)%string = "" :: "articles" :: split_path p.
Proof. reflexivity. Qed.

Lemma find_route_delete env p :
  segment p = true ->
  find_route "DELETE" ("/article/" ++ p)%string (routes env)
  = Some ([AuthMiddleware; deleteArticle], {["id" := p]}).
Proof.
  intros Hs. unfold segment in Hs. apply andb_true_iff in Hs as [Hne Hns].
  apply negb_true_iff in Hne.
  unfold routes, public_routes, protected_routes.
  cbn [app find_route route_method route_path route_handlers].
  change (String.eqb "GET" "DELETE") with false.
  change (String.eqb "POST" "DELETE") with false.
  change (String.eqb "PUT" "DELETE") with false.
  change (String.eqb "DELETE" "DELETE") with true.
  cbv iota.
  rewrite split_path_article, (split_path_no_slash p) by done.
  change (split_path "/article/:id") with ["" ; "article"; ":id"].
  cbn [match_segments]. 
  change (String.eqb "" "") with true. change (String.eqb "article" "article") with true.
  cbv iota. rewrite Hne. reflexivity.
Qed.

Lemma find_route_get env p :
  segment p = true ->
  find_route "GET" ("/articles/" ++ p)%string (routes env)
  = Some ([getArticleById], {["id" := p]}).
Proof.
  intros Hs. unfold segment in Hs. apply andb_true_iff in Hs as [Hne Hns].
  apply negb_true_iff in Hne.
  unfold routes, public_routes, protected_routes.
  cbn [app find_route route_method route_path route_handlers].
  change (String.eqb "GET" "GET") with true.
  cbv iota.
  rewrite split_path_articles, (split_path_no_slash p) by done.
  change (split_path "/ping") with ["" ; "ping"].
  change (split_path "/articles") with ["" ; "articles"].
  change (split_path "/articles/:id") with ["" ; "articles"; ":id"].
  cbn [match_segments]. 
  change (String.eqb "" "") with true. change (String.eqb "articles" "articles") with true.
  change (String.eqb "ping" "articles") with false.
  cbv iota. rewrite Hne. reflexivity.
Qed.

Lemma find_route_put env p :
  segment p = true ->
  find_route "PUT" ("/articles/" ++ p)%string (routes env)
  = Some ([AuthMiddleware; updateArticle env], {["id" := p]}).
Proof.
  intros Hs. unfold segment in Hs. apply andb_true_iff in Hs as [Hne Hns].
  apply negb_true_iff in Hne.
  unfold routes, public_routes, protected_routes.
  cbn [app find_route route_method route_path route_handlers].
  change (String.eqb "GET" "PUT") with false.
  change (String.eqb "POST" "PUT") with false.
  change (String.eqb "PUT" "PUT") with true.
  cbv iota.
  rewrite split_path_articles, (split_path_no_slash p) by done.
  change (split_path "/articles/:id") with ["" ; "articles"; ":id"].
  cbn [match_segments]. 
  change (String.eqb "" "") with true. change (String.eqb "articles" "articles") with true.
  cbv iota. rewrite Hne. reflexivity.
Qed.

(** ** Lookups in a store that changes *)

Lemma find_from_fst i i' l id : fst (find_from i l id) = fst (find_from i' l id).
Proof.
  revert i i'. induction l as [|b l IH]; intros i i'; simpl; [done|].
  destruct (ID b =? id); [done | apply IH].
Qed.

Lemma find_from_app i l1 l2 id :
  find_from i (l1 ++ l2) id
  = match find_from i l1 id with
    | (Some a, j) => (Some a, j)
    | (None, _) => find_from (i + Z.of_nat (length l1)) l2 id
    end.
Proof.
  revert i. induction l1 as [|b l1 IH]; intros i; simpl.
  - by rewrite Z.add_0_r.
  - destruct (ID b =? id); [done|]. rewrite IH.
    replace (i + 1 + Z.of_nat (length l1)) with (i + Z.pos (Pos.of_succ_nat (length l1)))
      by lia.
    reflexivity.
Qed.

Lemma find_from_first i l id (n : nat) a :
  l !! n = Some a -> ID a = id ->
  (forall k b, (k < n)%nat -> l !! k = Some b -> ID b <> id) ->
  find_from i l id = (Some a, i + Z.of_nat n).
Proof.
  revert i n. induction l as [|b l IH]; intros i n Hl Hid Hfirst; [done|].
  destruct n as [|n]; simpl in *.
  - injection Hl as ->. apply Z.eqb_eq in Hid. rewrite Hid. by rewrite Z.add_0_r.
  - assert (Hb : ID b <> id) by (apply (Hfirst 0%nat); [lia | done]).
    apply Z.eqb_neq in Hb. rewrite Hb.
    rewrite (IH (i + 1) n Hl Hid).
    + f_equal. lia.
    + intros k b' Hk Hl'. apply (Hfirst (S k)); [lia | done].
Qed.

Lemma findArticleByID_first arts id (n : nat) a :
  arts !! n = Some a -> ID a = id ->
  (forall k b, (k < n)%nat -> arts !! k = Some b -> ID b <> id) ->
  findArticleByID arts id = (Some a, Z.of_nat n).
Proof. intros. unfold findArticleByID. by rewrite (find_from_first 0 arts id n a). Qed.

(** Among distinct identifiers the article with a given identifier is the
    first one that has it. *)
Lemma NoDup_first (arts : list Article) (n : nat) a :
  NoDup (ID <$> arts) -> arts !! n = Some a ->
  forall k b, (k < n)%nat -> arts !! k = Some b -> ID b <> ID a.
Proof.
  intros Hnd Hl k b Hk Hb E.
  assert (k = n); [|lia].
  eapply NoDup_lookup; [exact Hnd | |].
  - rewrite list_lookup_fmap, Hb. reflexivity.
  - rewrite list_lookup_fmap, Hl. simpl. by rewrite E.
Qed.

Lemma findArticleByID_first_match' arts id :
  (exists (n : nat) a,
      findArticleByID arts id = (Some a, Z.of_nat n)
      /\ arts !! n = Some a /\ ID a = id
      /\ forall k b, (k < n)%nat -> arts !! k = Some b -> ID b <> id)
  \/ (findArticleByID arts id = (None, -1) /\ forall b, b ∈ arts -> ID b <> id).
Proof.
  destruct (find_from_shape 0 arts id) as [(a & j & H)|H].
  - left. pose proof (find_from_Some 0 arts id a j H) as (Hj & Hl & Hid & Hfirst).
    rewrite Z.sub_0_r in Hl, Hfirst.
    exists (Z.to_nat j), a. unfold findArticleByID. rewrite H.
    repeat split; try done. f_equal. lia.
  - right. split; [exact H|]. apply find_from_None in H.
    by apply Forall_forall.
Qed.

(** X18. [findArticleByID]: either it returns an article and its position,
    and then this is the first position of the slice whose article has the
    identifier asked for; or it returns no article and the index -1, and then
    no stored article has that identifier. *)
Theorem findArticleByID_first_match arts id :
  (exists (n : nat) a,
      findArticleByID arts id = (Some a, Z.of_nat n)
      /\ arts !! n = Some a /\ ID a = id
      /\ forall k b, (k < n)%nat -> arts !! k = Some b -> ID b <> id)
  \/ (findArticleByID arts id = (None, -1) /\ forall b, b ∈ arts -> ID b <> id).
Proof.
  destruct (find_from_shape 0 arts id) as [(a & j & H)|H].
  - left. pose proof (find_from_Some 0 arts id a j H) as (Hj & Hl & Hid & Hfirst).
    rewrite Z.sub_0_r in Hl, Hfirst.
    exists (Z.to_nat j), a. unfold findArticleByID. rewrite H.
    repeat split; try done. f_equal. lia.
  - right. split; [exact H|]. apply find_from_None in H.
    by apply Forall_forall.
Qed.

Lemma insert_same_id (l : list Article) (n : nat) a a' k b' :
  l !! n = Some a -> ID a' = ID a -> <[n := a']> l !! k = Some b' ->
  exists b, l !! k = Some b /\ ID b = ID b' /\ (k <> n -> b' = b) /\ (k = n -> b' = a').
Proof.
  intros Hl Hid Hk. destruct (decide (k = n)) as [->|Hne].
  - rewrite list_lookup_insert_eq in Hk by (by eapply lookup_lt_Some).
    injection Hk as <-. exists a. repeat split; try done; congruence.
  - rewrite list_lookup_insert_ne in Hk by done. by exists b'.
Qed.

Lemma findArticleByID_insert arts (n : nat) a a' id :
  arts !! n = Some a -> ID a' = ID a ->
  findArticleByID (<[n := a']> arts) id
  = match findArticleByID arts id with
    | (Some b, j) => (Some (if decide (j = Z.of_nat n) then a' else b), j)
    | (None, j) => (None, j)
    end.
Proof.
  intros Hl Hid.
  destruct (find_from_shape 0 arts id) as [(b & j & H)|H]; unfold findArticleByID at 2;
    rewrite H.
  - pose proof (find_from_Some 0 arts id b j H) as (Hj & Hb & Hidb & Hfirst).
    rewrite Z.sub_0_r in Hb, Hfirst.
    rewrite (findArticleByID_first _ id (Z.to_nat j)
               (if decide (j = Z.of_nat n) then a' else b));
      [by rewrite Z2Nat.id by done | | |].
    + destruct (decide (j = Z.of_nat n)) as [->|Hne].
      * rewrite Nat2Z.id. apply list_lookup_insert_eq. by eapply lookup_lt_Some.
      * rewrite list_lookup_insert_ne by lia. exact Hb.
    + destruct (decide (j = Z.of_nat n)) as [->|Hne]; [|done].
      rewrite Nat2Z.id in Hb. congruence.
    + intros k b' Hk Hb'.
      destruct (insert_same_id arts n a a' k b' Hl Hid Hb') as (b0 & Hb0 & E & _).
      rewrite <- E. by eapply Hfirst.
  - apply findArticleByID_None. apply find_from_None in H.
    apply Forall_insert; [done|]. rewrite Hid.
    rewrite Forall_forall in H. apply H. by eapply list_elem_of_lookup_2.
Qed.

Lemma findArticleByID_app_new arts a id :
  Forall (fun b => ID b <> ID a) arts ->
  findArticleByID (arts ++ [a]) id
  = if decide (id = ID a) then (Some a, Z.of_nat (length arts))
    else findArticleByID arts id.
Proof.
  intros Hnew. unfold findArticleByID. rewrite find_from_app.
  destruct (decide (id = ID a)) as [->|Hne].
  - rewrite (proj2 (find_from_None 0 arts (ID a)) Hnew). simpl. by rewrite Z.eqb_refl.
  - destruct (find_from_shape 0 arts id) as [(b & j & H)|H]; rewrite H; [done|].
    simpl. destruct (ID a =? id) eqn:E; [|done]. apply Z.eqb_eq in E. congruence.
Qed.

Lemma findArticleByID_delete arts (n : nat) a id :
  arts !! n = Some a -> NoDup (ID <$> arts) ->
  fst (findArticleByID (delete n arts) id)
  = if decide (id = ID a) then None else fst (findArticleByID arts id).
Proof.
  intros Hl Hnd.
  assert (Hsplit : arts = take n arts ++ a :: drop (S n) arts).
  { by rewrite <- (take_drop_middle arts n a) at 1. }
  rewrite delete_take_drop.
  destruct (decide (id = ID a)) as [->|Hne].
  - destruct (find_from_shape 0 (take n arts ++ drop (S n) arts) (ID a))
      as [(b & j & H)|H]; unfold findArticleByID; rewrite H; [|done].
    exfalso. apply find_from_Some in H as (_ & Hb & Hidb & _).
    rewrite <- delete_take_drop in Hb.
    set (k := Z.to_nat (j - 0)) in *.
    assert (Hk : (ID <$> delete n arts) !! k = Some (ID a)).
    { rewrite list_lookup_fmap, Hb. simpl. by rewrite Hidb. }
    rewrite list_fmap_delete in Hk.
    assert (Hn : (ID <$> arts) !! n = Some (ID a)).
    { by rewrite list_lookup_fmap, Hl. }
    destruct (decide (k < n)%nat) as [Hlt|Hge].
    + rewrite list_lookup_delete_lt in Hk by done.
      pose proof (NoDup_lookup _ _ _ _ Hnd Hk Hn). lia.
    + rewrite list_lookup_delete_ge in Hk by lia.
      pose proof (NoDup_lookup _ _ _ _ Hnd Hk Hn). lia.
  - unfold findArticleByID. rewrite Hsplit at 3. rewrite !find_from_app.
    destruct (find_from 0 (take n arts) id) as [[b|] j]; [done|].
    cbn [find_from]. destruct (ID a =? id) eqn:E.
    { apply Z.eqb_eq in E. congruence. }
    apply find_from_fst.
Qed.

(** ** Reads through the chain *)

Lemma getArticleById_found (next : Context -> World -> Outcome) c w a j :
  findArticleByID (articles w) (fst (Atoi (Param "id" c))) = (Some a, j) ->
  getArticleById next c w
  = Done (JSON 200 (mkResponse true (OneArticle a) "" "" (GetString "request_id" c)) c) w.
Proof.
  intros H. unfold getArticleById.
  destruct (Atoi (Param "id" c)) as [id e]. simpl in H. by rewrite H.
Qed.

Lemma getArticleById_missing (next : Context -> World -> Outcome) c w :
  findArticleByID (articles w) (fst (Atoi (Param "id" c))) = (None, -1) ->
  getArticleById next c w
  = Done (JSON 404 (mkResponse false NoData "" "article not found"
                               (GetString "request_id" c)) c) w.
Proof.
  intros H. unfold getArticleById.
  destruct (Atoi (Param "id" c)) as [id e]. simpl in H. by rewrite H.
Qed.

Lemma public_context_facts env req ps w :
  let c := set_index 6 (handler_context env req ps w) in
  Req c = req /\ Params c = ps /\ written c = false /\ envelopes c = [] /\ index c = 6
  /\ GetString "request_id" c = uuids env (drawn w).
Proof.
  cbv zeta.
  destruct (handler_context_facts env req ps w) as (HR & HP & HW & HB & _ & HG & _).
  rewrite Req_set_index, Params_set_index, written_set_index, envelopes_set_index,
    index_set_index.
  unfold envelopes. rewrite HB. repeat split; try done.
Qed.

Lemma Param_id (p : string) (c : Context) : Params c = {["id" := p]} -> Param "id" c = p.
Proof. intros H. unfold Param. rewrite H. by rewrite lookup_singleton_eq. Qed.

(** X11. [GET /articles/:id] through the whole chain, for every path segment
    [p] that is not empty and has no slash, and whatever the key: the
    identifier is what [strconv.Atoi] makes of [p]; if no stored article has
    it the answer is 404 "article not found", otherwise 200 with the first
    article that has it; both envelopes carry the correlation id, and the
    store is unchanged. *)
Theorem get_article_by_path env req w p :
  Method req = "GET" -> Path req = ("/articles/" ++ p)%string -> segment p = true ->
  admitted env req w = true ->
  let id := fst (Atoi p) in
  exists c' w',
    ServeHTTP env req w = Done c' w'
    /\ articles w' = articles w /\ nextId w' = nextId w
    /\ ((forall b, b ∈ articles w -> ID b <> id) ->
        status c' = 404
        /\ envelopes c' = [mkResponse false NoData "" "article not found"
                                      (uuids env (drawn w))])
    /\ (forall (n : nat) a,
          articles w !! n = Some a -> ID a = id ->
          (forall k b, (k < n)%nat -> articles w !! k = Some b -> ID b <> id) ->
          status c' = 200
          /\ envelopes c' = [mkResponse true (OneArticle a) "" "" (uuids env (drawn w))]).
Proof.
  intros Hm Hp Hseg Hadm id.
  assert (Hf : find_route (Method req) (Path req) (routes env)
               = Some ([getArticleById], {["id" := p]})).
  { rewrite Hm, Hp. by apply find_route_get. }
  assert (Hopt : Method req <> "OPTIONS") by (by rewrite Hm).
  assert (Hct : content_type_ok req = true).
  { unfold content_type_ok. by rewrite Hm. }
  destruct (entry_world_facts env req w) as (Ea & En & _).
  destruct (public_context_facts env req {["id" := p]} w) as (HR & HP & HW & HE & HI & HG).
  remember (set_index 6 (handler_context env req {["id" := p]} w)) as cE.
  pose proof (Param_id p cE HP) as Hpar.
  destruct (findArticleByID_first_match' (articles w) id) as [(n & a & Hfind & Hl & Hid & Hfirst)|[Hfind Hnone]].
  - eexists _, _. split.
    { apply (ServeHTTP_public env req w getArticleById {["id" := p]}
               (JSON 200 (mkResponse true (OneArticle a) "" "" (GetString "request_id" cE)) cE)
               (entry_world env req w) Hf Hopt Hadm Hct).
      - intros next. rewrite <- HeqcE. apply (getArticleById_found next cE _ a (Z.of_nat n)).
        rewrite Hpar, Ea. exact Hfind.
      - by rewrite index_JSON. }
    rewrite articles_logged, nextId_logged, status_set_index, envelopes_set_index,
      envelopes_JSON, HE, HG.
    split; [exact Ea|]. split; [exact En|]. split.
    + intros Hno. exfalso. apply (Hno a); [by eapply list_elem_of_lookup_2 | done].
    + intros n' a' Hl' Hid' Hfirst'.
      rewrite (findArticleByID_first _ _ n' a' Hl' Hid' Hfirst') in Hfind.
      injection Hfind as -> _. by rewrite status_JSON.
  - eexists _, _. split.
    { apply (ServeHTTP_public env req w getArticleById {["id" := p]}
               (JSON 404 (mkResponse false NoData "" "article not found"
                                     (GetString "request_id" cE)) cE)
               (entry_world env req w) Hf Hopt Hadm Hct).
      - intros next. rewrite <- HeqcE. apply getArticleById_missing.
        rewrite Hpar, Ea. exact Hfind.
      - by rewrite index_JSON. }
    rewrite articles_logged, nextId_logged, status_set_index, envelopes_set_index,
      envelopes_JSON, HE, HG.
    split; [exact Ea|]. split; [exact En|]. split.
    + intros _. by rewrite status_JSON.
    + intros n' a' Hl' Hid' _. exfalso.
      apply (Hnone a'); [by eapply list_elem_of_lookup_2 | done].
Qed.

Lemma get_article_by_path_witness :
  let req := get "/articles/2" in
  let w := initial_world example_env in
  let id := fst (Atoi "2") in
  exists c' w',
    ServeHTTP example_env req w = Done c' w'
    /\ articles w' = articles w /\ nextId w' = nextId w
    /\ ((forall b, b ∈ articles w -> ID b <> id) ->
        status c' = 404
        /\ envelopes c' = [mkResponse false NoData "" "article not found"
                                      (uuids example_env (drawn w))])
    /\ (forall (n : nat) a,
          articles w !! n = Some a -> ID a = id ->
          (forall k b, (k < n)%nat -> articles w !! k = Some b -> ID b <> id) ->
          status c' = 200
          /\ envelopes c' = [mkResponse true (OneArticle a) "" ""
                                        (uuids example_env (drawn w))]).
Proof.
  intros req w id.
  apply (get_article_by_path example_env req w "2").
  - reflexivity.
  - reflexivity.
  - reflexivity.
  - vm_compute. reflexivity.
Defined.

(** ** The delete route *)

(** X13. [DELETE /article/:id] through the whole chain, with any key of the
    mapping (the role is not looked at: "user" may delete) and no condition on
    the content type: if no stored article has the identifier read from the
    path the answer is 404 and the store is unchanged; otherwise it is 200
    "article deleted" and the store is the old one without the first article
    that has the identifier. [nextId] stays in both cases, and neither
    envelope carries the correlation id. *)
Theorem delete_article_by_path env req w p :
  Method req = "DELETE" -> Path req = ("/article/" ++ p)%string -> segment p = true ->
  is_Some (apiKeys !! api_key req) -> admitted env req w = true ->
  let id := fst (Atoi p) in
  exists c' w',
    ServeHTTP env req w = Done c' w'
    /\ nextId w' = nextId w
    /\ ((forall b, b ∈ articles w -> ID b <> id) ->
        status c' = 404
        /\ envelopes c' = [mkResponse false NoData "" "article not found" ""]
        /\ articles w' = articles w)
    /\ (forall (n : nat) a,
          articles w !! n = Some a -> ID a = id ->
          (forall k b, (k < n)%nat -> articles w !! k = Some b -> ID b <> id) ->
          status c' = 200
          /\ envelopes c' = [mkResponse true NoData "article deleted" "" ""]
          /\ articles w' = delete n (articles w)).
Proof.
  intros Hm Hp Hseg [role Hk] Hadm id.
  assert (Hf : find_route (Method req) (Path req) (routes env)
               = Some ([AuthMiddleware; deleteArticle], {["id" := p]})).
  { rewrite Hm, Hp. by apply find_route_delete. }
  assert (Hopt : Method req <> "OPTIONS") by (by rewrite Hm).
  assert (Hct : content_type_ok req = true).
  { unfold content_type_ok. by rewrite Hm. }
  destruct (entry_world_facts env req w) as (Ea & En & _).
  destruct (role_context_facts env req {["id" := p]} w role) as (HR & HP & HW & HE & HI & HG).
  remember (set_index 7 (Set_ "role" role (handler_context env req {["id" := p]} w))) as cE.
  pose proof (Param_id p cE HP) as Hpar.
  destruct (findArticleByID_first_match' (articles w) id)
    as [(n & a & Hfind & Hl & Hid & Hfirst)|[Hfind Hnone]].
  - eexists _, _. split.
    { apply (ServeHTTP_protected env req w deleteArticle {["id" := p]} role
               (JSON 200 (mkResponse true NoData "article deleted" "" "") cE)
               (set_articles (delete (Z.to_nat (Z.of_nat n)) (articles (entry_world env req w)))
                             (entry_world env req w))
               Hf Hopt Hadm Hct Hk).
      - intros next. rewrite <- HeqcE. apply (deleteArticle_found next cE _ a).
        rewrite Hpar, Ea. exact Hfind.
      - by rewrite index_JSON. }
    rewrite articles_logged, nextId_logged, status_set_index, envelopes_set_index,
      envelopes_JSON, HE.
    split; [exact En|]. split.
    + intros Hno. exfalso. apply (Hno a); [by eapply list_elem_of_lookup_2 | done].
    + intros n' a' Hl' Hid' Hfirst'.
      rewrite (findArticleByID_first _ _ n' a' Hl' Hid' Hfirst') in Hfind.
      injection Hfind as -> Hn. apply Nat2Z.inj in Hn. subst n'.
      rewrite status_JSON by done. split; [done|]. split; [done|].
      cbn [articles set_articles]. by rewrite Nat2Z.id, Ea.
  - eexists _, _. split.
    { apply (ServeHTTP_protected env req w deleteArticle {["id" := p]} role
               (JSON 404 (mkResponse false NoData "" "article not found" "") cE)
               (entry_world env req w) Hf Hopt Hadm Hct Hk).
      - intros next. rewrite <- HeqcE. apply deleteArticle_missing.
        rewrite Hpar, Ea. exact Hfind.
      - by rewrite index_JSON. }
    rewrite articles_logged, nextId_logged, status_set_index, envelopes_set_index,
      envelopes_JSON, HE.
    split; [exact En|]. split.
    + intros _. by rewrite status_JSON.
    + intros n' a' Hl' Hid' _. exfalso.
      apply (Hnone a'); [by eapply list_elem_of_lookup_2 | done].
Qed.

Lemma delete_article_by_path_witness :
  let req := with_key "user-key-456" "DELETE" "/article/1" (mkArticle 0 "" "" "" 0 0) in
  let w := initial_world example_env in
  let id := fst (Atoi "1") in
  exists c' w',
    ServeHTTP example_env req w = Done c' w'
    /\ nextId w' = nextId w
    /\ ((forall b, b ∈ articles w -> ID b <> id) ->
        status c' = 404
        /\ envelopes c' = [mkResponse false NoData "" "article not found" ""]
        /\ articles w' = articles w)
    /\ (forall (n : nat) a,
          articles w !! n = Some a -> ID a = id ->
          (forall k b, (k < n)%nat -> articles w !! k = Some b -> ID b <> id) ->
          status c' = 200
          /\ envelopes c' = [mkResponse true NoData "article deleted" "" ""]
          /\ articles w' = delete n (articles w)).
Proof.
  intros req w id.
  apply (delete_article_by_path example_env req w "1").
  - reflexivity.
  - reflexivity.
  - reflexivity.
  - eexists. reflexivity.
  - vm_compute. reflexivity.
Defined.

(** ** The public reads *)

Lemma find_route_ping env : find_route "GET" "/ping" (routes env) = Some ([ping], ∅).
Proof. reflexivity. Qed.

Lemma find_route_articles env :
  find_route "GET" "/articles" (routes env) = Some ([getArticles], ∅).
Proof. reflexivity. Qed.

(** X14. [GET /articles] through the whole chain: any client admitted by the
    rate limit, with or without a key, gets 200 with all stored articles in
    the order of the slice and the correlation id; the store is unchanged. *)
Theorem list_is_served_without_a_key env req w :
  Method req = "GET" -> Path req = "/articles" -> admitted env req w = true ->
  exists c' w',
    ServeHTTP env req w = Done c' w'
    /\ status c' = 200
    /\ envelopes c' = [mkResponse true (ManyArticles (articles w)) "" ""
                                  (uuids env (drawn w))]
    /\ articles w' = articles w /\ nextId w' = nextId w.
Proof.
  intros Hm Hp Hadm.
  assert (Hf : find_route (Method req) (Path req) (routes env) = Some ([getArticles], ∅)).
  { rewrite Hm, Hp. apply find_route_articles. }
  assert (Hopt : Method req <> "OPTIONS") by (by rewrite Hm).
  assert (Hct : content_type_ok req = true).
  { unfold content_type_ok. by rewrite Hm. }
  destruct (entry_world_facts env req w) as (Ea & En & _).
  destruct (public_context_facts env req ∅ w) as (HR & HP & HW & HE & HI & HG).
  remember (set_index 6 (handler_context env req ∅ w)) as cE.
  eexists _, _. split.
  { apply (ServeHTTP_public env req w getArticles ∅
             (JSON 200 (mkResponse true (ManyArticles (articles (entry_world env req w)))
                                   "" "" (GetString "request_id" cE)) cE)
             (entry_world env req w) Hf Hopt Hadm Hct).
    - intros next. rewrite <- HeqcE. reflexivity.
    - by rewrite index_JSON. }
  rewrite articles_logged, nextId_logged, status_set_index, envelopes_set_index,
    envelopes_JSON, HE, HG, Ea.
  split; [by rewrite status_JSON|]. done.
Qed.

Lemma list_is_served_without_a_key_witness :
  let req := get "/articles" in
  let w := initial_world example_env in
  exists c' w',
    ServeHTTP example_env req w = Done c' w'
    /\ status c' = 200
    /\ envelopes c' = [mkResponse true (ManyArticles (articles w)) "" ""
                                  (uuids example_env (drawn w))]
    /\ articles w' = articles w /\ nextId w' = nextId w.
Proof.
  intros req w.
  apply (list_is_served_without_a_key example_env req w).
  - reflexivity.
  - reflexivity.
  - vm_compute. reflexivity.
Defined.

(** X15. [GET /ping] through the whole chain: any client admitted by the
    rate limit gets 200 with the message "pong" and the correlation id; the
    store is unchanged. *)
Theorem ping_answers_pong env req w :
  Method req = "GET" -> Path req = "/ping" -> admitted env req w = true ->
  exists c' w',
    ServeHTTP env req w = Done c' w'
    /\ status c' = 200
    /\ envelopes c' = [mkResponse true NoData "pong" "" (uuids env (drawn w))]
    /\ articles w' = articles w /\ nextId w' = nextId w.
Proof.
  intros Hm Hp Hadm.
  assert (Hf : find_route (Method req) (Path req) (routes env) = Some ([ping], ∅)).
  { rewrite Hm, Hp. apply find_route_ping. }
  assert (Hopt : Method req <> "OPTIONS") by (by rewrite Hm).
  assert (Hct : content_type_ok req = true).
  { unfold content_type_ok. by rewrite Hm. }
  destruct (entry_world_facts env req w) as (Ea & En & _).
  destruct (public_context_facts env req ∅ w) as (HR & HP & HW & HE & HI & HG).
  remember (set_index 6 (handler_context env req ∅ w)) as cE.
  eexists _, _. split.
  { apply (ServeHTTP_public env req w ping ∅
             (JSON 200 (mkResponse true NoData "pong" "" (GetString "request_id" cE)) cE)
             (entry_world env req w) Hf Hopt Hadm Hct).
    - intros next. rewrite <- HeqcE. reflexivity.
    - by rewrite index_JSON. }
  rewrite articles_logged, nextId_logged, status_set_index, envelopes_set_index,
    envelopes_JSON, HE, HG.
  split; [by rewrite status_JSON|]. done.
Qed.

Lemma ping_answers_pong_witness :
  let req := get "/ping" in
  let w := initial_world example_env in
  exists c' w',
    ServeHTTP example_env req w = Done c' w'
    /\ status c' = 200
    /\ envelopes c' = [mkResponse true NoData "pong" "" (uuids example_env (drawn w))]
    /\ articles w' = articles w /\ nextId w' = nextId w.
Proof.
  intros req w.
  apply (ping_answers_pong example_env req w).
  - reflexivity.
  - reflexivity.
  - vm_compute. reflexivity.
Defined.

(** X16. The counter [nextId] never goes back: as long as it is below the
    largest [int], a request leaves it as it is or adds one to it, whatever
    the request (deleting an article does not give its identifier back). *)
Theorem nextId_never_goes_back env req w :
  min_int <= nextId w < max_int ->
  nextId w <= nextId (outcome_world (ServeHTTP env req w)) <= nextId w + 1.
Proof.
  intros Hb.
  destruct (redirected env req) eqn:Hred.
  { rewrite ServeHTTP_redirected by done. cbn [outcome_world]. lia. }
  destruct (ServeHTTP_outcome env req w Hred) as (cR & wR & cF & E & Ho).
  rewrite E. cbn [outcome_world]. rewrite nextId_logged.
  destruct Ho as (_ & _ & _ & _ & _ & _ & _ & _ & _ & _ & _ & _ & _ & [-> | ->]); [lia|].
  rewrite wrap_int_small; lia.
Qed.

Lemma nextId_never_goes_back_witness :
  let req := with_key "admin-key" "POST" "/articles" (mkArticle 0 "A" "B" "C" 0 0) in
  let w := initial_world example_env in
  nextId w <= nextId (outcome_world (ServeHTTP example_env req w)) <= nextId w + 1.
Proof.
  intros req w.
  apply (nextId_never_goes_back example_env req w).
  unfold min_int, max_int. simpl. lia.
Defined.

(** X17. [RateLimitMiddleware] sets [X-RateLimit-Limit: 100] before it asks
    the bucket: every response to a request that is neither a pre-flight nor
    redirected carries the header, the 429, the 404 of an unmatched path and
    the 401 included. *)
Theorem checked_response_advertises_the_limit env req w :
  redirected env req = false -> Method req <> "OPTIONS" ->
  Header (outcome_context (ServeHTTP env req w)) !! "X-RateLimit-Limit" = Some "100".
Proof.
  intros Hdirect Hopt.
  destruct (ServeHTTP_outcome env req w Hdirect) as (cR & wR & cF & E & Ho).
  rewrite E. cbn [outcome_context].
  destruct Ho as (_ & _ & _ & _ & _ & _ & Hrl & _). by apply Hrl.
Qed.

Lemma checked_response_advertises_the_limit_witness :
  Header (outcome_context (ServeHTTP example_env (get "/nowhere")
                                     (initial_world example_env)))
    !! "X-RateLimit-Limit" = Some "100".
Proof.
  apply (checked_response_advertises_the_limit example_env (get "/nowhere")
           (initial_world example_env)).
  - reflexivity.
  - discriminate.
Defined.

(** ** Writes, then reads *)

(** X19. Create, then read: when every stored identifier is below [nextId]
    (an invariant of the store), the article that [createArticle] stores is
    the one that [findArticleByID] and [getArticleById] find under the
    identifier it was given, at the end of the slice; and the lookup of every
    other identifier gives what it gave before. *)
Theorem created_article_can_be_read env (next : Context -> World -> Outcome) c w :
  BodyErr (Req c) = None -> validateArticle (Body (Req c)) = None ->
  Forall (fun a => ID a < nextId w) (articles w) ->
  let w' := outcome_world (createArticle env next c w) in
  let stored := mkArticle (nextId w) (Title (Body (Req c))) (Content (Body (Req c)))
                          (Author (Body (Req c)))
                          (clock env (ticks w)) (clock env (S (ticks w))) in
  findArticleByID (articles w') (nextId w) = (Some stored, Z.of_nat (length (articles w)))
  /\ (forall (next2 : Context -> World -> Outcome) c2,
        fst (Atoi (Param "id" c2)) = nextId w ->
        getArticleById next2 c2 w'
        = Done (JSON 200 (mkResponse true (OneArticle stored) "" ""
                                     (GetString "request_id" c2)) c2) w')
  /\ (forall id, id <> nextId w ->
        findArticleByID (articles w') id = findArticleByID (articles w) id).
Proof.
  intros Hb Hv Hbelow w' stored.
  assert (Hw' : articles w' = articles w ++ [stored]).
  { subst w'. by rewrite createArticle_ok. }
  assert (Hnew : Forall (fun b => ID b <> ID stored) (articles w)).
  { eapply Forall_impl; [exact Hbelow|]. simpl. lia. }
  pose proof (findArticleByID_app_new (articles w) stored) as Hfind.
  rewrite <- Hw' in Hfind. clearbody w'.
  assert (Hhere : findArticleByID (articles w') (nextId w)
                  = (Some stored, Z.of_nat (length (articles w)))).
  { rewrite Hfind by done. by rewrite decide_True. }
  split; [exact Hhere|]. split.
  - intros next2 c2 Hid.
    apply (getArticleById_found next2 c2 w' stored (Z.of_nat (length (articles w)))).
    rewrite Hid. exact Hhere.
  - intros id Hne. rewrite Hfind by done. by rewrite decide_False.
Qed.

Lemma created_article_can_be_read_witness :
  let c := new_context (with_key "admin-key" "POST" "/articles"
                                 (mkArticle 0 "A" "B" "C" 0 0)) in
  let w := initial_world example_env in
  let w' := outcome_world (createArticle example_env (fun c w => Done c w) c w) in
  let stored := mkArticle 3 "A" "B" "C" 1004 1005 in
  findArticleByID (articles w') 3 = (Some stored, 2)
  /\ (forall (next2 : Context -> World -> Outcome) c2,
        fst (Atoi (Param "id" c2)) = 3 ->
        getArticleById next2 c2 w'
        = Done (JSON 200 (mkResponse true (OneArticle stored) "" ""
                                     (GetString "request_id" c2)) c2) w')
  /\ (forall id, id <> 3 ->
        findArticleByID (articles w') id = findArticleByID (articles w) id).
Proof.
  intros c w w' stored.
  apply (created_article_can_be_read example_env (fun c w => Done c w) c w).
  - reflexivity.
  - reflexivity.
  - repeat constructor.
Defined.

(** X20. Update, then read: after [updateArticle] has found an article, a
    lookup of the same identifier finds the updated record at the same
    position ([getArticleById] answers 200 with it), and the lookup of every
    other identifier gives what it gave before. *)
Theorem updated_article_can_be_read env (next : Context -> World -> Outcome) c w a j :
  findArticleByID (articles w) (fst (Atoi (Param "id" c))) = (Some a, j) ->
  let id := fst (Atoi (Param "id" c)) in
  let w' := outcome_world (updateArticle env next c w) in
  let a' := mkArticle (ID a) (Title (Body (Req c))) (Content (Body (Req c)))
                      (Author (Body (Req c))) (CreatedAt a) (clock env (ticks w)) in
  findArticleByID (articles w') id = (Some a', j)
  /\ (forall (next2 : Context -> World -> Outcome) c2,
        fst (Atoi (Param "id" c2)) = id ->
        getArticleById next2 c2 w'
        = Done (JSON 200 (mkResponse true (OneArticle a') "" ""
                                     (GetString "request_id" c2)) c2) w')
  /\ (forall id', id' <> id ->
        findArticleByID (articles w') id' = findArticleByID (articles w) id').
Proof.
  intros Hf id w' a'.
  assert (Hw' : articles w' = <[Z.to_nat j := a']> (articles w)).
  { subst w'. by rewrite (updateArticle_found env next c w a j Hf). }
  pose proof (findArticleByID_Some _ _ _ _ Hf) as (Hj & Hl & Hid).
  pose proof (fun id' => findArticleByID_insert (articles w) (Z.to_nat j) a a' id' Hl eq_refl)
    as Hfind.
  rewrite <- Hw' in Hfind. clearbody w'.
  assert (Hhere : findArticleByID (articles w') id = (Some a', j)).
  { rewrite Hfind. fold id in Hf. rewrite Hf. rewrite decide_True by lia. done. }
  split; [exact Hhere|]. split.
  - intros next2 c2 Hid2. apply (getArticleById_found next2 c2 w' a' j).
    rewrite Hid2. exact Hhere.
  - intros id' Hne. rewrite Hfind.
    destruct (findArticleByID (articles w) id') as [[b|] j'] eqn:Hf'; [|done].
    rewrite decide_False; [done|]. intros ->.
    apply findArticleByID_Some in Hf' as (_ & Hl' & Hid').
    rewrite Nat2Z.id in Hl'. unfold id in Hne. congruence.
Qed.

Lemma updated_article_can_be_read_witness :
  let c := set_params {["id" := "2"]}
             (new_context (with_key "admin-key" "PUT" "/articles/2"
                                    (mkArticle 0 "T" "C" "A" 0 0))) in
  let w := initial_world example_env in
  let w' := outcome_world (updateArticle example_env (fun c w => Done c w) c w) in
  let a' := mkArticle 2 "T" "C" "A" 1002 1004 in
  findArticleByID (articles w') 2 = (Some a', 1)
  /\ (forall (next2 : Context -> World -> Outcome) c2,
        fst (Atoi (Param "id" c2)) = 2 ->
        getArticleById next2 c2 w'
        = Done (JSON 200 (mkResponse true (OneArticle a') "" ""
                                     (GetString "request_id" c2)) c2) w')
  /\ (forall id', id' <> 2 ->
        findArticleByID (articles w') id' = findArticleByID (articles w) id').
Proof.
  intros c w w' a'.
  apply (updated_article_can_be_read example_env (fun c w => Done c w) c w
           (mkArticle 2 "Web Development with Gin" "Gin is a web framework..."
                      "Jane Smith" 1002 1003) 1).
  reflexivity.
Defined.

(** X21. Delete, then read: when the stored identifiers are pairwise
    distinct (an invariant of the store), after [deleteArticle] no article has
    the identifier asked for, so that a read and a second delete of it answer
    404 and change nothing; the lookup of every other identifier finds the
    article it found before; and the identifiers are still distinct. *)
Theorem deleted_article_is_gone (next : Context -> World -> Outcome) c w :
  NoDup (ID <$> articles w) ->
  let id := fst (Atoi (Param "id" c)) in
  let w' := outcome_world (deleteArticle next c w) in
  findArticleByID (articles w') id = (None, -1)
  /\ (forall (next2 : Context -> World -> Outcome) c2,
        fst (Atoi (Param "id" c2)) = id ->
        getArticleById next2 c2 w'
        = Done (JSON 404 (mkResponse false NoData "" "article not found"
                                     (GetString "request_id" c2)) c2) w'
        /\ deleteArticle next2 c2 w'
           = Done (JSON 404 (mkResponse false NoData "" "article not found" "") c2) w')
  /\ (forall id', id' <> id ->
        fst (findArticleByID (articles w') id') = fst (findArticleByID (articles w) id'))
  /\ NoDup (ID <$> articles w').
Proof.
  intros Hnd id w'.
  assert (Hcases :
    (exists (n : nat) a, articles w !! n = Some a /\ ID a = id
                         /\ articles w' = delete n (articles w))
    \/ (findArticleByID (articles w) id = (None, -1) /\ articles w' = articles w)).
  { subst w'. destruct (find_from_shape 0 (articles w) id) as [(a & j & Hf)|Hf].
    - left. rewrite (deleteArticle_found next c w a j Hf).
      apply findArticleByID_Some in Hf as (Hj & Hl & Hid).
      by exists (Z.to_nat j), a.
    - right. rewrite (deleteArticle_missing next c w Hf). by split. }
  clearbody w'.
  assert (Hgone : findArticleByID (articles w') id = (None, -1)).
  { destruct Hcases as [(n & a & Hl & Hid & ->)|[Hf ->]]; [|exact Hf].
    pose proof (findArticleByID_delete (articles w) n a id Hl Hnd) as H.
    rewrite decide_True in H by done.
    destruct (find_from_shape 0 (delete n (articles w)) id) as [(b & j & Hb)|Hb];
      unfold findArticleByID in *; rewrite Hb in *; [discriminate | done]. }
  split; [exact Hgone|]. split; [|split].
  - intros next2 c2 Hid2. split.
    + apply getArticleById_missing. by rewrite Hid2.
    + apply deleteArticle_missing. by rewrite Hid2.
  - intros id' Hne. destruct Hcases as [(n & a & Hl & Hid & ->)|[Hf ->]]; [|done].
    rewrite (findArticleByID_delete (articles w) n a id' Hl Hnd).
    rewrite decide_False; [done | congruence].
  - destruct Hcases as [(n & a & Hl & Hid & ->)|[Hf ->]]; [|done].
    rewrite list_fmap_delete. eapply sublist_NoDup; [exact Hnd | apply sublist_delete].
Qed.

Lemma deleted_article_is_gone_witness :
  let c := set_params {["id" := "1"]}
             (new_context (with_key "admin-key" "DELETE" "/article/1" (mkArticle 0 "" "" "" 0 0))) in
  let w := initial_world example_env in
  let w' := outcome_world (deleteArticle (fun c w => Done c w) c w) in
  findArticleByID (articles w') 1 = (None, -1)
  /\ (forall (next2 : Context -> World -> Outcome) c2,
        fst (Atoi (Param "id" c2)) = 1 ->
        getArticleById next2 c2 w'
        = Done (JSON 404 (mkResponse false NoData "" "article not found"
                                     (GetString "request_id" c2)) c2) w'
        /\ deleteArticle next2 c2 w'
           = Done (JSON 404 (mkResponse false NoData "" "article not found" "") c2) w')
  /\ (forall id', id' <> 1 ->
        fst (findArticleByID (articles w') id') = fst (findArticleByID (articles w) id'))
  /\ NoDup (ID <$> articles w').
Proof.
  intros c w w'.
  apply (deleted_article_is_gone (fun c w => Done c w) c w).
  simpl. apply NoDup_cons. split; [|apply NoDup_singleton].
  intros H. apply list_elem_of_singleton in H. discriminate.
Defined.

(** X22. [validateArticle] is called by [createArticle] only. When every
    stored article has a title, a content and an author, this is still so
    after [createArticle] and after [deleteArticle], and after
    [updateArticle] if the body has all three; but [updateArticle] with a
    body that lacks one of them (or that did not decode: the error of
    [ShouldBindJSON] is dropped) answers 200 and stores an article that
    [validateArticle] refuses. *)
Theorem only_update_stores_without_validating env (next : Context -> World -> Outcome) c w :
  Forall (fun a => validateArticle a = None) (articles w) ->
  Forall (fun a => validateArticle a = None)
         (articles (outcome_world (createArticle env next c w)))
  /\ Forall (fun a => validateArticle a = None)
            (articles (outcome_world (deleteArticle next c w)))
  /\ (validateArticle (Body (Req c)) = None ->
      Forall (fun a => validateArticle a = None)
             (articles (outcome_world (updateArticle env next c w))))
  /\ (forall a j,
        findArticleByID (articles w) (fst (Atoi (Param "id" c))) = (Some a, j) ->
        validateArticle (Body (Req c)) <> None ->
        exists a' w',
          updateArticle env next c w
          = Done (JSON 200 (mkResponse true (OneArticle a') "" "" "") c) w'
          /\ a' ∈ articles w' /\ validateArticle a' <> None).
Proof.
  intros Hvalid. split; [|split; [|split]].
  - destruct (BodyErr (Req c)) as [err|] eqn:Hb.
    { by rewrite (createArticle_bind_error _ _ _ _ err). }
    destruct (validateArticle (Body (Req c))) as [err|] eqn:Hv.
    { by rewrite (createArticle_invalid _ _ _ _ err). }
    rewrite createArticle_ok by done. cbn [outcome_world articles].
    apply Forall_app. split; [exact Hvalid|]. constructor; [|constructor].
    apply validateArticle_None in Hv. by apply validateArticle_None.
  - destruct (find_from_shape 0 (articles w) (fst (Atoi (Param "id" c))))
      as [(a & j & Hf)|Hf].
    + rewrite (deleteArticle_found next c w a j Hf). cbn [outcome_world articles set_articles].
      by apply Forall_delete.
    + by rewrite (deleteArticle_missing next c w Hf).
  - intros Hv.
    destruct (find_from_shape 0 (articles w) (fst (Atoi (Param "id" c))))
      as [(a & j & Hf)|Hf].
    + rewrite (updateArticle_found env next c w a j Hf). cbn [outcome_world articles].
      apply Forall_insert; [exact Hvalid|].
      apply validateArticle_None in Hv. by apply validateArticle_None.
    + by rewrite (updateArticle_missing env next c w Hf).
  - intros a j Hf Hv. eexists _, _. split; [by apply (updateArticle_found env next c w a j)|].
    apply findArticleByID_Some in Hf as (Hj & Hl & Hid).
    split.
    + cbn [articles]. eapply list_elem_of_lookup_2. apply list_lookup_insert_eq.
      by eapply lookup_lt_Some.
    + intros H. apply Hv. apply validateArticle_None in H. by apply validateArticle_None.
Qed.

Lemma only_update_stores_without_validating_witness :
  let c := set_params {["id" := "2"]}
             (new_context (with_key "admin-key" "PUT" "/articles/2"
                                    (mkArticle 0 "A2" "" "" 0 0))) in
  let w := initial_world example_env in
  let next := fun c w => Done c w in
  Forall (fun a => validateArticle a = None)
         (articles (outcome_world (createArticle example_env next c w)))
  /\ Forall (fun a => validateArticle a = None)
            (articles (outcome_world (deleteArticle next c w)))
  /\ (validateArticle (Body (Req c)) = None ->
      Forall (fun a => validateArticle a = None)
             (articles (outcome_world (updateArticle example_env next c w))))
  /\ (forall a j,
        findArticleByID (articles w) (fst (Atoi (Param "id" c))) = (Some a, j) ->
        validateArticle (Body (Req c)) <> None ->
        exists a' w',
          updateArticle example_env next c w
          = Done (JSON 200 (mkResponse true (OneArticle a') "" "" "") c) w'
          /\ a' ∈ articles w' /\ validateArticle a' <> None).
Proof.
  intros c w next.
  apply (only_update_stores_without_validating example_env next c w).
  repeat constructor.
Defined.

(** ** The update route *)

(** X12. [PUT /articles/:id] through the whole chain, with any key of the
    mapping and a JSON content type: if no stored article has the identifier
    read from the path the answer is 404 and the store is unchanged;
    otherwise it is 200 with the updated record, which replaces the first
    article that has the identifier: title, content and author are those of
    the body, identifier and [created_at] stay, and [updated_at] is the third
    clock reading of the request (after those of the logging and the
    rate-limit stage). [nextId] stays. *)
Theorem put_article_by_path env req w p :
  Method req = "PUT" -> Path req = ("/articles/" ++ p)%string -> segment p = true ->
  is_Some (apiKeys !! api_key req) ->
  String.prefix "application/json" (default "" (ReqHeader req !! "Content-Type")) = true ->
  admitted env req w = true ->
  let id := fst (Atoi p) in
  exists c' w',
    ServeHTTP env req w = Done c' w'
    /\ nextId w' = nextId w
    /\ ((forall b, b ∈ articles w -> ID b <> id) ->
        status c' = 404
        /\ envelopes c' = [mkResponse false NoData "" "article not found" ""]
        /\ articles w' = articles w)
    /\ (forall (n : nat) a,
          articles w !! n = Some a -> ID a = id ->
          (forall k b, (k < n)%nat -> articles w !! k = Some b -> ID b <> id) ->
          let a' := mkArticle (ID a) (Title (Body req)) (Content (Body req))
                              (Author (Body req)) (CreatedAt a)
                              (clock env (S (S (ticks w)))) in
          status c' = 200
          /\ envelopes c' = [mkResponse true (OneArticle a') "" "" ""]
          /\ articles w' = <[n := a']> (articles w)).
Proof.
  intros Hm Hp Hseg [role Hk] Hjson Hadm id.
  assert (Hf : find_route (Method req) (Path req) (routes env)
               = Some ([AuthMiddleware; updateArticle env], {["id" := p]})).
  { rewrite Hm, Hp. by apply find_route_put. }
  assert (Hopt : Method req <> "OPTIONS") by (by rewrite Hm).
  assert (Hct : content_type_ok req = true).
  { unfold content_type_ok. by rewrite Hjson, andb_false_r. }
  destruct (entry_world_facts env req w) as (Ea & En & _ & _ & Et & _).
  destruct (role_context_facts env req {["id" := p]} w role) as (HR & HP & HW & HE & HI & HG).
  remember (set_index 7 (Set_ "role" role (handler_context env req {["id" := p]} w))) as cE.
  pose proof (Param_id p cE HP) as Hpar.
  destruct (findArticleByID_first_match' (articles w) id)
    as [(n & a & Hfind & Hl & Hid & Hfirst)|[Hfind Hnone]].
  - pose proof (updateArticle_found env (fun c w => Done c w) cE (entry_world env req w) a
                  (Z.of_nat n)) as Hup.
    rewrite Hpar, Ea in Hup. specialize (Hup Hfind). cbv zeta in Hup.
    rewrite HR, En, Et, Nat2Z.id in Hup.
    eexists _, _. split.
    { match type of Hup with _ = Done ?c1 ?w1 =>
        apply (ServeHTTP_protected env req w (updateArticle env) {["id" := p]} role
                 c1 w1 Hf Hopt Hadm Hct Hk) end.
      - intros next. rewrite <- HeqcE.
        rewrite (updateArticle_found env next cE (entry_world env req w) a (Z.of_nat n))
          by (rewrite Hpar, Ea; exact Hfind).
        cbv zeta. by rewrite HR, Ea, En, Et, Nat2Z.id.
      - by rewrite index_JSON. }
    rewrite articles_logged, nextId_logged, status_set_index, envelopes_set_index,
      envelopes_JSON, HE.
    split; [reflexivity|]. split.
    + intros Hno. exfalso. apply (Hno a); [by eapply list_elem_of_lookup_2 | done].
    + intros n' a0 Hl' Hid' Hfirst'.
      rewrite (findArticleByID_first _ _ n' a0 Hl' Hid' Hfirst') in Hfind.
      injection Hfind as -> Hn. apply Nat2Z.inj in Hn. subst n'. cbv zeta.
      rewrite status_JSON by done. done.
  - eexists _, _. split.
    { apply (ServeHTTP_protected env req w (updateArticle env) {["id" := p]} role
               (JSON 404 (mkResponse false NoData "" "article not found" "") cE)
               (entry_world env req w) Hf Hopt Hadm Hct Hk).
      - intros next. rewrite <- HeqcE. apply updateArticle_missing.
        rewrite Hpar, Ea. exact Hfind.
      - by rewrite index_JSON. }
    rewrite articles_logged, nextId_logged, status_set_index, envelopes_set_index,
      envelopes_JSON, HE.
    split; [exact En|]. split.
    + intros _. by rewrite status_JSON.
    + intros n' a' Hl' Hid' _. exfalso.
      apply (Hnone a'); [by eapply list_elem_of_lookup_2 | done].
Qed.

Lemma put_article_by_path_witness :
  let req := with_key "user-key-456" "PUT" "/articles/2" (mkArticle 0 "T" "C" "A" 0 0) in
  let w := initial_world example_env in
  let id := fst (Atoi "2") in
  exists c' w',
    ServeHTTP example_env req w = Done c' w'
    /\ nextId w' = nextId w
    /\ ((forall b, b ∈ articles w -> ID b <> id) ->
        status c' = 404
        /\ envelopes c' = [mkResponse false NoData "" "article not found" ""]
        /\ articles w' = articles w)
    /\ (forall (n : nat) a,
          articles w !! n = Some a -> ID a = id ->
          (forall k b, (k < n)%nat -> articles w !! k = Some b -> ID b <> id) ->
          let a' := mkArticle (ID a) (Title (Body req)) (Content (Body req))
                              (Author (Body req)) (CreatedAt a)
                              (clock example_env (S (S (ticks w)))) in
          status c' = 200
          /\ envelopes c' = [mkResponse true (OneArticle a') "" "" ""]
          /\ articles w' = <[n := a']> (articles w)).
Proof.
  intros req w id.
  apply (put_article_by_path example_env req w "2").
  - reflexivity.
  - reflexivity.
  - reflexivity.
  - eexists. reflexivity.
  - reflexivity.
  - vm_compute. reflexivity.
Defined.

(** ** The store in every state the service reaches *)

(** X26. In every state that the service reaches from its initial state by
    serving requests in turn, with a clock whose successive readings differ:
    every stored [updated_at] is earlier than the next clock reading, and, as
    long as the clock has been read at most [max_int] times (so that the
    counter cannot have wrapped around), the stored identifiers are pairwise
    distinct, at least 1 and below [nextId]. *)
Theorem reachable_store_is_well_formed env w :
  increasing env -> reachable env w ->
  Forall (fun a => UpdatedAt a < clock env (ticks w)) (articles w)
  /\ (Z.of_nat (ticks w) <= max_int ->
      NoDup (ID <$> articles w)
      /\ Forall (fun a => 1 <= ID a < nextId w) (articles w)
      /\ 1 <= nextId w <= Z.of_nat (ticks w)).
Proof.
  intros Hinc Hr. destruct (reachable_world_inv env w Hinc Hr) as [Hs Hi].
  split; [exact Hs|]. intros Hb. destruct (Hi Hb) as (Hn & Hall & Hnd). done.
Qed.

Lemma reachable_store_is_well_formed_witness :
  let w := serve_all example_env
             [with_key "admin-key" "POST" "/articles" (mkArticle 0 "A" "B" "C" 0 0);
              with_key "admin-key" "DELETE" "/article/1" (mkArticle 0 "" "" "" 0 0)]
             (initial_world example_env) in
  Forall (fun a => UpdatedAt a < clock example_env (ticks w)) (articles w)
  /\ (Z.of_nat (ticks w) <= max_int ->
      NoDup (ID <$> articles w)
      /\ Forall (fun a => 1 <= ID a < nextId w) (articles w)
      /\ 1 <= nextId w <= Z.of_nat (ticks w)).
Proof.
  intros w.
  apply (reachable_store_is_well_formed example_env w).
  - intros n. simpl. lia.
  - eexists. reflexivity.
Defined.

(** ** Handlers that run at the same time: what the mutex gives *)

Section ExclusionProofs.

Import Interleaved Exclusion.

Lemma Forall_sublist_of {A} (P : A -> Prop) (l1 l2 : list A) :
  sublist l1 l2 -> Forall P l2 -> Forall P l1.
Proof.
  intros Hsub H. apply Forall_forall. intros x Hx.
  rewrite Forall_forall in H. apply H. by eapply elem_of_sublist.
Qed.

Lemma holds_id_outside s t : in_critical t = false -> holds_id s t.
Proof. destruct t; simpl; done. Qed.

Lemma holds_id_kept s s' t :
  sh_nextId s' = sh_nextId s -> sublist (ids s') (ids s) ->
  holds_id s t -> holds_id s' t.
Proof.
  intros Hn Hsub. destruct t; simpl; rewrite ?Hn; try done;
    intros [? H]; (split; [done|]); by eapply Forall_sublist_of.
Qed.

Lemma Forall_insert_others {A} (P : A -> Prop) (l : list A) (n : nat) x :
  P x -> (forall m y, m <> n -> l !! m = Some y -> P y) -> Forall P (<[n := x]> l).
Proof.
  intros Hx Hothers. apply Forall_lookup. intros m y Hm.
  destruct (decide (m = n)) as [->|Hne].
  - destruct (decide (n < length l)%nat).
    + rewrite list_lookup_insert_eq in Hm by done. by injection Hm as <-.
    + rewrite list_insert_ge in Hm by lia. apply lookup_lt_Some in Hm. lia.
  - rewrite list_lookup_insert_ne in Hm by done. by eapply Hothers.
Qed.

Lemma exclusive_others threads s n t :
  exclusive threads s -> threads !! n = Some t -> in_critical t = true ->
  forall m t2, m <> n -> threads !! m = Some t2 -> in_critical t2 = false.
Proof.
  intros [Huniq _] Hn Hc m t2 Hne Hm.
  destruct (in_critical t2) eqn:E; [|done].
  exfalso. apply Hne. by eapply Huniq.
Qed.

Lemma exclusive_unlocked threads s :
  exclusive threads s -> sh_locked s = false ->
  forall m t, threads !! m = Some t -> in_critical t = false.
Proof.
  intros [_ Hlock] Hl m t Hm. destruct (in_critical t) eqn:E; [|done].
  assert (sh_locked s = true) by (apply Hlock; eauto). congruence.
Qed.

Lemma lookup_insert_cases {A} (l : list A) (n m : nat) x y t :
  l !! n = Some t -> <[n := x]> l !! m = Some y ->
  (m = n /\ y = x) \/ (m <> n /\ l !! m = Some y).
Proof.
  intros Hn Hm. destruct (decide (m = n)) as [->|Hne].
  - rewrite list_lookup_insert_eq in Hm by (by eapply lookup_lt_Some).
    left. split; congruence.
  - rewrite list_lookup_insert_ne in Hm by done. by right.
Qed.

(** A step that leaves the thread on the same side of the section. *)
Lemma exclusive_same threads s s' n t t' :
  exclusive threads s -> threads !! n = Some t ->
  in_critical t' = in_critical t -> sh_locked s' = sh_locked s ->
  exclusive (<[n := t']> threads) s'.
Proof.
  intros [Huniq Hlock] Hn Hc Hl. split.
  - intros i j ti tj Hi Hj Hci Hcj.
    destruct (lookup_insert_cases _ _ _ _ _ _ Hn Hi) as [[-> ->]|[Hi1 Hi2]],
      (lookup_insert_cases _ _ _ _ _ _ Hn Hj) as [[-> ->]|[Hj1 Hj2]]; try done.
    + symmetry. eapply Huniq; [exact Hj2 | exact Hn | done | congruence].
    + eapply Huniq; [exact Hi2 | exact Hn | done | congruence].
    + by eapply Huniq.
  - rewrite Hl, Hlock. split; intros (i & ti & Hi & Hci).
    + destruct (decide (i = n)) as [->|Hne].
      * exists n, t'. split; [|congruence].
        apply list_lookup_insert_eq. by eapply lookup_lt_Some.
      * exists i, ti. by rewrite list_lookup_insert_ne.
    + destruct (lookup_insert_cases _ _ _ _ _ _ Hn Hi) as [[-> ->]|[Hi1 Hi2]].
      * exists n, t. split; [done | congruence].
      * by exists i, ti.
Qed.

Lemma exclusive_acquire threads s s' n t t' :
  exclusive threads s -> threads !! n = Some t -> sh_locked s = false ->
  in_critical t' = true -> sh_locked s' = true ->
  exclusive (<[n := t']> threads) s'.
Proof.
  intros Hex Hn Hl Hc Hl'. pose proof (exclusive_unlocked _ _ Hex Hl) as Hnone. split.
  - intros i j ti tj Hi Hj Hci Hcj.
    destruct (lookup_insert_cases _ _ _ _ _ _ Hn Hi) as [[-> ->]|[Hi1 Hi2]],
      (lookup_insert_cases _ _ _ _ _ _ Hn Hj) as [[-> ->]|[Hj1 Hj2]]; try done.
    + apply Hnone in Hj2. congruence.
    + apply Hnone in Hi2. congruence.
    + apply Hnone in Hi2. congruence.
  - rewrite Hl'. split; [|done]. intros _. exists n, t'. split; [|done].
    apply list_lookup_insert_eq. by eapply lookup_lt_Some.
Qed.

Lemma exclusive_release threads s s' n t t' :
  exclusive threads s -> threads !! n = Some t -> in_critical t = true ->
  in_critical t' = false -> sh_locked s' = false ->
  exclusive (<[n := t']> threads) s'.
Proof.
  intros Hex Hn Hc Hc' Hl'. pose proof (exclusive_others _ _ _ _ Hex Hn Hc) as Hnone. split.
  - intros i j ti tj Hi Hj Hci Hcj.
    destruct (lookup_insert_cases _ _ _ _ _ _ Hn Hi) as [[-> ->]|[Hi1 Hi2]]; [congruence|].
    rewrite (Hnone i ti Hi1 Hi2) in Hci. done.
  - rewrite Hl'. split; [done|]. intros (i & ti & Hi & Hci).
    destruct (lookup_insert_cases _ _ _ _ _ _ Hn Hi) as [[-> ->]|[Hi1 Hi2]]; [congruence|].
    rewrite (Hnone i ti Hi1 Hi2) in Hci. done.
Qed.

Lemma ids_alter (f : Article -> Article) (n : nat) (arts : list Article) :
  (forall a, ID (f a) = ID a) -> ID <$> alter f n arts = ID <$> arts.
Proof.
  intros Hf. apply list_eq. intros k. rewrite !list_lookup_fmap.
  destruct (decide (n = k)) as [->|Hne].
  - rewrite list_lookup_alter_eq. destruct (arts !! k); simpl; [by rewrite Hf | done].
  - by rewrite list_lookup_alter_ne.
Qed.

Lemma assign_effect i (f : Article -> Article) k s t' s' :
  (forall a, ID (f a) = ID a) ->
  assign i f k s = (t', s') ->
  (t' = k \/ t' = Finished Fault)
  /\ sh_nextId s' = sh_nextId s /\ sh_locked s' = sh_locked s /\ ids s' = ids s.
Proof.
  intros Hf. unfold assign, index_assign.
  destruct (_ && _).
  - intros [= <- <-]. repeat split; [by left|]. unfold ids. simpl. by apply ids_alter.
  - intros [= <- <-]. repeat split. by right.
Qed.

(** The steps of the handlers that take no lock. *)
Lemma step_unlocked t s t' s' :
  step t s = Some (t', s') ->
  match t with
  | UpdateFind _ _ _ | UpdateTitle _ _ _ | UpdateContent _ _ _ | UpdateAuthor _ _ _
  | UpdateStamp _ _ | UpdateReply _ | DeleteFind _ | DeleteRemove _ | GetFind _ => True
  | _ => False
  end ->
  in_critical t = false /\ in_critical t' = false
  /\ sh_nextId s' = sh_nextId s /\ sh_locked s' = sh_locked s
  /\ sublist (ids s') (ids s).
Proof.
  destruct t; simpl; try done; intros H _.
  - destruct (findArticleByID _ _) as [[a|] j]; injection H as <- <-; done.
  - injection H as H. apply assign_effect in H as ([-> | ->] & ? & ? & ->); done.
  - injection H as H. apply assign_effect in H as ([-> | ->] & ? & ? & ->); done.
  - injection H as H. apply assign_effect in H as ([-> | ->] & ? & ? & ->); done.
  - injection H as H. apply assign_effect in H as ([-> | ->] & ? & ? & ->); done.
  - destruct (index_read _ _); injection H as <- <-; done.
  - destruct (findArticleByID _ _) as [a j]. destruct (j =? -1); injection H as <- <-; done.
  - unfold remove_at in H. destruct (_ && _) eqn:E; injection H as <- <-; [|done].
    apply andb_true_iff in E as [E1 E2]. apply Z.leb_le in E1.
    repeat split. unfold ids. simpl. rewrite fmap_app, fmap_take, fmap_drop.
    rewrite <- (take_drop (Z.to_nat i) (ID <$> sh_articles s)) at 3.
    apply sublist_app; [done|].
    replace (Z.to_nat (i + 1)) with (Z.to_nat i + 1)%nat by lia.
    rewrite <- drop_drop. apply sublist_drop.
  - destruct (findArticleByID _ _) as [[a|] j]; injection H as <- <-; done.
Qed.

Lemma step_inv_unlocked bound threads s n t t' s' :
  inv bound (threads, s) -> threads !! n = Some t ->
  in_critical t = false -> in_critical t' = false ->
  sh_nextId s' = sh_nextId s -> sh_locked s' = sh_locked s ->
  sublist (ids s') (ids s) ->
  inv (bound + 1) (<[n := t']> threads, s').
Proof.
  intros (Hex & Hall & Hnd & Hlt & Hb) Hn Hc Hc' Hn' Hl' Hsub.
  unfold inv. cbn [fst snd] in *.
  split; [eapply exclusive_same; eauto; congruence|].
  split; [|split; [|split]].
  - apply Forall_insert; [|by apply holds_id_outside].
    eapply Forall_impl; [exact Hall|]. intros t0. by apply holds_id_kept.
  - by eapply sublist_NoDup.
  - rewrite Hn'. by eapply Forall_sublist_of.
  - lia.
Qed.

Lemma step_inv bound n cfg cfg' :
  inv bound cfg -> bound < max_int ->
  step_thread n cfg = Some cfg' -> inv (bound + 1) cfg'.
Proof.
  destruct cfg as [threads s]. intros Hinv Hbound.
  pose proof Hinv as (Hex & Hall & Hnd & Hlt & Hb).
  unfold step_thread. cbn [fst snd] in *.
  destruct (threads !! n) as [t|] eqn:Hn; [|done]. cbn [mbind option_bind].
  destruct (step t s) as [[t' s']|] eqn:Hstep; [|done]. cbn [mbind option_bind].
  intros [= <-].
  pose proof (proj1 (Forall_lookup _ _) Hall n t Hn) as Ht.
  destruct t;
    try (apply step_unlocked in Hstep as (Hc & Hc' & Hn' & Hl' & Hsub); [|done];
         by eapply step_inv_unlocked);
    unfold inv; cbn [fst snd]; simpl in Hstep.
  - (* CreateLock *)
    destruct (sh_locked s) eqn:Hl; [done|]. injection Hstep as <- <-. cbn [sh_nextId sh_locked].
    split; [by eapply exclusive_acquire|].
    split; [|split; [done|split; [done|lia]]].
    apply Forall_insert; [|done].
    eapply Forall_impl; [exact Hall|]. intros t0. by apply holds_id_kept.
  - (* CreateReadId *)
    injection Hstep as <- <-.
    split; [by eapply exclusive_same|].
    split; [|split; [done|split; [done|lia]]].
    apply Forall_insert; [done|]. reflexivity.
  - (* CreateBump *)
    injection Hstep as <- <-. simpl in Ht. cbn [sh_nextId sh_locked].
    assert (Hw : wrap_int (sh_nextId s + 1) = sh_nextId s + 1).
    { apply wrap_int_small. unfold min_int, max_int in *. lia. }
    split; [by eapply exclusive_same|].
    split; [|split; [done|split]].
    + apply Forall_insert_others.
      * simpl. rewrite Hw. split; [lia|]. unfold ids in *. simpl. by rewrite Ht.
      * intros m y Hne Hm. apply holds_id_outside.
        by eapply (exclusive_others threads s n).
    + unfold ids in *. simpl. rewrite Hw. eapply Forall_impl; [exact Hlt|]. simpl. lia.
    + rewrite Hw. lia.
  - (* CreateStampC *)
    injection Hstep as <- <-.
    split; [by eapply exclusive_same|].
    split; [|split; [done|split; [done|lia]]].
    apply Forall_insert; [done|]. exact Ht.
  - (* CreateStampU *)
    injection Hstep as <- <-.
    split; [by eapply exclusive_same|].
    split; [|split; [done|split; [done|lia]]].
    apply Forall_insert; [done|]. exact Ht.
  - (* CreateAppend *)
    injection Hstep as <- <-. simpl in Ht. destruct Ht as [Hid Hbelow].
    split; [by eapply exclusive_same|].
    unfold ids in *. cbn [sh_articles sh_nextId with_articles].
    rewrite fmap_app. cbn [fmap list_fmap].
    split; [|split; [|split; [|lia]]].
    + apply Forall_insert_others; [done|].
      intros m y Hne Hm. apply holds_id_outside.
      by eapply (exclusive_others threads s n).
    + apply NoDup_app. split; [done|]. split; [|apply NoDup_singleton].
      intros x Hx Hx'. apply list_elem_of_singleton in Hx'. subst x.
      rewrite Forall_forall in Hbelow. apply Hbelow in Hx. lia.
    + apply Forall_app. split; [done|]. constructor; [lia | constructor].
  - (* CreateReply *)
    injection Hstep as <- <-. cbn [sh_nextId sh_locked].
    split; [by eapply exclusive_release|].
    split; [|split; [done|split; [done|lia]]].
    apply Forall_insert; [|done].
    eapply Forall_impl; [exact Hall|]. intros t0. by apply holds_id_kept.
Qed.

Lemma run_inv schedule : forall bound cfg cfg',
  inv bound cfg -> bound + Z.of_nat (length schedule) <= max_int ->
  run schedule cfg = Some cfg' -> inv (bound + Z.of_nat (length schedule)) cfg'.
Proof.
  induction schedule as [|n rest IH]; intros bound cfg cfg' Hinv Hb; simpl.
  - intros [= <-]. by rewrite Z.add_0_r.
  - destruct (step_thread n cfg) as [cfg1|] eqn:Hstep; [|done]. cbn [mbind option_bind].
    intros Hrun. simpl length in Hb.
    apply (step_inv bound n cfg cfg1) in Hstep; [|done|lia].
    apply (IH _ _ _ Hstep) in Hrun; [|lia].
    replace (bound + Z.of_nat (S (length rest)))
      with (bound + 1 + Z.of_nat (length rest)) by lia.
    exact Hrun.
Qed.

(** A step that neither takes an identifier nor moves the counter. *)
Lemma owned_same low bound threads s n t t' s' :
  owned low bound (threads, s) -> threads !! n = Some t ->
  exclusive (<[n := t']> threads) s' ->
  sh_nextId s' = sh_nextId s ->
  (forall a, taken t' = Some a ->
     taken t = Some a /\ holds_counter t = false /\ holds_counter t' = false) ->
  owned low (bound + 1) (<[n := t']> threads, s').
Proof.
  intros (Hex & Hrange & Hdist & Hb & Hlow) Hn Hex' Hn' Ht'.
  unfold owned. cbn [fst snd] in *. split; [exact Hex'|]. split; [|split; [|lia]].
  - intros i t0 a Hi Ha.
    destruct (lookup_insert_cases _ _ _ _ _ _ Hn Hi) as [[-> ->]|[Hi1 Hi2]].
    + destruct (Ht' a Ha) as (Hta & Hc & Hc').
      destruct (Hrange n t a Hn Hta) as [Hl Hr]. split; [done|].
      rewrite Hn', Hc'. by rewrite Hc in Hr.
    + rewrite Hn'. by eapply Hrange.
  - intros i j ti tj a Hi Hj Hai Haj.
    destruct (lookup_insert_cases _ _ _ _ _ _ Hn Hi) as [[-> ->]|[Hi1 Hi2]],
      (lookup_insert_cases _ _ _ _ _ _ Hn Hj) as [[-> ->]|[Hj1 Hj2]]; try done.
    + symmetry. eapply Hdist; [exact Hj2 | exact Hn | done | by apply Ht'].
    + eapply Hdist; [exact Hi2 | exact Hn | done | by apply Ht'].
    + by eapply Hdist.
Qed.

Lemma assign_taken i (f : Article -> Article) k s t' s' :
  assign i f k s = (t', s') ->
  (t' = k \/ t' = Finished Fault)
  /\ sh_nextId s' = sh_nextId s /\ sh_locked s' = sh_locked s.
Proof.
  unfold assign. destruct (index_assign _ _ _); intros [= <- <-]; auto.
Qed.

Ltac same_side Hown Hn :=
  eapply owned_same;
  [exact Hown | exact Hn | by eapply exclusive_same | done | simpl; auto; done].

Lemma step_owned low bound n cfg cfg' :
  owned low bound cfg -> bound < max_int ->
  step_thread n cfg = Some cfg' -> owned low (bound + 1) cfg'.
Proof.
  destruct cfg as [threads s]. intros Hown Hbound.
  pose proof Hown as (Hex & Hrange & Hdist & Hb & Hlow).
  unfold step_thread. cbn [fst snd] in *.
  destruct (threads !! n) as [t|] eqn:Hn; [|done]. cbn [mbind option_bind].
  destruct (step t s) as [[t' s']|] eqn:Hstep; [|done]. cbn [mbind option_bind].
  intros [= <-].
  destruct t; simpl in Hstep.
  - (* CreateLock *)
    destruct (sh_locked s) eqn:Hl; [done|]. injection Hstep as <- <-.
    eapply owned_same; [exact Hown | exact Hn | by eapply exclusive_acquire | done | done].
  - (* CreateReadId: the identifier is taken *)
    injection Hstep as <- <-.
    assert (Hex' : exclusive (<[n := CreateBump (set_ID (sh_nextId s) input) t1 t2]> threads) s)
      by (by eapply exclusive_same).
    unfold owned. cbn [fst snd]. split; [exact Hex'|]. split; [|split; [|lia]].
    + intros i t0 a Hi Ha.
      destruct (lookup_insert_cases _ _ _ _ _ _ Hn Hi) as [[-> ->]|[Hi1 Hi2]].
      * simpl in *. injection Ha as <-. lia.
      * by eapply Hrange.
    + assert (Hother : forall m tm a, m <> n -> threads !! m = Some tm ->
                taken tm = Some a -> a < sh_nextId s).
      { intros m tm a Hne Hm Ha. destruct (Hrange m tm a Hm Ha) as [_ Hr].
        assert (Hc : in_critical tm = false)
          by (by eapply (exclusive_others threads s n)).
        destruct tm; simpl in *; done. }
      intros i j ti tj a Hi Hj Hai Haj.
      destruct (lookup_insert_cases _ _ _ _ _ _ Hn Hi) as [[-> ->]|[Hi1 Hi2]],
        (lookup_insert_cases _ _ _ _ _ _ Hn Hj) as [[-> ->]|[Hj1 Hj2]]; try done.
      * simpl in Hai. injection Hai as <-. apply (Hother j tj) in Haj; try done. lia.
      * simpl in Haj. injection Haj as <-. apply (Hother i ti) in Hai; try done. lia.
      * by eapply Hdist.
  - (* CreateBump: the counter moves past the identifier *)
    injection Hstep as <- <-.
    assert (Hw : wrap_int (sh_nextId s + 1) = sh_nextId s + 1).
    { apply wrap_int_small. unfold min_int, max_int in *. lia. }
    unfold owned. cbn [fst snd sh_nextId]. rewrite Hw.
    split; [by eapply exclusive_same|]. split; [|split; [|lia]].
    + intros i t0 a Hi Ha.
      destruct (lookup_insert_cases _ _ _ _ _ _ Hn Hi) as [[-> ->]|[Hi1 Hi2]].
      * simpl in *. destruct (Hrange n _ a Hn Ha) as [Hl Hr]. simpl in Hr. lia.
      * destruct (Hrange i t0 a Hi2 Ha) as [Hl Hr]. split; [done|].
        assert (Hc : in_critical t0 = false)
          by (by eapply (exclusive_others threads s n)).
        destruct t0; simpl in *; try done; lia.
    + intros i j ti tj a Hi Hj Hai Haj.
      destruct (lookup_insert_cases _ _ _ _ _ _ Hn Hi) as [[-> ->]|[Hi1 Hi2]],
        (lookup_insert_cases _ _ _ _ _ _ Hn Hj) as [[-> ->]|[Hj1 Hj2]]; try done.
      * symmetry. eapply Hdist; [exact Hj2 | exact Hn | done | done].
      * eapply Hdist; [exact Hi2 | exact Hn | done | done].
      * by eapply Hdist.
  - injection Hstep as <- <-. same_side Hown Hn.
  - injection Hstep as <- <-. same_side Hown Hn.
  - injection Hstep as <- <-. same_side Hown Hn.
  - injection Hstep as <- <-.
    eapply owned_same; [exact Hown | exact Hn | by eapply exclusive_release | done
                       | simpl; auto].
  - destruct (findArticleByID _ _) as [[a|] j]; injection Hstep as <- <-;
      same_side Hown Hn.
  - injection Hstep as H. apply assign_taken in H as ([-> | ->] & Hn' & Hl');
      same_side Hown Hn.
  - injection Hstep as H. apply assign_taken in H as ([-> | ->] & Hn' & Hl');
      same_side Hown Hn.
  - injection Hstep as H. apply assign_taken in H as ([-> | ->] & Hn' & Hl');
      same_side Hown Hn.
  - injection Hstep as H. apply assign_taken in H as ([-> | ->] & Hn' & Hl');
      same_side Hown Hn.
  - destruct (index_read _ _); injection Hstep as <- <-; same_side Hown Hn.
  - destruct (findArticleByID _ _) as [a j]. destruct (j =? -1);
      injection Hstep as <- <-; same_side Hown Hn.
  - destruct (remove_at _ _); injection Hstep as <- <-; same_side Hown Hn.
  - destruct (findArticleByID _ _) as [[a|] j]; injection Hstep as <- <-;
      same_side Hown Hn.
  - done.
Qed.

Lemma run_owned schedule : forall low bound cfg cfg',
  owned low bound cfg -> bound + Z.of_nat (length schedule) <= max_int ->
  run schedule cfg = Some cfg' -> owned low (bound + Z.of_nat (length schedule)) cfg'.
Proof.
  induction schedule as [|n rest IH]; intros low bound cfg cfg' Hown Hb; simpl.
  - intros [= <-]. by rewrite Z.add_0_r.
  - destruct (step_thread n cfg) as [cfg1|] eqn:Hstep; [|done]. cbn [mbind option_bind].
    intros Hrun. simpl length in Hb.
    apply (step_owned low bound n cfg cfg1) in Hstep; [|done|lia].
    apply (IH _ _ _ _ Hstep) in Hrun; [|lia].
    replace (bound + Z.of_nat (S (length rest)))
      with (bound + 1 + Z.of_nat (length rest)) by lia.
    exact Hrun.
Qed.

(** X23. What the mutex of [createArticle] gives, whatever runs at the same
    time (creates, updates, deletes, reads) and in whatever order the
    statements interleave: no two creates are given the same identifier,
    every identifier given is at least the counter the run started with and
    at most the counter reached, the counter never goes back, at most one
    [createArticle] is between [articleMux.Lock()] and the deferred unlock,
    and the mutex is held exactly when one is. This is about the counter,
    the identifier a create holds and the mutex, which only [createArticle]
    touches; nothing is said of the slice, which [updateArticle] and
    [deleteArticle] write without the mutex. (The start is any state with
    the mutex free in which no create has taken an identifier yet; the
    counter must have room for the steps of the schedule.) *)
Theorem creates_take_distinct_identifiers threads s schedule threads' s' :
  sh_locked s = false ->
  Forall (fun t => in_critical t = false /\ taken t = None) threads ->
  min_int <= sh_nextId s -> sh_nextId s + Z.of_nat (length schedule) <= max_int ->
  run schedule (threads, s) = Some (threads', s') ->
  (forall i j ti tj a, threads' !! i = Some ti -> threads' !! j = Some tj ->
     taken ti = Some a -> taken tj = Some a -> i = j)
  /\ (forall i t a, threads' !! i = Some t -> taken t = Some a ->
        sh_nextId s <= a <= sh_nextId s')
  /\ sh_nextId s <= sh_nextId s'
  /\ (forall i j ti tj, threads' !! i = Some ti -> threads' !! j = Some tj ->
        in_critical ti = true -> in_critical tj = true -> i = j)
  /\ (sh_locked s' = true <-> exists i t, threads' !! i = Some t /\ in_critical t = true).
Proof.
  intros Hl Hout Hmin Hmax Hrun.
  assert (Hown : owned (sh_nextId s) (sh_nextId s) (threads, s)).
  { unfold owned. cbn [fst snd]. rewrite Forall_lookup in Hout.
    split; [|split; [|split; [|lia]]].
    - split.
      + intros i j ti tj Hi Hj Hci. apply Hout in Hi as [Hi _]. congruence.
      + rewrite Hl. split; [done|]. intros (i & t & Hi & Hc).
        apply Hout in Hi as [Hi _]. congruence.
    - intros i t a Hi Ha. apply Hout in Hi as [_ Hi]. congruence.
    - intros i j ti tj a Hi Hj Ha. apply Hout in Hi as [_ Hi]. congruence. }
  apply (run_owned schedule _ _ _ _ Hown Hmax) in Hrun.
  destruct Hrun as ([Huniq Hlock] & Hrange & Hdist & Hb & _). cbn [fst snd] in *.
  split; [exact Hdist|]. split; [|split; [lia|split; [exact Huniq | exact Hlock]]].
  intros i t a Hi Ha. destruct (Hrange i t a Hi Ha) as [Hlo Hr].
  split; [done|]. destruct (holds_counter t); lia.
Qed.

Lemma creates_take_distinct_identifiers_witness :
  let input := mkArticle 0 "X" "Y" "Z" 0 0 in
  let threads := [CreateLock input 2000 2001; UpdateFind 2 input 2002;
                  CreateLock input 2003 2004; DeleteFind 1] in
  let schedule := [0; 1; 0; 3; 0; 1; 0; 3; 0; 0; 1; 0; 2; 2; 1; 2; 2; 2; 2; 2]%nat in
  exists threads' s',
    run schedule (threads, initial_shared) = Some (threads', s')
    /\ taken <$> threads' = [Some 3; None; Some 4; None]
    /\ (forall i j ti tj a, threads' !! i = Some ti -> threads' !! j = Some tj ->
          taken ti = Some a -> taken tj = Some a -> i = j)
    /\ (forall i t a, threads' !! i = Some t -> taken t = Some a -> 3 <= a <= sh_nextId s').
Proof.
  intros input threads schedule.
  pose (cfg := default (threads, initial_shared) (run schedule (threads, initial_shared))).
  assert (H : run schedule (threads, initial_shared) = Some (fst cfg, snd cfg))
    by (vm_compute; reflexivity).
  exists (fst cfg), (snd cfg). split; [exact H|].
  split; [vm_compute; reflexivity|].
  destruct (creates_take_distinct_identifiers threads initial_shared schedule
              (fst cfg) (snd cfg)) as (Hd & Hr & _).
  - reflexivity.
  - repeat constructor.
  - unfold min_int. simpl. lia.
  - unfold max_int. simpl. lia.
  - exact H.
  - split; [exact Hd | exact Hr].
Defined.

Lemma step_critical t s : in_critical t = true -> is_Some (step t s).
Proof. destruct t; simpl; try done; eauto. Qed.

Lemma step_free t s :
  sh_locked s = false -> finished t = false -> is_Some (step t s).
Proof.
  intros Hl Hf. destruct t; simpl in *; try done; rewrite ?Hl; eauto.
  - destruct (findArticleByID _ _) as [[a|] j]; eauto.
  - destruct (index_read _ _); eauto.
  - destruct (findArticleByID _ _) as [a j]. destruct (j =? -1); eauto.
  - destruct (remove_at _ _); eauto.
  - destruct (findArticleByID _ _) as [[a|] j]; eauto.
Qed.

Lemma step_thread_Some n threads s t :
  threads !! n = Some t -> is_Some (step t s) -> is_Some (step_thread n (threads, s)).
Proof.
  intros Hn [[t' s'] Hs]. unfold step_thread. cbn [fst snd]. rewrite Hn. cbn.
  rewrite Hs. cbn. eauto.
Qed.

(** X24. No deadlock: in every configuration reached by interleaving
    handlers from a state with the mutex free and no handler inside the
    section, either every handler has answered or some handler can run its
    next statement; a create that waits for the mutex waits for a create that
    can move and that releases it when it returns. *)
Theorem some_request_can_always_move threads s schedule threads' s' :
  sh_locked s = false ->
  Forall (fun t => in_critical t = false) threads ->
  NoDup (ID <$> sh_articles s) ->
  Forall (fun a => ID a < sh_nextId s) (sh_articles s) ->
  min_int <= sh_nextId s -> sh_nextId s + Z.of_nat (length schedule) <= max_int ->
  run schedule (threads, s) = Some (threads', s') ->
  Forall (fun t => finished t = true) threads'
  \/ exists n, is_Some (step_thread n (threads', s')).
Proof.
  intros Hl Hout Hnd Hlt Hmin Hmax Hrun.
  assert (Hinv : inv (sh_nextId s) (threads, s)).
  { unfold inv. cbn [fst snd]. split; [|split; [|split; [|split]]].
    - split.
      + intros i j ti tj Hi Hj Hci. rewrite Forall_lookup in Hout.
        apply Hout in Hi. congruence.
      + rewrite Hl. split; [done|]. intros (i & t & Hi & Hc).
        rewrite Forall_lookup in Hout. apply Hout in Hi. congruence.
    - eapply Forall_impl; [exact Hout|]. intros t. apply holds_id_outside.
    - exact Hnd.
    - unfold ids. by apply Forall_fmap.
    - lia. }
  apply (run_inv schedule _ _ _ Hinv Hmax) in Hrun.
  destruct Hrun as ([Huniq Hlock] & _). cbn [fst snd] in *.
  destruct (sh_locked s') eqn:Hl'.
  - right. destruct (proj1 Hlock eq_refl) as (i & t & Hi & Hc).
    exists i. eapply step_thread_Some; [exact Hi|]. by apply step_critical.
  - destruct (Forall_Exists_dec (fun t => finished t = true) (fun t => finished t <> true)
                (fun t => match bool_dec (finished t) true with
                          | left H => left H | right H => right H end) threads')
      as [Hall|Hex]; [by left|].
    right. apply Exists_exists in Hex as (t & Hin & Hf).
    apply list_elem_of_lookup_1 in Hin as [i Hi].
    exists i. eapply step_thread_Some; [exact Hi|]. apply step_free; [done|].
    by destruct (finished t).
Qed.

Lemma some_request_can_always_move_witness :
  let input := mkArticle 0 "X" "Y" "Z" 0 0 in
  let threads := [CreateLock input 2000 2001; CreateLock input 2003 2004] in
  let schedule := [0; 0; 0]%nat in
  exists threads' s',
    run schedule (threads, initial_shared) = Some (threads', s')
    /\ (Forall (fun t => finished t = true) threads'
        \/ exists n, is_Some (step_thread n (threads', s'))).
Proof.
  intros input threads schedule.
  eexists. eexists. split; [vm_compute; reflexivity|].
  apply (some_request_can_always_move threads initial_shared schedule).
  - reflexivity.
  - repeat constructor.
  - simpl. apply NoDup_cons. split; [|apply NoDup_singleton].
    intros H. apply list_elem_of_singleton in H. discriminate.
  - repeat constructor.
  - unfold min_int. simpl. lia.
  - unfold max_int. simpl. lia.
  - vm_compute. reflexivity.
Defined.

End ExclusionProofs.
